(** * SwarmX: event bus, agent runtime, task scheduler and config loader

    A shallow embedding of [swarmx/core/event_bus.py], [swarmx/core/agent.py],
    [swarmx/core/scheduler.py], [swarmx/utils/config.py] and, of
    [swarmx/core/provider.py] and [swarmx/core/engine.py], the provider
    registry and the submission of tasks, followed by the properties of
    the specification that are stated about them and by further
    properties of the code.

    Conventions of the embedding.
    - A Python [str] is a [string] that holds the bytes of its UTF-8
      encoding, a lone surrogate as the three bytes the scheme gives its
      code point.  Comparing two strs, [startswith], [endswith] and [split]
      on an ASCII separator are the same on these bytes as on the
      characters; where the code counts characters, so does the model
      ([Py.chars]).  [int] is [Z]; [float] is [Q] (only ever compared with
      zero or stored).
    - A Python [dict] keeps insertion order, and the code iterates over
      dicts, so a dict is an association list with unique keys ([Py.dict]).
    - Exceptions are values of [Py.Exn]; a computation that may raise returns
      a [Py.Res].  Only subclasses of [Exception] are modelled: the signals
      that [except Exception] lets through on purpose (KeyboardInterrupt,
      SystemExit, the cancellation of the task that runs a handler) are
      outside the model.  The one cancellation the code itself asks for,
      that of the loop task of the bus by [stop], is part of the turns of
      that task.
    - A coroutine runs atomically between two [await]s that really suspend.
      A handler given to the bus is an atomic transformer of an external
      world that returns or raises; it does not publish back into the bus
      while it is being dispatched.  [EventBus._dispatch_event] is the
      dispatch of an event with no other task taking a turn while its
      handlers run.  Where the loop task and the caller of [stop] both
      are at work, each runs from one suspension to the next, and a run
      is told by the list of its turns; the tasks are those that asyncio
      makes in CPython 3.11, where [wait_for] wraps the get of the queue
      in a task of its own.  The suspension of the scheduler in
      [asyncio.sleep] is explicit.  A blocking [publish] is modelled with
      room in the queue, where the put does not suspend. *)

From Stdlib Require Import ZArith QArith Lia Ascii String Bool Sorted.
From stdpp Require Import base tactics option list strings pretty gmap.

Local Open Scope Z_scope.

(** * Python built-ins *)

Module Py.

(** Exceptions, all of them subclasses of [Exception]. *)
Inductive Exn : Type :=
| QueueFull
| QueueEmpty
| RuntimeError (msg : string)
| KeyError (msg : string)
| TypeError (msg : string)
| UnicodeEncodeError (reason : string)
| Exception (msg : string).

Inductive Res (A : Type) : Type :=
| Ok (a : A)
| Raise (e : Exn).
Arguments Ok {A} a.
Arguments Raise {A} e.

(** Values found in an event payload or a parsed YAML document
    ([dict[str, Any]]).  Nested through [list]: case analysis is all the
    development needs, so no induction scheme is generated. *)
Unset Elimination Schemes.
Inductive Value : Type :=
| VNone
| VBool (b : bool)
| VInt (n : Z)
| VFloat (q : Q)
| VStr (s : string)
| VList (l : list Value)
| VDict (d : list (string * Value)).
Set Elimination Schemes.

(** Python truthiness, as used by [if not content]. *)
Definition truthy (v : Value) : bool :=
  match v with
  | VNone => false
  | VBool b => b
  | VInt n => negb (n =? 0)
  | VFloat q => negb (Qeq_bool q 0)
  | VStr s => negb (String.eqb s "")
  | VList l => match l with [] => false | _ => true end
  | VDict d => match d with [] => false | _ => true end
  end.

(** ** Insertion-ordered dictionaries with [str] keys *)

Definition dict (V : Type) : Type := list (string * V).

Fixpoint dict_get {V} (k : string) (d : dict V) : option V :=
  match d with
  | [] => None
  | (k', v) :: d' => if String.eqb k' k then Some v else dict_get k d'
  end.

(** [d[k] = v]: an existing key keeps its position, a new key goes last. *)
Fixpoint dict_set {V} (k : string) (v : V) (d : dict V) : dict V :=
  match d with
  | [] => [(k, v)]
  | (k', v') :: d' =>
      if String.eqb k' k then (k', v) :: d' else (k', v') :: dict_set k v d'
  end.

Fixpoint dict_del {V} (k : string) (d : dict V) : dict V :=
  match d with
  | [] => []
  | (k', v') :: d' =>
      if String.eqb k' k then d' else (k', v') :: dict_del k d'
  end.

Definition dict_mem {V} (k : string) (d : dict V) : bool :=
  match dict_get k d with Some _ => true | None => false end.

Definition dict_keys {V} (d : dict V) : list string := map fst d.
Definition dict_values {V} (d : dict V) : list V := map snd d.

(** [d.get(k, default)] *)
Definition dict_get_default {V} (k : string) (default : V) (d : dict V) : V :=
  match dict_get k d with Some v => v | None => default end.

(** [{**a, **b}]: the entries of [b] are written over those of [a]. *)
Definition dict_update {V} (a b : dict V) : dict V :=
  fold_left (fun acc kv => dict_set (fst kv) (snd kv) acc) b a.

(** ** Slices *)

(** The position an index of a slice denotes in a sequence of [len] items:
    a negative index counts from the end, and the result is clamped. *)
Definition slice_index (len : nat) (i : Z) : nat :=
  Z.to_nat (if i <? 0 then Z.max 0 (Z.of_nat len + i) else Z.min i (Z.of_nat len)).

(** [l[start:]] *)
Definition slice_from {A} (start : Z) (l : list A) : list A :=
  drop (slice_index (length l) start) l.

(** [l[:stop]] *)
Definition slice_to {A} (stop : Z) (l : list A) : list A :=
  take (slice_index (length l) stop) l.

(** [s[start:stop]] on a str of which the characters before [start] and
    after [stop] are ASCII, as they are where the code has tested
    [startswith] or [endswith] on an ASCII literal of that length: the
    positions count bytes. *)
Definition str_slice (start stop : Z) (s : string) : string :=
  let b := slice_index (String.length s) start in
  let e := slice_index (String.length s) stop in
  substring b (e - b) s.

(** [s[:stop]], under the same condition. *)
Definition str_slice_to (stop : Z) (s : string) : string := str_slice 0 stop s.

(** ** Characters *)

(** A byte 10xxxxxx goes on with the character begun before it. *)
Definition continuation (c : ascii) : bool :=
  (128 <=? N_of_ascii c)%N && (N_of_ascii c <? 192)%N.

(** The characters of a str, each with its bytes. *)
Fixpoint chars (s : string) : list string :=
  match s with
  | EmptyString => []
  | String c s' =>
      match chars s' with
      | String c' ch :: rest =>
          if continuation c' then String c (String c' ch) :: rest
          else String c EmptyString :: String c' ch :: rest
      | rest => String c EmptyString :: rest
      end
  end.

(** [s[:stop]], the positions counting characters. *)
Definition str_prefix (stop : Z) (s : string) : string :=
  String.concat "" (slice_to stop (chars s)).

(** ** The codec of the file system on POSIX: UTF-8 with [surrogateescape] *)

(** The number of bytes of the UTF-8 sequence that [s] begins with, or 0
    if it begins with none: no overlong form, no surrogate, nothing above
    U+10FFFF. *)
Definition utf8_sequence (s : string) : nat :=
  match s with
  | EmptyString => 0
  | String c0 s1 =>
      let b0 := N_of_ascii c0 in
      if (b0 <? 128)%N then 1
      else match s1 with
      | EmptyString => 0
      | String c1 s2 =>
          let b1 := N_of_ascii c1 in
          if (194 <=? b0)%N && (b0 <=? 223)%N then (if continuation c1 then 2 else 0)
          else match s2 with
          | EmptyString => 0
          | String c2 s3 =>
              if (224 <=? b0)%N && (b0 <=? 239)%N then
                if ((if (b0 =? 224)%N then 160 else 128) <=? b1)%N
                   && (b1 <=? (if (b0 =? 237)%N then 159 else 191))%N
                   && continuation c2
                then 3 else 0
              else match s3 with
              | EmptyString => 0
              | String c3 _ =>
                  if (240 <=? b0)%N && (b0 <=? 244)%N
                     && ((if (b0 =? 240)%N then 144 else 128) <=? b1)%N
                     && (b1 <=? (if (b0 =? 244)%N then 143 else 191))%N
                     && continuation c2 && continuation c3
                  then 4 else 0
              end
          end
      end
  end.

(** The three bytes that hold the surrogate U+DC00 + [b] in a str, for a
    byte [b] from 128 on. *)
Definition escaped (c : ascii) : string :=
  String (ascii_of_N 237)
    (String (ascii_of_N (176 + N_of_ascii c / 64))
       (String (ascii_of_N (128 + N_of_ascii c mod 64)) EmptyString)).

(** [b.decode('utf-8', 'surrogateescape')]: a byte that is part of no
    UTF-8 sequence becomes the surrogate U+DC00 + byte.  [inside] counts
    the bytes still to copy of the sequence under way. *)
Fixpoint decode_surrogateescape (inside : nat) (b : string) : string :=
  match b with
  | EmptyString => EmptyString
  | String c b' =>
      match inside with
      | S n => String c (decode_surrogateescape n b')
      | O =>
          match utf8_sequence b with
          | O => escaped c +:+ decode_surrogateescape 0 b'
          | S n => String c (decode_surrogateescape n b')
          end
      end
  end.

(** [s.encode('utf-8', 'surrogateescape')]: a surrogate from U+DC80 to
    U+DCFF becomes the byte it stands for, any other surrogate cannot be
    encoded. *)
Fixpoint encode_surrogateescape (s : string) : Res string :=
  match s with
  | EmptyString => Ok EmptyString
  | String c0 s1 =>
      let copy := match encode_surrogateescape s1 with
                  | Ok b => Ok (String c0 b)
                  | Raise exn => Raise exn
                  end in
      match s1 with
      | String c1 (String c2 s3) =>
          if (N_of_ascii c0 =? 237)%N && (160 <=? N_of_ascii c1)%N then
            if (178 <=? N_of_ascii c1)%N && (N_of_ascii c1 <=? 179)%N then
              match encode_surrogateescape s3 with
              | Ok b => Ok (String (ascii_of_N (128 + (N_of_ascii c1 - 178) * 64
                                                + N_of_ascii c2 mod 64)) b)
              | Raise exn => Raise exn
              end
            else Raise (UnicodeEncodeError "surrogates not allowed")
          else copy
      | _ => copy
      end
  end.

(** ** String methods *)

(** [s.startswith(p)] *)
Definition startswith (s p : string) : bool := String.prefix p s.

(** [s.endswith(x)]: some suffix of [s] is [x]. *)
Fixpoint endswith (s x : string) : bool :=
  if String.eqb s x then true
  else match s with
       | EmptyString => false
       | String _ s' => endswith s' x
       end.

(** [s.split(sep)] for a one-character separator: never empty, and an empty
    string gives one empty segment. *)
Fixpoint split (sep : ascii) (s : string) : list string :=
  match s with
  | EmptyString => [EmptyString]
  | String c s' =>
      if Ascii.eqb c sep then EmptyString :: split sep s'
      else match split sep s' with
           | seg :: segs => String c seg :: segs
           | [] => [String c EmptyString]
           end
  end.

(** [sep.join(ls)] *)
Definition join (sep : string) (ls : list string) : string := String.concat sep ls.

(** [range(n)] *)
Definition range (n : nat) : list nat := seq 0 n.

(** ** Code that changes a state [S] and returns or raises *)

Definition M (S A : Type) : Type := S -> S * Res A.

Definition ret {S A} (a : A) : M S A := fun s => (s, Ok a).

Definition raise {S A} (e : Exn) : M S A := fun s => (s, Raise e).

Definition bind {S A B} (m : M S A) (k : A -> M S B) : M S B :=
  fun s => match m s with
           | (s', Ok a) => k a s'
           | (s', Raise e) => (s', Raise e)
           end.

Definition gets {S A} (f : S -> A) : M S A := fun s => (s, Ok (f s)).

Definition modify {S} (f : S -> S) : M S unit := fun s => (f s, Ok tt).

(** [try: m  except Exception: h] *)
Definition try_except {S A} (m : M S A) (h : Exn -> M S A) : M S A :=
  fun s => match m s with
           | (s', Ok a) => (s', Ok a)
           | (s', Raise e) => h e s'
           end.

(** [try: m  finally: f]: [f] runs on either outcome of [m], and an
    exception of [f] replaces that outcome. *)
Definition try_finally {S A} (m : M S A) (f : M S unit) : M S A :=
  fun s => let '(s1, r) := m s in
           match f s1 with
           | (s2, Ok _) => (s2, r)
           | (s2, Raise e) => (s2, Raise e)
           end.

Notation "x <- m ;; k" := (bind m (fun x => k))
  (at level 100, m at next level, right associativity).
Notation "m ;;; k" := (bind m (fun _ => k))
  (at level 100, right associativity).

End Py.

(** * The event bus ([swarmx/core/event_bus.py]) *)

Module EventBus.
Import Py.

Inductive EventPriority : Type := LOW | NORMAL | HIGH | CRITICAL.

(** [EventPriority.value] *)
Definition value (p : EventPriority) : Z :=
  match p with LOW => 0 | NORMAL => 1 | HIGH => 2 | CRITICAL => 3 end.

Record Event : Type := mkEvent {
  topic : string;
  payload : dict Value;
  source : string;
  event_id : string;
  timestamp : Q;
  priority : EventPriority;
  metadata : dict Value
}.

(** [asyncio.Queue(maxsize)]: a FIFO that is never full when
    [maxsize <= 0]. *)
Record Queue : Type := mkQueue {
  items : list Event;
  maxsize : Z
}.

Definition qsize (q : Queue) : Z := Z.of_nat (length (items q)).
Definition empty (q : Queue) : bool := match items q with [] => true | _ => false end.
Definition full (q : Queue) : bool :=
  if maxsize q <=? 0 then false else maxsize q <=? qsize q.

Definition put_nowait (e : Event) (q : Queue) : Queue * Res unit :=
  if full q then (q, Raise QueueFull)
  else ({| items := items q ++ [e]; maxsize := maxsize q |}, Ok tt).

Definition get_nowait (q : Queue) : Queue * option Event :=
  match items q with
  | [] => (q, None)
  | e :: rest => ({| items := rest; maxsize := maxsize q |}, Some e)
  end.

(** [self._stats] *)
Record Stats : Type := mkStats {
  published : Z;
  dispatched : Z;
  errors : Z
}.

Section Bus.

(** Whatever the handlers act on: agent histories, captured events, ... *)
Context {W : Type}.

(** [EventHandler]: an awaited handler either returns or raises, and may
    have changed the world before doing so. *)
Definition EventHandler : Type := Event -> W -> W * Res unit.

Record _Subscription : Type := mkSub {
  handler : EventHandler;
  subscriber_id : string;
  topic_pattern : string;
  sub_priority : EventPriority
}.

(** The task that [asyncio.wait_for] makes of [self._event_queue.get()]. *)
Inductive GetTask : Type :=
| GetCreated          (* made, its first step still to come *)
| Getting             (* it found the queue empty and waits for a put *)
| Got (e : Event).    (* it has taken [e] from the queue and returned it *)

(** The task that runs [_dispatch_loop], by where it stands:
    made by [asyncio.create_task], its first step still to come; suspended
    in [wait_for], with the task of the get; suspended in
    [_dispatch_event], at [await asyncio.gather], with the event and the
    handlers whose tasks have still to run; ended. *)
Inductive LoopTask : Type :=
| Created
| Waiting (get : GetTask)
| Gathering (e : Event) (pending : list _Subscription)
| Ended.

Record EventBus : Type := mkBus {
  _subscriptions : dict (list _Subscription);
  _global_subscriptions : list _Subscription;
  _event_queue : Queue;
  _running : bool;
  _dispatch_task : option LoopTask;
  _event_history : list Event;
  _max_history : Z;
  _stats : Stats
}.

(** [EventBus.__init__] *)
Definition init (max_queue_size : Z) : EventBus :=
  {| _subscriptions := [];
     _global_subscriptions := [];
     _event_queue := {| items := []; maxsize := max_queue_size |};
     _running := false;
     _dispatch_task := None;
     _event_history := [];
     _max_history := 1000;
     _stats := {| published := 0; dispatched := 0; errors := 0 |} |}.

Definition set_subscriptions (d : dict (list _Subscription)) (b : EventBus) : EventBus :=
  {| _subscriptions := d;
     _global_subscriptions := _global_subscriptions b;
     _event_queue := _event_queue b;
     _running := _running b;
     _dispatch_task := _dispatch_task b;
     _event_history := _event_history b;
     _max_history := _max_history b;
     _stats := _stats b |}.

Definition set_global_subscriptions (l : list _Subscription) (b : EventBus) : EventBus :=
  {| _subscriptions := _subscriptions b;
     _global_subscriptions := l;
     _event_queue := _event_queue b;
     _running := _running b;
     _dispatch_task := _dispatch_task b;
     _event_history := _event_history b;
     _max_history := _max_history b;
     _stats := _stats b |}.

Definition set_event_queue (q : Queue) (b : EventBus) : EventBus :=
  {| _subscriptions := _subscriptions b;
     _global_subscriptions := _global_subscriptions b;
     _event_queue := q;
     _running := _running b;
     _dispatch_task := _dispatch_task b;
     _event_history := _event_history b;
     _max_history := _max_history b;
     _stats := _stats b |}.

Definition set_running (r : bool) (b : EventBus) : EventBus :=
  {| _subscriptions := _subscriptions b;
     _global_subscriptions := _global_subscriptions b;
     _event_queue := _event_queue b;
     _running := r;
     _dispatch_task := _dispatch_task b;
     _event_history := _event_history b;
     _max_history := _max_history b;
     _stats := _stats b |}.

Definition set_dispatch_task (t : option LoopTask) (b : EventBus) : EventBus :=
  {| _subscriptions := _subscriptions b;
     _global_subscriptions := _global_subscriptions b;
     _event_queue := _event_queue b;
     _running := _running b;
     _dispatch_task := t;
     _event_history := _event_history b;
     _max_history := _max_history b;
     _stats := _stats b |}.

Definition set_event_history (h : list Event) (b : EventBus) : EventBus :=
  {| _subscriptions := _subscriptions b;
     _global_subscriptions := _global_subscriptions b;
     _event_queue := _event_queue b;
     _running := _running b;
     _dispatch_task := _dispatch_task b;
     _event_history := h;
     _max_history := _max_history b;
     _stats := _stats b |}.

Definition set_stats (s : Stats) (b : EventBus) : EventBus :=
  {| _subscriptions := _subscriptions b;
     _global_subscriptions := _global_subscriptions b;
     _event_queue := _event_queue b;
     _running := _running b;
     _dispatch_task := _dispatch_task b;
     _event_history := _event_history b;
     _max_history := _max_history b;
     _stats := s |}.

Definition incr_published (b : EventBus) : EventBus :=
  set_stats {| published := published (_stats b) + 1;
               dispatched := dispatched (_stats b);
               errors := errors (_stats b) |} b.

Definition incr_dispatched (b : EventBus) : EventBus :=
  set_stats {| published := published (_stats b);
               dispatched := dispatched (_stats b) + 1;
               errors := errors (_stats b) |} b.

Definition incr_errors (b : EventBus) : EventBus :=
  set_stats {| published := published (_stats b);
               dispatched := dispatched (_stats b);
               errors := errors (_stats b) + 1 |} b.

(** ** Subscription management *)

(** [subscribe]; [fresh_id] stands for [uuid.uuid4().hex[:8]].  Returns the
    subscriber id. *)
Definition subscribe (fresh_id : string) (topic : string) (h : EventHandler)
    (sid : string) (prio : EventPriority) (b : EventBus) : EventBus * string :=
  let sid := if String.eqb sid "" then fresh_id else sid in
  let sub := {| handler := h; subscriber_id := sid;
                topic_pattern := topic; sub_priority := prio |} in
  if String.eqb topic "*" then
    (set_global_subscriptions (_global_subscriptions b ++ [sub]) b, sid)
  else
    let d := if dict_mem topic (_subscriptions b) then _subscriptions b
             else dict_set topic [] (_subscriptions b) in
    (set_subscriptions (dict_set topic (dict_get_default topic [] d ++ [sub]) d) b, sid).

Definition keep (sid : string) (s : _Subscription) : bool :=
  negb (String.eqb (subscriber_id s) sid).

(** The loop of [unsubscribe] over [list(self._subscriptions.keys())]. *)
Fixpoint unsubscribe_topics (sid : string) (keys : list string)
    (d : dict (list _Subscription)) (removed : Z) : dict (list _Subscription) * Z :=
  match keys with
  | [] => (d, removed)
  | k :: keys' =>
      let before := dict_get_default k [] d in
      let after := List.filter (keep sid) before in
      let removed := removed + (Z.of_nat (length before) - Z.of_nat (length after)) in
      let d := dict_set k after d in
      let d := match after with [] => dict_del k d | _ => d end in
      unsubscribe_topics sid keys' d removed
  end.

Definition unsubscribe (sid : string) (b : EventBus) : EventBus * Z :=
  let '(d, removed) :=
    unsubscribe_topics sid (dict_keys (_subscriptions b)) (_subscriptions b) 0 in
  let before := _global_subscriptions b in
  let after := List.filter (keep sid) before in
  (set_global_subscriptions after (set_subscriptions d b),
   removed + (Z.of_nat (length before) - Z.of_nat (length after))).

(** ** Publishing *)

(** [publish_nowait]: the put raises before the counter is touched. *)
Definition publish_nowait (e : Event) (b : EventBus) : EventBus * Res unit :=
  match put_nowait e (_event_queue b) with
  | (q, Raise exn) => (set_event_queue q b, Raise exn)
  | (q, Ok _) => (incr_published (set_event_queue q b), Ok tt)
  end.

(** ** Introspection *)

(** [recent_events(limit)] is [self._event_history[-limit:]]. *)
Definition recent_events (limit : Z) (b : EventBus) : list Event :=
  slice_from (- limit) (_event_history b).

(** ** Dispatch *)

(** The bus together with the world its handlers act on. *)
Record State : Type := mkState {
  bus : EventBus;
  world : W
}.

(** Coroutines of the bus. *)
Definition M (A : Type) : Type := Py.M State A.

Definition modify_bus (f : EventBus -> EventBus) : M unit :=
  modify (fun s => {| bus := f (bus s); world := world s |}).

(** [await handler(event)] *)
Definition call (h : EventHandler) (e : Event) : M unit :=
  fun s => let '(w, r) := h e (world s) in ({| bus := bus s; world := w |}, r).

(** [_safe_call]: the handler runs inside [try ... except Exception], and
    the except branch counts the error. *)
Definition _safe_call (h : EventHandler) (e : Event) (sid : string) : M unit :=
  try_except (call h e) (fun _ => modify_bus incr_errors).

(** [await asyncio.gather] over the safe calls: every awaitable is started
    and runs to its end whatever the others do; the first exception, if
    any, is the one the awaiting coroutine sees. *)
Fixpoint gather (tasks : list (M unit)) : M unit :=
  fun s => match tasks with
           | [] => (s, Ok tt)
           | t :: rest =>
               let '(s1, r1) := t s in
               let '(s2, r2) := gather rest s1 in
               (s2, match r1 with Raise e => Raise e | Ok _ => r2 end)
           end.

(** The candidate pattern of the wildcard loop at index [i]:
    [".".join(topic_parts[: i + 1]) + ".*" if i < len(topic_parts) - 1 else ""]. *)
Definition wildcard_at (topic_parts : list string) (i : nat) : string :=
  if Z.of_nat i <? Z.of_nat (length topic_parts) - 1
  then join "." (take (i + 1) topic_parts) +:+ ".*"
  else "".

(** The list the parent-wildcard loop tests membership in:
    [[".".join(topic_parts[: i + 1]) + ".*" for i in range(len(topic_parts))]]. *)
Definition enumerated (topic_parts : list string) : list string :=
  map (fun i => join "." (take (i + 1) topic_parts) +:+ ".*")
      (range (length topic_parts)).

(** [x in l] on a list of strings. *)
Definition str_in (x : string) (l : list string) : bool := existsb (String.eqb x) l.

(** Exact topic match. *)
Definition exact_matches (b : EventBus) (t : string) : list _Subscription :=
  if dict_mem t (_subscriptions b) then dict_get_default t [] (_subscriptions b) else [].

(** Wildcard match, one candidate per proper prefix of the topic. *)
Definition wildcard_matches (b : EventBus) (t : string) : list _Subscription :=
  let topic_parts := split "." t in
  flat_map (fun i =>
              let wildcard := wildcard_at topic_parts i in
              if negb (String.eqb wildcard "") && dict_mem wildcard (_subscriptions b)
              then dict_get_default wildcard [] (_subscriptions b)
              else [])
           (range (length topic_parts)).

(** Parent wildcard: the loop over [self._subscriptions.items()]. *)
Definition parent_matches (b : EventBus) (t : string) : list _Subscription :=
  let topic_parts := split "." t in
  flat_map (fun '(pattern, subs) =>
              if endswith pattern ".*" then
                let prefix := str_slice_to (-2) pattern in
                if startswith t (prefix +:+ ".")
                   && negb (str_in pattern (enumerated topic_parts))
                then subs else []
              else [])
           (_subscriptions b).

(** [handlers] before the sort. *)
Definition collect_handlers (b : EventBus) (t : string) : list _Subscription :=
  exact_matches b t ++ wildcard_matches b t ++ parent_matches b t
  ++ _global_subscriptions b.

(** [handlers.sort(key=lambda s: s.priority.value, reverse=True)]: the sort
    is stable, also when reversed. *)
Fixpoint insert_desc (s : _Subscription) (l : list _Subscription) : list _Subscription :=
  match l with
  | [] => [s]
  | x :: l' =>
      if value (sub_priority x) <=? value (sub_priority s)
      then s :: x :: l'
      else x :: insert_desc s l'
  end.

Definition sort_desc (l : list _Subscription) : list _Subscription :=
  foldr insert_desc [] l.

(** The handlers an event on topic [t] is dispatched to, in call order. *)
Definition matching_handlers (b : EventBus) (t : string) : list _Subscription :=
  sort_desc (collect_handlers b t).

(** The history update that opens [_dispatch_event]. *)
Definition record_history (e : Event) (b : EventBus) : EventBus :=
  let h := _event_history b ++ [e] in
  if _max_history b <? Z.of_nat (length h)
  then set_event_history (slice_from (- _max_history b) h) b
  else set_event_history h b.

Definition _dispatch_event (e : Event) : M unit :=
  modify_bus (record_history e) ;;;
  handlers <- gets (fun s => matching_handlers (bus s) (topic e)) ;;
  match handlers with
  | [] => ret tt
  | _ => gather (map (fun sub => _safe_call (handler sub) e (subscriber_id sub))
                     handlers)
  end ;;;
  modify_bus incr_dispatched.

(** ** Lifecycle *)

(** [start]: [asyncio.create_task] makes the loop task and does not
    suspend; the task takes its first step at a later turn. *)
Definition start : M unit :=
  running <- gets (fun s => _running (bus s)) ;;
  if running : bool then ret tt
  else modify_bus (set_running true) ;;; modify_bus (set_dispatch_task (Some Created)).

(** ** The loop task and the caller of [stop], turn by turn

    Once the bus is started, the loop task and whoever calls the bus take
    turns, each running from one suspension to the next.  Which of them
    resumes next is for the event loop to say: a run is told by the list
    of its turns. *)
Inductive Turn : Type :=
| TurnLoop          (* the loop task starts or resumes *)
| TurnGet           (* the task of the get starts or resumes *)
| Timeout           (* the 0.1 s of [wait_for] have passed *)
| TurnLoopHandler   (* the next handler task of the loop task's gather runs *)
| TurnHandler       (* the next handler task of the caller's gather runs *)
| Resume.           (* the caller resumes *)

Definition set_task (t : LoopTask) (s : State) : State :=
  {| bus := set_dispatch_task (Some t) (bus s); world := world s |}.

(** The head of [_dispatch_loop], [while self._running]: the task goes
    into [wait_for], which makes a task of the get, or it ends. *)
Definition loop_head (s : State) : State :=
  set_task (if _running (bus s) then Waiting GetCreated else Ended) s.

(** A turn of the task that runs [_dispatch_loop], or of a task made for
    it; [None] if the turn is not one it can take.
    - The get takes the first event of the queue, or waits for one.
    - When the time is out before the get has returned, [wait_for]
      cancels the get and raises TimeoutError, and the loop continues.
    - When the get has returned, [wait_for] returns the event and
      [_dispatch_event] runs up to its gather, or to its end if no
      handler matches.
    - The handler tasks of the gather run one after the other, each
      inside [_safe_call]; when none is left the dispatch is counted and
      the loop continues.
    No exception reaches [except Exception]: [_safe_call] has caught
    those of the handlers. *)
Definition _dispatch_loop (turn : Turn) (s : State) : option State :=
  match turn, _dispatch_task (bus s) with
  | TurnLoop, Some Created => Some (loop_head s)
  | TurnGet, Some (Waiting GetCreated) =>
      match get_nowait (_event_queue (bus s)) with
      | (q, Some e) =>
          Some (set_task (Waiting (Got e)) (fst (modify_bus (set_event_queue q) s)))
      | (_, None) => Some (set_task (Waiting Getting) s)
      end
  | TurnGet, Some (Waiting Getting) =>
      match get_nowait (_event_queue (bus s)) with
      | (q, Some e) =>
          Some (set_task (Waiting (Got e)) (fst (modify_bus (set_event_queue q) s)))
      | (_, None) => None
      end
  | Timeout, Some (Waiting GetCreated) | Timeout, Some (Waiting Getting) =>
      Some (loop_head s)
  | TurnLoop, Some (Waiting (Got e)) =>
      let s1 := fst (modify_bus (record_history e) s) in
      match matching_handlers (bus s1) (topic e) with
      | [] => Some (loop_head (fst (modify_bus incr_dispatched s1)))
      | handlers => Some (set_task (Gathering e handlers) s1)
      end
  | TurnLoopHandler, Some (Gathering e (sub :: pending)) =>
      Some (set_task (Gathering e pending)
              (fst (_safe_call (handler sub) e (subscriber_id sub) s)))
  | TurnLoop, Some (Gathering e []) =>
      Some (loop_head (fst (modify_bus incr_dispatched s)))
  | _, _ => None
  end.

(** [self._dispatch_task.cancel()], together with the step at which the
    task takes the cancellation: [stop] waits for the task from then on,
    and no other task has a turn to take in between.  A task that has
    not started never runs.  In [wait_for], the get is cancelled and
    CancelledError ends the loop, unless the get has returned: then
    [wait_for] returns the event in spite of the cancellation, and the
    task goes on.  In [_dispatch_event], the handler tasks that have not
    run are cancelled, CancelledError leaves the dispatch before it is
    counted, and the loop ends. *)
Definition cancel (t : LoopTask) : LoopTask :=
  match t with
  | Waiting (Got e) => Waiting (Got e)
  | _ => Ended
  end.

(** A coroutine of the caller: it has returned or raised; or it is
    suspended in [await asyncio.gather], the handlers [pending] having
    still to run, or in [await self._dispatch_task], and goes on with [k]
    from the state it finds when it resumes; or its loop was cut short. *)
Inductive Co (A : Type) : Type :=
| Done (s : State) (r : Res A)
| Gather (s : State) (e : Event) (pending : list _Subscription) (k : State -> Co A)
| Join (s : State) (k : State -> Co A)
| Unfinished.
Arguments Done {A} s r.
Arguments Gather {A} s e pending k.
Arguments Join {A} s k.
Arguments Unfinished {A}.

(** [await self._dispatch_event(event)] by a caller that goes on with
    [k]: the code of [_dispatch_event], its suspension in the gather made
    explicit.  Without handlers nothing is awaited. *)
Definition await_dispatch_event {A} (e : Event) (k : State -> Co A) (s : State) : Co A :=
  let s1 := fst (modify_bus (record_history e) s) in
  match matching_handlers (bus s1) (topic e) with
  | [] => k (fst (modify_bus incr_dispatched s1))
  | handlers => Gather s1 e handlers (fun s2 => k (fst (modify_bus incr_dispatched s2)))
  end.

(** The drain loop of [stop]:
    [while not self._event_queue.empty(): event = get_nowait(); await
    self._dispatch_event(event)].  [fuel] bounds the number of times the
    loop condition is evaluated. *)
Fixpoint drain {A} (fuel : nat) (k : State -> Co A) (s : State) : Co A :=
  match fuel with
  | O => Unfinished
  | S fuel' =>
      if empty (_event_queue (bus s)) then k s
      else match get_nowait (_event_queue (bus s)) with
           | (q', Some e) =>
               await_dispatch_event e (drain fuel' k)
                 (fst (modify_bus (set_event_queue q') s))
           | (_, None) => Done s (Raise QueueEmpty)
           end
  end.

(** [await self._dispatch_task]: a task that has ended is not waited
    for.  The CancelledError of a task cancelled before its first step is
    passed over by [stop]. *)
Definition await_task {A} (k : State -> Co A) (s : State) : Co A :=
  match _dispatch_task (bus s) with
  | Some Ended | None => k s
  | Some _ => Join s k
  end.

(** [stop] *)
Definition stop (fuel : nat) (s : State) : Co unit :=
  if negb (_running (bus s)) then Done s (Ok tt)
  else
    drain fuel
      (fun s1 =>
         match _dispatch_task (bus s1) with
         | None => Done s1 (Ok tt)
         | Some t =>
             await_task
               (fun s2 => Done (fst (modify_bus (set_dispatch_task None) s2)) (Ok tt))
               (set_task (cancel t) s1)
         end)
      (fst (modify_bus (set_running false) s)).

(** One turn while the caller is suspended in [c]: the caller resumes
    when its gather has no handler left to run, or when the task it
    waits for has ended; a handler of its gather runs inside
    [_safe_call]; any other turn is the loop task's. *)
Definition turn_of {A} (turn : Turn) (c : Co A) : option (Co A) :=
  match c with
  | Done _ _ | Unfinished => None
  | Gather s e pending k =>
      match turn, pending with
      | Resume, [] => Some (k s)
      | Resume, _ :: _ => None
      | TurnHandler, sub :: pending' =>
          Some (Gather (fst (_safe_call (handler sub) e (subscriber_id sub) s))
                  e pending' k)
      | TurnHandler, [] => None
      | _, _ => match _dispatch_loop turn s with
                | Some s' => Some (Gather s' e pending k)
                | None => None
                end
      end
  | Join s k =>
      match turn with
      | Resume => match _dispatch_task (bus s) with
                  | Some Ended => Some (k s)
                  | _ => None
                  end
      | TurnHandler => None
      | _ => match _dispatch_loop turn s with
             | Some s' => Some (Join s' k)
             | None => None
             end
      end
  end.

(** The run of a coroutine of the caller under a list of turns: the
    state and the outcome with which it returns, if it does so within
    these turns and each of them can be taken. *)
Fixpoint run {A} (turns : list Turn) (c : Co A) : option (State * Res A) :=
  match c with
  | Done s r => Some (s, r)
  | _ => match turns with
         | [] => None
         | turn :: turns' =>
             match turn_of turn c with
             | Some c' => run turns' c'
             | None => None
             end
         end
  end.

(** The coroutine as it stands after these turns. *)
Fixpoint after {A} (turns : list Turn) (c : Co A) : option (Co A) :=
  match turns with
  | [] => Some c
  | turn :: turns' =>
      match turn_of turn c with
      | Some c' => after turns' c'
      | None => None
      end
  end.

(** The state after these turns of the loop task, no caller being
    suspended in the bus. *)
Fixpoint loop_run (turns : list Turn) (s : State) : option State :=
  match turns with
  | [] => Some s
  | turn :: turns' =>
      match _dispatch_loop turn s with
      | Some s' => loop_run turns' s'
      | None => None
      end
  end.

(** The bus is not running, and its loop task has not had a turn, or
    has ended, or there is none: no turn but the first is left to it, and
    that one ends it. *)
Definition idle (s : State) : Prop :=
  _running (bus s) = false
  /\ (_dispatch_task (bus s) = None \/ _dispatch_task (bus s) = Some Created
      \/ _dispatch_task (bus s) = Some Ended).

(** The turns of a drain that is left alone: the handlers of each event,
    then the caller. *)
Definition turns_alone (b : EventBus) (q : list Event) : list Turn :=
  flat_map (fun e => match matching_handlers b (topic e) with
                     | [] => []
                     | handlers => repeat TurnHandler (length handlers) ++ [Resume]
                     end) q.

(** The states in which the bus is not running and has the tables of
    [b]. *)
Definition halted (b : EventBus) (s : State) : Prop :=
  _subscriptions (bus s) = _subscriptions b
  /\ _global_subscriptions (bus s) = _global_subscriptions b
  /\ _running (bus s) = false.

(** The coroutine [c] is suspended in states of [P] only, goes on from
    every state of [P] as a coroutine of which the same is true, and
    returns in [Q] if it returns. *)
Fixpoint holds {A} (P : State -> Prop) (Q : State -> Res A -> Prop) (c : Co A) : Prop :=
  match c with
  | Done s r => Q s r
  | Gather s _ _ k | Join s k => P s /\ forall s', P s' -> holds P Q (k s')
  | Unfinished => True
  end.

(** ** What dispatch amounts to *)

(** The handlers [subs] called on [e] one after the other, each on the
    world the previous one left, whether it returned or raised. *)
Definition run_all (e : Event) (subs : list _Subscription) (w : W) : W :=
  fold_left (fun w sub => fst (handler sub e w)) subs w.

(** How many of these calls raise. *)
Fixpoint faults (e : Event) (subs : list _Subscription) (w : W) : Z :=
  match subs with
  | [] => 0
  | sub :: rest =>
      (match snd (handler sub e w) with Raise _ => 1 | Ok _ => 0 end)
      + faults e rest (fst (handler sub e w))
  end.

(** The events [q] dispatched in turn to the handlers that match them on
    the bus [b]. *)
Definition deliver_all (b : EventBus) (q : list Event) (w : W) : W :=
  fold_left (fun w e => run_all e (matching_handlers b (topic e)) w) q w.

Definition add_errors (n : Z) (b : EventBus) : EventBus :=
  set_stats {| published := published (_stats b);
               dispatched := dispatched (_stats b);
               errors := errors (_stats b) + n |} b.

(** The dispatch of [e] on the bus [b] calls the handler of [sub] with
    [e]: the subscription stands in the list of handlers the dispatch
    goes through, and the world the dispatch leaves is the one its
    handler has made of what the handlers before it left, passed on to
    those after it. *)
Definition delivers (b : EventBus) (e : Event) (sub : _Subscription) : Prop :=
  exists before after,
    matching_handlers b (topic e) = before ++ sub :: after
    /\ forall s, bus s = b ->
         exists s',
           _dispatch_event e s = (s', Ok tt)
           /\ world s'
              = run_all e after (fst (handler sub e (run_all e before (world s)))).

(** The dispatch of [e] on the bus [b] does not call the handler of
    [sub]: the subscription is not in the list, and the world the
    dispatch leaves is the work of the handlers of the list. *)
Definition passes_over (b : EventBus) (e : Event) (sub : _Subscription) : Prop :=
  ~ In sub (matching_handlers b (topic e))
  /\ forall s, bus s = b ->
       exists s',
         _dispatch_event e s = (s', Ok tt)
         /\ world s' = run_all e (matching_handlers b (topic e)) (world s).

(** ** Well-formed subscription tables *)

(** A subscription is registered on the bus. *)
Definition registered (b : EventBus) (sub : _Subscription) : Prop :=
  (exists subs, In (topic_pattern sub, subs) (_subscriptions b) /\ In sub subs)
  \/ In sub (_global_subscriptions b).

(** [_subscriptions] as the code keeps it: the keys are distinct and none
    is "*", and a subscription is filed under its own pattern. *)
Definition table_ok (d : dict (list _Subscription)) : Prop :=
  NoDup (dict_keys d)
  /\ (forall k subs, In (k, subs) d -> k <> "*")
  /\ (forall k subs sub, In (k, subs) d -> In sub subs -> topic_pattern sub = k).

(** The two tables as the code keeps them: the global subscriptions are
    those on the pattern "*". *)
Definition well_formed (b : EventBus) : Prop :=
  table_ok (_subscriptions b)
  /\ (forall sub, In sub (_global_subscriptions b) -> topic_pattern sub = "*").

(** The buses the operations above build from a new one. *)
Inductive reachable : EventBus -> Prop :=
| reach_init (max_queue_size : Z) : reachable (init max_queue_size)
| reach_subscribe (b : EventBus) (fresh_id topic : string) (h : EventHandler)
    (sid : string) (prio : EventPriority) :
    reachable b -> reachable (fst (subscribe fresh_id topic h sid prio b))
| reach_unsubscribe (b : EventBus) (sid : string) :
    reachable b -> reachable (fst (unsubscribe sid b))
| reach_publish_nowait (b : EventBus) (e : Event) :
    reachable b -> reachable (fst (publish_nowait e b))
| reach_start (b : EventBus) (w : W) :
    reachable b -> reachable (bus (fst (start {| bus := b; world := w |})))
| reach_dispatch (b : EventBus) (w : W) (e : Event) :
    reachable b -> reachable (bus (fst (_dispatch_event e {| bus := b; world := w |})))
| reach_turn (b : EventBus) (w : W) (turn : Turn) (s' : State) :
    reachable b -> _dispatch_loop turn {| bus := b; world := w |} = Some s' ->
    reachable (bus s')
| reach_stop (b : EventBus) (w : W) (turns : list Turn) (fuel : nat)
    (s' : State) (r : Res unit) :
    reachable b -> run turns (stop fuel {| bus := b; world := w |}) = Some (s', r) ->
    reachable (bus s').

(** A pattern that is neither global nor a wildcard. *)
Definition exact_pattern (p : string) : Prop :=
  p <> "*" /\ endswith p ".*" = false.

(** ** Counting subscriptions *)

(** The property [subscription_count]:
    [sum(len(subs) for subs in self._subscriptions.values())
     + len(self._global_subscriptions)]. *)
Definition subscription_count (b : EventBus) : Z :=
  fold_right Z.add 0 (map (fun subs => Z.of_nat (length subs)) (dict_values (_subscriptions b)))
  + Z.of_nat (length (_global_subscriptions b)).

(** The subscriptions of [l] that the subscriber [sid] owns. *)
Definition owned (sid : string) (l : list _Subscription) : Z :=
  Z.of_nat (length l) - Z.of_nat (length (List.filter (keep sid) l)).

(** How many subscriptions of the bus the subscriber [sid] owns. *)
Definition owned_by (sid : string) (b : EventBus) : Z :=
  fold_right Z.add 0 (map (owned sid) (dict_values (_subscriptions b)))
  + owned sid (_global_subscriptions b).

(** A table without the subscriptions of [sid], and without the topics
    that are left with none. *)
Definition purge (sid : string) (d : dict (list _Subscription)) : dict (list _Subscription) :=
  List.filter (fun kv => match snd kv with [] => false | _ => true end)
    (map (fun kv => (fst kv, List.filter (keep sid) (snd kv))) d).

(** A list of subscriptions in call order: priorities never increase. *)
Definition by_priority (l : list _Subscription) : Prop :=
  StronglySorted (fun x y => value (sub_priority y) <= value (sub_priority x)) l.

(** The subscription has the priority [prio]. *)
Definition has_priority (prio : EventPriority) (sub : _Subscription) : bool :=
  value (sub_priority sub) =? value prio.

End Bus.

Arguments State W : clear implicits.
Arguments M W A : clear implicits.
Arguments Co W A : clear implicits.
Arguments Done {W A} s r.
Arguments Gather {W A} s e pending k.
Arguments Join {W A} s k.
Arguments Unfinished {W A}.
Arguments LoopTask W : clear implicits.
Arguments mkState {W} bus world.
Arguments EventHandler W : clear implicits.
Arguments _Subscription W : clear implicits.
Arguments EventBus W : clear implicits.

End EventBus.

(** * The provider registry ([swarmx/core/provider.py]) *)

Module Provider.
Import Py.

Section Registry.

(** Provider objects, provider classes and the configs a class is
    instantiated with. *)
Context {Instance Class ProviderConfig : Type}.

(** [provider_class(config)]: the constructor of a class returns the new
    provider or raises. *)
Context (construct : Class -> ProviderConfig -> Res Instance).

(** How a list of names is shown in a message, and [list(set(names))]:
    the names without repetition, in the order the set yields them. *)
Context (repr : list string -> string) (list_set : list string -> list string).

Record ProviderRegistry : Type := mkRegistry {
  _providers : dict Instance;
  _factory : dict Class
}.

(** [ProviderRegistry.__init__] *)
Definition init : ProviderRegistry := {| _providers := []; _factory := [] |}.

Definition register_class (name : string) (provider_class : Class)
    : M ProviderRegistry unit :=
  modify (fun r => {| _providers := _providers r;
                      _factory := dict_set name provider_class (_factory r) |}).

Definition register_instance (name : string) (provider : Instance)
    : M ProviderRegistry unit :=
  modify (fun r => {| _providers := dict_set name provider (_providers r);
                      _factory := _factory r |}).

(** The property [available]. *)
Definition available (r : ProviderRegistry) : list string :=
  list_set (dict_keys (_providers r) ++ dict_keys (_factory r)).

Definition get (name : string) : M ProviderRegistry Instance :=
  r <- gets (fun r => r) ;;
  if dict_mem name (_providers r)
  then match dict_get name (_providers r) with
       | Some provider => ret provider
       | None => raise (KeyError name)
       end
  else raise (KeyError ("Provider not found: '" +:+ name +:+ "'. Available: "
                        +:+ repr (available r))).

Definition create (name : string) (config : ProviderConfig) : M ProviderRegistry Instance :=
  r <- gets (fun r => r) ;;
  match dict_get name (_factory r) with
  | None =>
      raise (KeyError ("Provider class not registered: '" +:+ name +:+ "'. "
                       +:+ "Available: " +:+ repr (dict_keys (_factory r))))
  | Some provider_class =>
      match construct provider_class config with
      | Raise exn => raise exn
      | Ok provider =>
          modify (fun r => {| _providers := dict_set name provider (_providers r);
                              _factory := _factory r |}) ;;;
          ret provider
      end
  end.

(** [name in registry] *)
Definition __contains__ (name : string) (r : ProviderRegistry) : bool :=
  dict_mem name (_providers r) || dict_mem name (_factory r).

End Registry.

Arguments ProviderRegistry Instance Class : clear implicits.

End Provider.

(** * The agent runtime ([swarmx/core/agent.py]) *)

Module Agent.
Import Py.
Import EventBus (Event, EventPriority, NORMAL).

Inductive AgentState : Type :=
| CREATED | INITIALIZING | IDLE | PROCESSING | ERROR | SHUTDOWN.

Definition AgentState_eqb (a b : AgentState) : bool :=
  match a, b with
  | CREATED, CREATED | INITIALIZING, INITIALIZING | IDLE, IDLE
  | PROCESSING, PROCESSING | ERROR, ERROR | SHUTDOWN, SHUTDOWN => true
  | _, _ => false
  end.

(** [swarmx.core.provider.Role] *)
Inductive Role : Type := SYSTEM | USER | ASSISTANT | TOOL.

Definition Role_eqb (a b : Role) : bool :=
  match a, b with
  | SYSTEM, SYSTEM | USER, USER | ASSISTANT, ASSISTANT | TOOL, TOOL => true
  | _, _ => false
  end.

(** [swarmx.core.provider.Message] *)
Record Message : Type := mkMessage {
  role : Role;
  content : Value;
  name : option string;
  tool_calls : option (list (dict Value));
  tool_call_id : option string;
  metadata : dict Value
}.

(** [Message(role=r, content=c)] *)
Definition Message_ (r : Role) (c : Value) : Message :=
  {| role := r; content := c; name := None; tool_calls := None;
     tool_call_id := None; metadata := [] |}.

(** [swarmx.core.provider.CompletionResponse] ([raw_response], opaque,
    is left out). *)
Record CompletionResponse : Type := mkResponse {
  message : Message;
  finish_reason : string;
  usage : dict Value;
  model : string
}.

Record AgentConfig : Type := mkConfig {
  cfg_name : string;
  cfg_provider : string;
  cfg_model : string;
  system_prompt : string;
  subscriptions : list string;
  tools : list (dict Value);
  max_history : Z;
  temperature : option Q;
  cfg_metadata : dict Value
}.

Section Runtime.

(** The state of the completion backends (call counters, connections),
    and the provider classes the registry holds. *)
Context {P : Type} {Class : Type}.

(** [ProviderBase.complete(messages, tools, **kwargs)] *)
Definition ProviderBase : Type :=
  list Message -> option (list (dict Value)) -> dict Value -> P -> P * Res CompletionResponse.

(** The attributes of an [Agent] object. *)
Record Agent : Type := mkAgent {
  config : AgentConfig;
  agent_id : string;
  state : AgentState;
  _message_history : list Message;
  _provider : option ProviderBase
}.

(** An agent and what it reaches: the provider registry, the state of the
    backends, and the bus, of which the agent only uses [subscribe],
    [unsubscribe] and [publish]; the calls are recorded in order.  [ticks]
    counts the events created, to draw their ids and timestamps. *)
Record World : Type := mkWorld {
  self : Agent;
  provider_registry : Provider.ProviderRegistry ProviderBase Class;
  backend : P;
  bus_subscribed : list (string * string);
  bus_unsubscribed : list string;
  bus_published : list Event;
  ticks : nat
}.

(** [uuid.uuid4().hex[:12]] and [time.time()] at the n-th event created. *)
Context (uuid4_hex12 : nat -> string) (time_time : nat -> Q).

(** How a list of names is shown in a message, and [list(set(names))], as
    the registry uses them. *)
Context (repr : list string -> string) (list_set : list string -> list string).

Definition M (A : Type) : Type := Py.M World A.

Definition set_self (a : Agent) (w : World) : World :=
  {| self := a;
     provider_registry := provider_registry w;
     backend := backend w;
     bus_subscribed := bus_subscribed w;
     bus_unsubscribed := bus_unsubscribed w;
     bus_published := bus_published w;
     ticks := ticks w |}.

Definition set_state (st : AgentState) (w : World) : World :=
  set_self {| config := config (self w);
              agent_id := agent_id (self w);
              state := st;
              _message_history := _message_history (self w);
              _provider := _provider (self w) |} w.

Definition set_history (h : list Message) (w : World) : World :=
  set_self {| config := config (self w);
              agent_id := agent_id (self w);
              state := state (self w);
              _message_history := h;
              _provider := _provider (self w) |} w.

Definition set_provider (p : option ProviderBase) (w : World) : World :=
  set_self {| config := config (self w);
              agent_id := agent_id (self w);
              state := state (self w);
              _message_history := _message_history (self w);
              _provider := p |} w.

(** [Agent.__init__]; [suffix] stands for [uuid.uuid4().hex[:6]]. *)
Definition new (cfg : AgentConfig) (suffix : string) : Agent :=
  {| config := cfg;
     agent_id := cfg_name cfg +:+ "-" +:+ suffix;
     state := CREATED;
     _message_history := [];
     _provider := None |}.

(** [self.provider_registry.get(name)] *)
Definition registry_get (name : string) : M ProviderBase :=
  fun w => let '(registry, r) := Provider.get repr list_set name (provider_registry w) in
           ({| self := self w;
               provider_registry := registry;
               backend := backend w;
               bus_subscribed := bus_subscribed w;
               bus_unsubscribed := bus_unsubscribed w;
               bus_published := bus_published w;
               ticks := ticks w |}, r).

(** [self.event_bus.subscribe(topic=topic, handler=self._handle_event,
    subscriber_id=self.agent_id)] *)
Definition bus_subscribe (topic : string) : M unit :=
  modify (fun w =>
    {| self := self w;
       provider_registry := provider_registry w;
       backend := backend w;
       bus_subscribed := bus_subscribed w ++ [(topic, agent_id (self w))];
       bus_unsubscribed := bus_unsubscribed w;
       bus_published := bus_published w;
       ticks := ticks w |}).

(** [self.event_bus.unsubscribe(self.agent_id)] *)
Definition bus_unsubscribe : M unit :=
  modify (fun w =>
    {| self := self w;
       provider_registry := provider_registry w;
       backend := backend w;
       bus_subscribed := bus_subscribed w;
       bus_unsubscribed := bus_unsubscribed w ++ [agent_id (self w)];
       bus_published := bus_published w;
       ticks := ticks w |}).

(** [await self.event_bus.publish(event)], the queue having room. *)
Definition bus_publish (e : Event) : M unit :=
  modify (fun w =>
    {| self := self w;
       provider_registry := provider_registry w;
       backend := backend w;
       bus_subscribed := bus_subscribed w;
       bus_unsubscribed := bus_unsubscribed w;
       bus_published := bus_published w ++ [e];
       ticks := S (ticks w) |}).

Fixpoint for_each {A} (l : list A) (body : A -> M unit) : M unit :=
  match l with
  | [] => ret tt
  | x :: l' => body x ;;; for_each l' body
  end.

(** ** Lifecycle *)

Definition initialize : M unit :=
  modify (set_state INITIALIZING) ;;;
  cfg <- gets (fun w => config (self w)) ;;
  p <- registry_get (cfg_provider cfg) ;;
  modify (set_provider (Some p)) ;;;
  (if negb (String.eqb (system_prompt cfg) "")
   then modify (fun w => set_history (_message_history (self w)
                                       ++ [Message_ SYSTEM (VStr (system_prompt cfg))]) w)
   else ret tt) ;;;
  for_each (subscriptions cfg) bus_subscribe ;;;
  modify (set_state IDLE).

Definition shutdown : M unit :=
  modify (set_state SHUTDOWN) ;;;
  bus_unsubscribe.

(** ** Event emission *)

Definition emit (topic : string) (payload : dict Value) (priority : EventPriority) : M unit :=
  w <- gets (fun w => w) ;;
  bus_publish {| EventBus.topic := topic;
                 EventBus.payload := payload;
                 EventBus.source := agent_id (self w);
                 EventBus.event_id := uuid4_hex12 (ticks w);
                 EventBus.timestamp := time_time (ticks w);
                 EventBus.priority := priority;
                 EventBus.metadata := [] |}.

(** ** Core intelligence *)

(** The trimming block of [think]:
    [system_msgs = [m for m in history if m.role == Role.SYSTEM]],
    [recent = history[-(max_history - len(system_msgs)):]],
    [history = system_msgs + recent]. *)
Definition trim (max_history : Z) (history : list Message) : list Message :=
  let system_msgs := List.filter (fun m => Role_eqb (role m) SYSTEM) history in
  let recent := slice_from (- (max_history - Z.of_nat (length system_msgs))) history in
  system_msgs ++ recent.

(** The history bookkeeping of [think] before the provider is called. *)
Definition remember (max_history : Z) (user_input : Value) (history : list Message)
    : list Message :=
  let history := history ++ [Message_ USER user_input] in
  if max_history <? Z.of_nat (length history) then trim max_history history
  else history.

(** The keyword arguments [think] passes to the provider. *)
Definition think_kwargs (cfg : AgentConfig) : dict Value :=
  (if negb (String.eqb (cfg_model cfg) "") then [("model", VStr (cfg_model cfg))] else [])
  ++ (match temperature cfg with
      | Some t => [("temperature", VFloat t)]
      | None => []
      end).

(** [await self._provider.complete(...)] *)
Definition complete (p : ProviderBase) (messages : list Message)
    (tls : option (list (dict Value))) (kwargs : dict Value) : M CompletionResponse :=
  fun w => let '(b, r) := p messages tls kwargs (backend w) in
           ({| self := self w;
               provider_registry := provider_registry w;
               backend := b;
               bus_subscribed := bus_subscribed w;
               bus_unsubscribed := bus_unsubscribed w;
               bus_published := bus_published w;
               ticks := ticks w |}, r).

Definition think (user_input : Value) : M (option CompletionResponse) :=
  p <- gets (fun w => _provider (self w)) ;;
  match p with
  | None => ret None
  | Some p =>
      cfg <- gets (fun w => config (self w)) ;;
      modify (fun w => set_history
                         (remember (max_history cfg) user_input (_message_history (self w))) w) ;;;
      history <- gets (fun w => _message_history (self w)) ;;
      response <- complete p history
                    (match tools cfg with [] => None | t => Some t end)
                    (think_kwargs cfg) ;;
      modify (fun w => set_history (_message_history (self w) ++ [message response]) w) ;;;
      ret (Some response)
  end.

(** ** Event handling *)

(** The default [on_event]. *)
Definition on_event (event : Event) : M unit :=
  let text := dict_get_default "content" (VStr "") (EventBus.payload event) in
  let text := if negb (truthy text)
              then dict_get_default "message" (VStr "") (EventBus.payload event)
              else text in
  if negb (truthy text) then ret tt
  else
    response <- think text ;;
    match response with
    | None => ret tt
    | Some response =>
        w <- gets (fun w => w) ;;
        emit ("agent.response." +:+ cfg_name (config (self w)))
             [("agent_id", VStr (agent_id (self w)));
              ("content", content (message response));
              ("model", VStr (model response));
              ("usage", VDict (usage response));
              ("source_event", VStr (EventBus.event_id event))]
             NORMAL
    end.

(** [_handle_event], with the [on_event] of the concrete agent class.  The
    processing lock makes the body run for one event at a time. *)
Definition _handle_event (on_event : Event -> M unit) (event : Event) : M unit :=
  modify (set_state PROCESSING) ;;;
  try_finally
    (try_except
       (on_event event)
       (fun _ =>
          modify (set_state ERROR) ;;;
          w <- gets (fun w => w) ;;
          emit "agent.error"
               [("agent_id", VStr (agent_id (self w)));
                ("event_topic", VStr (EventBus.topic event));
                ("error", VStr "Processing failed")]
               NORMAL))
    (st <- gets (fun w => state (self w)) ;;
     if AgentState_eqb st PROCESSING then modify (set_state IDLE) else ret tt).

(** The event an agent in the world [w] publishes when the handling of
    [e] has raised. *)
Definition error_event (w : World) (e : Event) : Event :=
  {| EventBus.topic := "agent.error";
     EventBus.payload := [("agent_id", VStr (agent_id (self w)));
                          ("event_topic", VStr (EventBus.topic e));
                          ("error", VStr "Processing failed")];
     EventBus.source := agent_id (self w);
     EventBus.event_id := uuid4_hex12 (ticks w);
     EventBus.timestamp := time_time (ticks w);
     EventBus.priority := NORMAL;
     EventBus.metadata := [] |}.

End Runtime.

Arguments ProviderBase P : clear implicits.
Arguments Agent P : clear implicits.
Arguments World P Class : clear implicits.
Arguments M P Class A : clear implicits.

(** The text the default [on_event] hands to [think]: the content of the
    payload, or its message when the content is missing or falsy. *)
Definition event_text (event : Event) : Value :=
  if negb (truthy (dict_get_default "content" (VStr "") (EventBus.payload event)))
  then dict_get_default "message" (VStr "") (EventBus.payload event)
  else dict_get_default "content" (VStr "") (EventBus.payload event).

(** [self.config.tools or None] *)
Definition tools_or_none (cfg : AgentConfig) : option (list (dict Value)) :=
  match tools cfg with [] => None | t => Some t end.

End Agent.

(** * The task scheduler ([swarmx/core/scheduler.py]) *)

Module Scheduler.
Import Py.
Import EventBus (Event, EventPriority, NORMAL).

Inductive TaskStatus : Type :=
| PENDING | SCHEDULED | RUNNING | COMPLETED | FAILED | CANCELLED.

Definition TaskStatus_eqb (a b : TaskStatus) : bool :=
  match a, b with
  | PENDING, PENDING | SCHEDULED, SCHEDULED | RUNNING, RUNNING
  | COMPLETED, COMPLETED | FAILED, FAILED | CANCELLED, CANCELLED => true
  | _, _ => false
  end.

Record Task : Type := mkTask {
  task_id : string;
  name : string;
  description : string;
  target_topic : string;
  payload : dict Value;
  priority : EventPriority;
  status : TaskStatus;
  depends_on : list string;
  created_at : Q;
  started_at : option Q;
  completed_at : option Q;
  result : Value;
  error : Value;
  delay_seconds : Q
}.

Definition set_status (st : TaskStatus) (t : Task) : Task :=
  {| task_id := task_id t; name := name t; description := description t;
     target_topic := target_topic t; payload := payload t; priority := priority t;
     status := st;
     depends_on := depends_on t; created_at := created_at t;
     started_at := started_at t; completed_at := completed_at t;
     result := result t; error := error t; delay_seconds := delay_seconds t |}.

Definition set_started_at (at_ : option Q) (t : Task) : Task :=
  {| task_id := task_id t; name := name t; description := description t;
     target_topic := target_topic t; payload := payload t; priority := priority t;
     status := status t;
     depends_on := depends_on t; created_at := created_at t;
     started_at := at_; completed_at := completed_at t;
     result := result t; error := error t; delay_seconds := delay_seconds t |}.

Definition set_completed_at (at_ : option Q) (t : Task) : Task :=
  {| task_id := task_id t; name := name t; description := description t;
     target_topic := target_topic t; payload := payload t; priority := priority t;
     status := status t;
     depends_on := depends_on t; created_at := created_at t;
     started_at := started_at t; completed_at := at_;
     result := result t; error := error t; delay_seconds := delay_seconds t |}.

Definition set_result (v : Value) (t : Task) : Task :=
  {| task_id := task_id t; name := name t; description := description t;
     target_topic := target_topic t; payload := payload t; priority := priority t;
     status := status t;
     depends_on := depends_on t; created_at := created_at t;
     started_at := started_at t; completed_at := completed_at t;
     result := v; error := error t; delay_seconds := delay_seconds t |}.

Definition set_error (v : Value) (t : Task) : Task :=
  {| task_id := task_id t; name := name t; description := description t;
     target_topic := target_topic t; payload := payload t; priority := priority t;
     status := status t;
     depends_on := depends_on t; created_at := created_at t;
     started_at := started_at t; completed_at := completed_at t;
     result := result t; error := v; delay_seconds := delay_seconds t |}.

(** A [TaskScheduler] and what it reaches.  [Task]s are mutable objects
    shared with whoever submitted them: [heap] holds the objects by
    address and [_tasks] maps a task id to the address of the object
    registered under it.  [bus_published] records the events handed to
    [event_bus.publish], [clock] is what [time.time()] returns, [ticks]
    counts the events created. *)
Record TaskScheduler : Type := mkScheduler {
  heap : list Task;
  _tasks : dict nat;
  _running : bool;
  bus_published : list Event;
  clock : Q;
  ticks : nat
}.

Definition set_heap (h : list Task) (s : TaskScheduler) : TaskScheduler :=
  {| heap := h; _tasks := _tasks s; _running := _running s;
     bus_published := bus_published s; clock := clock s; ticks := ticks s |}.

Definition set_tasks (d : dict nat) (s : TaskScheduler) : TaskScheduler :=
  {| heap := heap s; _tasks := d; _running := _running s;
     bus_published := bus_published s; clock := clock s; ticks := ticks s |}.

Definition set_running (r : bool) (s : TaskScheduler) : TaskScheduler :=
  {| heap := heap s; _tasks := _tasks s; _running := r;
     bus_published := bus_published s; clock := clock s; ticks := ticks s |}.

Definition set_clock (c : Q) (s : TaskScheduler) : TaskScheduler :=
  {| heap := heap s; _tasks := _tasks s; _running := _running s;
     bus_published := bus_published s; clock := c; ticks := ticks s |}.

(** A mutation of the object at address [a]. *)
Definition update (a : nat) (f : Task -> Task) (s : TaskScheduler) : TaskScheduler :=
  set_heap (alter f a (heap s)) s.

(** [TaskScheduler.__init__] (the two subscriptions it makes on the bus
    route [task.completed] and [task.failed] to the handlers below). *)
Definition init : TaskScheduler :=
  {| heap := []; _tasks := []; _running := false;
     bus_published := []; clock := 0%Q; ticks := 0%nat |}.

(** [Task(...)]: a new object on the heap; returns its address. *)
Definition new_task (t : Task) (s : TaskScheduler) : TaskScheduler * nat :=
  (set_heap (heap s ++ [t]) s, length (heap s)).

(** ** Coroutines *)

(** A coroutine of the scheduler either ends, returning or raising, or is
    suspended in [asyncio.sleep(seconds)]; it resumes in the state the
    other coroutines have left. *)
Inductive Co (A : Type) : Type :=
| Done (s : TaskScheduler) (r : Res A)
| Sleep (s : TaskScheduler) (seconds : Q) (k : TaskScheduler -> Co A).
Arguments Done {A} s r.
Arguments Sleep {A} s seconds k.

Definition C (A : Type) : Type := TaskScheduler -> Co A.

Fixpoint co_then {A B} (c : Co A) (k : A -> C B) : Co B :=
  match c with
  | Done s (Ok a) => k a s
  | Done s (Raise e) => Done s (Raise e)
  | Sleep s d k' => Sleep s d (fun s' => co_then (k' s') k)
  end.

Definition cret {A} (a : A) : C A := fun s => Done s (Ok a).
Definition cbind {A B} (m : C A) (k : A -> C B) : C B := fun s => co_then (m s) k.

(** Code without a suspension point. *)
Definition atomic {A} (m : M TaskScheduler A) : C A :=
  fun s => let '(s', r) := m s in Done s' r.

(** [await asyncio.sleep(seconds)] *)
Definition sleep (seconds : Q) : C unit :=
  fun s => Sleep s seconds (fun s' => Done s' (Ok tt)).

Notation "x <~ m ;; k" := (cbind m (fun x => k))
  (at level 100, m at next level, right associativity).
Notation "m ~;; k" := (cbind m (fun _ => k))
  (at level 100, right associativity).

(** The state when [seconds] have passed and nothing else has happened. *)
Definition elapse (seconds : Q) (s : TaskScheduler) : TaskScheduler :=
  set_clock (clock s + seconds)%Q s.

(** A coroutine run with nothing else happening: each sleep only moves
    the clock. *)
Fixpoint run {A} (c : Co A) : TaskScheduler * Res A :=
  match c with
  | Done s r => (s, r)
  | Sleep s d k => run (k (elapse d s))
  end.

Section Scheduling.

(** [uuid.uuid4().hex[:12]] at the n-th event created. *)
Context (uuid4_hex12 : nat -> string).

(** [await self.event_bus.publish(event)], the queue having room. *)
Definition bus_publish (e : Event) : M TaskScheduler unit :=
  modify (fun s =>
    {| heap := heap s; _tasks := _tasks s; _running := _running s;
       bus_published := bus_published s ++ [e]; clock := clock s;
       ticks := S (ticks s) |}).

(** ** Task management *)

Definition get_task (task_id : string) (s : TaskScheduler) : option Task :=
  a ← dict_get task_id (_tasks s); heap s !! a.

Definition get_status (task_id : string) (s : TaskScheduler) : option TaskStatus :=
  status <$> get_task task_id s.

(** [cancel] has no suspension point. *)
Definition cancel (task_id : string) : M TaskScheduler bool :=
  s <- gets (fun s => s) ;;
  match dict_get task_id (_tasks s) with
  | None => ret false
  | Some a =>
      match heap s !! a with
      | None => ret false
      | Some task =>
          match status task with
          | PENDING | SCHEDULED => modify (update a (set_status CANCELLED)) ;;; ret true
          | _ => ret false
          end
      end
  end.

(** ** Scheduling logic *)

Definition _can_schedule (task : Task) (s : TaskScheduler) : bool :=
  forallb (fun dep_id =>
             match get_task dep_id s with
             | Some dep_task => TaskStatus_eqb (status dep_task) COMPLETED
             | None => false
             end)
          (depends_on task).

(** The event [_schedule_task] makes of a task. *)
Definition task_event (task : Task) (s : TaskScheduler) : Event :=
  {| EventBus.topic := target_topic task;
     EventBus.payload :=
       dict_update
         [("task_id", VStr (task_id task));
          ("name", VStr (name task));
          ("description", VStr (description task));
          ("content", dict_get_default "content" (VStr (description task)) (payload task))]
         (payload task);
     EventBus.source := "scheduler";
     EventBus.event_id := uuid4_hex12 (ticks s);
     EventBus.timestamp := clock s;
     EventBus.priority := priority task;
     EventBus.metadata := [("task_id", VStr (task_id task))] |}.

(** What [_schedule_task] does once the delay, if any, is over. *)
Definition launch (a : nat) : M TaskScheduler unit :=
  modify (fun s => update a (set_status RUNNING) s) ;;;
  modify (fun s => update a (set_started_at (Some (clock s))) s) ;;;
  s <- gets (fun s => s) ;;
  match heap s !! a with
  | Some task => bus_publish (task_event task s)
  | None => ret tt
  end.

(** [_schedule_task(task)], [task] being the object at address [a]. *)
Definition _schedule_task (a : nat) : C unit :=
  fun s =>
    match heap s !! a with
    | None => Done s (Ok tt)
    | Some task =>
        match status task with
        | CANCELLED => Done s (Ok tt)
        | _ =>
            ((if negb (Qle_bool (delay_seconds task) 0)
              then atomic (modify (update a (set_status SCHEDULED))) ~;;
                   sleep (delay_seconds task)
              else cret tt) ~;;
             atomic (launch a)) s
        end
    end.

(** ** Task submission *)

(** [submit(task)], [task] being the object at address [a]. *)
Definition submit (a : nat) : C string :=
  fun s =>
    match heap s !! a with
    | None => Done s (Ok "")
    | Some task =>
        (atomic (modify (fun s => set_tasks (dict_set (task_id task) a (_tasks s)) s)) ~;;
         can <~ atomic (gets (_can_schedule task)) ;;
         (if can : bool then _schedule_task a else cret tt) ~;;
         atomic (gets (fun s => match heap s !! a with
                                | Some task => task_id task
                                | None => ""
                                end))) s
    end.

(** [submit_many]: the list comprehension awaits each [submit] in turn. *)
Fixpoint submit_many (tasks : list nat) : C (list string) :=
  match tasks with
  | [] => cret []
  | a :: rest =>
      id <~ submit a ;;
      ids <~ submit_many rest ;;
      cret (id :: ids)
  end.

(** ** Completion handlers *)

(** [self._tasks.get(key)] for a key taken from a payload: a list or a
    dict is unhashable, anything else that is not a string is no key of
    [_tasks]. *)
Definition tasks_get (key : Value) : M TaskScheduler (option nat) :=
  match key with
  | VStr k => gets (fun s => dict_get k (_tasks s))
  | VList _ => raise (TypeError "unhashable type: 'list'")
  | VDict _ => raise (TypeError "unhashable type: 'dict'")
  | _ => ret None
  end.

(** [x in l] where [l] is a list of strings. *)
Definition value_in (x : Value) (l : list string) : bool :=
  match x with
  | VStr k => existsb (String.eqb k) l
  | _ => false
  end.

(** The loop of [_check_dependents] over [self._tasks.values()].  The
    iterator remembers the size [used] of the dict and its position
    [pos]; every step first checks that the size is still the same, as
    the loop body may have been suspended meanwhile.  [remaining] is
    [used - pos]. *)
Fixpoint check_loop (completed_task_id : Value) (used pos remaining : nat) : C unit :=
  fun s =>
    if negb (length (_tasks s) =? used)%nat
    then Done s (Raise (RuntimeError "dictionary changed size during iteration"))
    else
      match remaining with
      | O => Done s (Ok tt)
      | S remaining' =>
          match _tasks s !! pos with
          | None => Done s (Ok tt)
          | Some (_, a) =>
              ((match heap s !! a with
                | Some task =>
                    if TaskStatus_eqb (status task) PENDING
                       && value_in completed_task_id (depends_on task)
                       && _can_schedule task s
                    then _schedule_task a
                    else cret tt
                | None => cret tt
                end) ~;;
               check_loop completed_task_id used (S pos) remaining') s
          end
      end.

Definition _check_dependents (completed_task_id : Value) : C unit :=
  fun s => check_loop completed_task_id (length (_tasks s)) 0 (length (_tasks s)) s.

Definition _on_task_completed (event : Event) : C unit :=
  let task_id := dict_get_default "task_id" (VStr "") (EventBus.payload event) in
  task <~ atomic (tasks_get task_id) ;;
  match task with
  | Some a =>
      atomic (modify (update a (set_status COMPLETED)) ;;;
              modify (fun s => update a (set_completed_at (Some (clock s))) s) ;;;
              modify (update a (set_result
                                  (dict_get_default "result" VNone (EventBus.payload event))))) ~;;
      _check_dependents task_id
  | None => cret tt
  end.

Definition _on_task_failed (event : Event) : C unit :=
  let task_id := dict_get_default "task_id" (VStr "") (EventBus.payload event) in
  task <~ atomic (tasks_get task_id) ;;
  match task with
  | Some a =>
      atomic (modify (update a (set_status FAILED)) ;;;
              modify (fun s => update a (set_completed_at (Some (clock s))) s) ;;;
              modify (update a (set_error
                                  (dict_get_default "error" (VStr "Unknown error")
                                     (EventBus.payload event)))))
  | None => cret tt
  end.

(** The statuses the specification calls terminal. *)
Definition terminal (st : TaskStatus) : bool :=
  match st with
  | COMPLETED | FAILED | CANCELLED => true
  | _ => false
  end.

(** ** Lifecycle *)

Definition start : M TaskScheduler unit := modify (set_running true).
Definition stop : M TaskScheduler unit := modify (set_running false).

End Scheduling.

(** ** What a pass over the dependents amounts to *)

(** The condition of the loop of [_check_dependents] for the object at
    address [a]: it is PENDING, names [completed_task_id] among its
    dependencies, and all its dependencies are COMPLETED. *)
Definition eligible (completed_task_id : Value) (s : TaskScheduler) (a : nat) : bool :=
  match heap s !! a with
  | Some task =>
      TaskStatus_eqb (status task) PENDING
      && value_in completed_task_id (depends_on task)
      && _can_schedule task s
  | None => false
  end.

(** The identity an event of the scheduler carries: its topic and the
    task id of its metadata. *)
Definition event_key (e : Event) : string * option Value :=
  (EventBus.topic e, dict_get "task_id" (EventBus.metadata e)).

(** The same for the task at address [a]. *)
Definition task_key (s : TaskScheduler) (a : nat) : option (string * option Value) :=
  (fun task => (target_topic task, Some (VStr (task_id task)))) <$> heap s !! a.

End Scheduler.

(** * The config loader ([swarmx/utils/config.py]) *)

Module Config.
Import Py.

(** [os.environ]: the mapping object ([os._Environ]) over the environment
    of the process.  [encodekey] gives the key of [_data] that a name
    stands for, and raises on a name it cannot encode; [decodevalue] gives
    the str of a stored value. *)
Record environ : Type := mkEnviron {
  encodekey : string -> Res string;
  decodevalue : string -> string;
  _data : gmap string string
}.

(** [os._createenviron] on POSIX with UTF-8 as the encoding of the file
    system, over the variables [data] of the process. *)
Definition _createenviron (data : gmap string string) : environ :=
  {| encodekey := encode_surrogateescape;
     decodevalue := decode_surrogateescape 0;
     _data := data |}.

(** [os.environ.get(key, default)]: [Mapping.get] over
    [_Environ.__getitem__], whose KeyError, raised for a key that [_data]
    has not, gives the default; any other exception goes to the caller. *)
Definition environ_get (env : environ) (key default : string) : Res string :=
  match encodekey env key with
  | Raise (KeyError _) => Ok default
  | Raise exn => Raise exn
  | Ok k => match _data env !! k with
            | Some value => Ok (decodevalue env value)
            | None => Ok default
            end
  end.

(** A record handed to [logger.warning]. *)
Inductive LogRecord : Type :=
| Warning (msg : string).

(** [resolve_env_vars(value)]: the value it returns and the warnings it
    logs, or the exception of the lookup.  [value] is a scalar of the
    parsed YAML document. *)
Definition resolve_env_vars (env : environ) (value : Value)
    : Res (Value * list LogRecord) :=
  match value with
  | VStr v =>
      if startswith v "${" && endswith v "}" then
        let env_var := str_slice 2 (-1) v in
        match environ_get env env_var "" with
        | Raise exn => Raise exn
        | Ok resolved =>
            Ok (VStr resolved,
                if String.eqb resolved ""
                then [Warning ("Environment variable not set: " +:+ env_var)]
                else [])
        end
      else Ok (value, [])
  | _ => Ok (value, [])
  end.

(** [swarmx.core.provider.ProviderConfig], each field holding what the
    document gives. *)
Record ProviderConfig : Type := mkProviderConfig {
  api_key : Value;
  model : Value;
  base_url : Value;
  temperature : Value;
  max_tokens : Value;
  timeout : Value;
  extra : Value
}.

(** The [ProviderConfig] the provider loop of [build_engine_from_config]
    builds from one provider definition, and the warnings logged. *)
Definition provider_config (env : environ) (provider_def : dict Value)
    : Res (ProviderConfig * list LogRecord) :=
  match resolve_env_vars env (dict_get_default "api_key" (VStr "") provider_def) with
  | Raise exn => Raise exn
  | Ok (key, log) =>
      Ok ({| api_key := key;
             model := dict_get_default "model" (VStr "") provider_def;
             base_url := dict_get_default "base_url" VNone provider_def;
             temperature := dict_get_default "temperature" (VFloat (7 # 10)) provider_def;
             max_tokens := dict_get_default "max_tokens" (VInt 4096) provider_def;
             timeout := dict_get_default "timeout" (VFloat 60) provider_def;
             extra := dict_get_default "extra" (VDict []) provider_def |}, log)
  end.

End Config.

(** * The provider loop of the config loader ([swarmx/utils/config.py]) *)

Module Loader.
Import Py Provider Config.

Section Providers.

Context {Instance Class : Type}.
Context (construct : Class -> ProviderConfig -> Res Instance).
Context (repr : list string -> string).

(** One turn of the provider loop of [build_engine_from_config]: the
    [ProviderConfig] is built from the definition, and
    [engine.register_provider(provider_name, config=pc)], called with a
    config and no instance, is
    [self.provider_registry.create(provider_name, pc)].  The type of the
    definition is only logged.  Returns the warnings logged. *)
Definition load_provider (env : environ) (provider_name : string)
    (provider_def : dict Value) : M (ProviderRegistry Instance Class) (list LogRecord) :=
  let provider_type := dict_get_default "type" (VStr provider_name) provider_def in
  match provider_config env provider_def with
  | Raise exn => raise exn
  | Ok (pc, log) =>
      create construct repr provider_name pc ;;;
      ret log
  end.

End Providers.

End Loader.

(** * The engine ([swarmx/core/engine.py]) *)

Module Engine.
Import Py Scheduler.
Import EventBus (NORMAL).

Section Submission.

Context (uuid4_hex12 : nat -> string).

(** [SwarmEngine.submit_task(content, name, target_topic, **kwargs)]:
    a new [Task] is made and submitted to the scheduler.  [fresh_id]
    stands for the [uuid.uuid4().hex[:10]] the task gets as its id; the
    keyword arguments arrive as a dict. *)
Definition submit_task (fresh_id : string) (content name target_topic : string)
    (kwargs : dict Value) : C string :=
  fun s =>
    let '(s1, a) :=
      new_task {| task_id := fresh_id;
                  Scheduler.name := if String.eqb name "" then str_prefix 50 content
                                    else name;
                  description := content;
                  target_topic := target_topic;
                  payload := dict_update [("content", VStr content)] kwargs;
                  priority := NORMAL;
                  status := PENDING;
                  depends_on := [];
                  created_at := clock s;
                  started_at := None;
                  completed_at := None;
                  result := VNone;
                  error := VNone;
                  delay_seconds := 0 |} s in
    submit uuid4_hex12 a s1.

End Submission.

End Engine.

(** * Scenarios

    Concrete objects on which the properties below are exercised. *)

Module Scenarios.
Import Py.

(** An event on a topic, with the defaults of the constructor. *)
Definition event_on (t : string) (id : string) : EventBus.Event :=
  {| EventBus.topic := t; EventBus.payload := []; EventBus.source := "";
     EventBus.event_id := id; EventBus.timestamp := 0%Q;
     EventBus.priority := EventBus.NORMAL; EventBus.metadata := [] |}.

(** Handlers over a world that logs the calls: one that records the event
    it receives under its own name, one that does so and then raises. *)
Definition good_handler (who : string) : EventBus.EventHandler (list (string * string)) :=
  fun e w => (w ++ [(who, EventBus.topic e)], Ok tt).

Definition bad_handler (who : string) : EventBus.EventHandler (list (string * string)) :=
  fun e w => (w ++ [(who, EventBus.topic e)], Raise (RuntimeError "Handler error")).

(** A bus with a wildcard, an exact, a global and a faulty subscription. *)
Definition bus0 : EventBus.EventBus (list (string * string)) :=
  let b := EventBus.init 2 in
  let b := fst (EventBus.subscribe "gen" "task.*" (good_handler "wild") "wild" EventBus.NORMAL b) in
  let b := fst (EventBus.subscribe "gen" "test" (bad_handler "bad") "bad" EventBus.HIGH b) in
  let b := fst (EventBus.subscribe "gen" "test" (good_handler "good") "good" EventBus.NORMAL b) in
  fst (EventBus.subscribe "gen" "*" (good_handler "all") "all" EventBus.LOW b).

Definition wild_sub : EventBus._Subscription (list (string * string)) :=
  {| EventBus.handler := good_handler "wild"; EventBus.subscriber_id := "wild";
     EventBus.topic_pattern := "task.*"; EventBus.sub_priority := EventBus.NORMAL |}.

Definition all_sub : EventBus._Subscription (list (string * string)) :=
  {| EventBus.handler := good_handler "all"; EventBus.subscriber_id := "all";
     EventBus.topic_pattern := "*"; EventBus.sub_priority := EventBus.LOW |}.

(** The same bus, started. *)
Definition state_started : EventBus.State (list (string * string)) :=
  fst (EventBus.start {| EventBus.bus := bus0; EventBus.world := [] |}).

(** Two events published on a bus, the queue of [bus0] having room for
    two. *)
Definition publish_two (s : EventBus.State (list (string * string)))
    : EventBus.State (list (string * string)) :=
  let b := fst (EventBus.publish_nowait (event_on "test" "e1") (EventBus.bus s)) in
  let b := fst (EventBus.publish_nowait (event_on "task.sub.deep" "e2") b) in
  {| EventBus.bus := b; EventBus.world := EventBus.world s |}.

(** The started bus with two events published before the loop task has
    had a turn. *)
Definition state_queued : EventBus.State (list (string * string)) :=
  publish_two state_started.

(** The started bus as the first turn of the loop task leaves it, the
    task standing in [wait_for]; and with two events published then. *)
Definition state_waiting : EventBus.State (list (string * string)) :=
  EventBus.loop_head state_started.

Definition state_parked : EventBus.State (list (string * string)) :=
  publish_two state_waiting.

(** A bus whose history holds three events. *)
Definition bus_history : EventBus.EventBus (list (string * string)) :=
  EventBus.set_event_history
    [event_on "a" "e1"; event_on "b" "e2"; event_on "c" "e3"] bus0.

(** *** Agents *)

(** The mock provider of the tests: it counts its calls and answers
    "Mock response #n" as the assistant. *)
Definition mock_provider : Agent.ProviderBase nat :=
  fun messages tools kwargs call_count =>
    (S call_count,
     Ok {| Agent.message :=
             Agent.Message_ Agent.ASSISTANT
               (VStr ("Mock response #" +:+ pretty (S call_count)));
           Agent.finish_reason := "stop";
           Agent.usage := [("prompt_tokens", VInt 10); ("completion_tokens", VInt 5);
                           ("total_tokens", VInt 15)];
           Agent.model := "mock-model" |}).

(** A provider whose call fails, with a message that names internals. *)
Definition failing_provider : Agent.ProviderBase nat :=
  fun messages tools kwargs call_count =>
    (S call_count, Raise (Exception "401 Unauthorized for key sk-secret")).

(** *** Providers *)

(** [repr] of a list of names that hold no quote, backslash or character
    that is not printable, and an order for a set of names. *)
Definition repr (names : list string) : string :=
  "[" +:+ join ", " (map (fun name => "'" +:+ name +:+ "'") names) +:+ "]".

Definition list_set (names : list string) : list string := nodup string_dec names.

(** The provider classes: constructors that return a provider or raise. *)
Definition provider_class : Type := Config.ProviderConfig -> Res (Agent.ProviderBase nat).

(** A provider class whose constructor returns the mock provider, and
    the constructor call. *)
Definition mock_class : provider_class := fun _ => Ok mock_provider.

Definition construct (cls : provider_class) (config : Config.ProviderConfig)
    : Res (Agent.ProviderBase nat) :=
  cls config.

(** A registry as the engine sets it up: a class, no instance. *)
Definition registry0 : Provider.ProviderRegistry (Agent.ProviderBase nat) provider_class :=
  fst (Provider.register_class "openai" mock_class Provider.init).

(** The registry of the tests: two instances, no class. *)
Definition registry_mock : Provider.ProviderRegistry (Agent.ProviderBase nat) provider_class :=
  {| Provider._providers := [("mock", mock_provider); ("failing", failing_provider)];
     Provider._factory := [] |}.

Definition uuid4_hex12 (n : nat) : string := "evt-" +:+ pretty n.
Definition time_time (n : nat) : Q := inject_Z (Z.of_nat n).

Definition agent_config (provider : string) (max_history : Z) : Agent.AgentConfig :=
  {| Agent.cfg_name := "history-test";
     Agent.cfg_provider := provider;
     Agent.cfg_model := "";
     Agent.system_prompt := "System prompt";
     Agent.subscriptions := ["task.created"];
     Agent.tools := [];
     Agent.max_history := max_history;
     Agent.temperature := None;
     Agent.cfg_metadata := [] |}.

(** An agent made from a config and initialized. *)
Definition agent_world (provider : string) (max_history : Z)
    : Agent.World nat provider_class :=
  fst (Agent.initialize repr list_set
         {| Agent.self := Agent.new (agent_config provider max_history) "a1b2c3";
            Agent.provider_registry := registry_mock;
            Agent.backend := 0%nat;
            Agent.bus_subscribed := [];
            Agent.bus_unsubscribed := [];
            Agent.bus_published := [];
            Agent.ticks := 0%nat |}).

(** [for i in range(n): await agent.think(f"Message {i}")] *)
Fixpoint think_cycles (n : nat) (w : Agent.World nat provider_class)
    : Agent.World nat provider_class :=
  match n with
  | O => w
  | S n' =>
      let w' := think_cycles n' w in
      fst (Agent.think (VStr ("Message " +:+ pretty n')) w')
  end.

(** Role and content of the messages of a history. *)
Definition transcript (w : Agent.World nat provider_class) : list (Agent.Role * Value) :=
  map (fun m => (Agent.role m, Agent.content m)) (Agent._message_history (Agent.self w)).

(** A task event with a text to process. *)
Definition task_created : EventBus.Event :=
  {| EventBus.topic := "task.created";
     EventBus.payload := [("content", VStr "Do something")];
     EventBus.source := "scheduler"; EventBus.event_id := "e1";
     EventBus.timestamp := 0%Q; EventBus.priority := EventBus.NORMAL;
     EventBus.metadata := [] |}.

(** The agent whose provider fails, before the task event and when the
    default handling of that event has raised. *)
Definition failing_world : Agent.World nat provider_class := agent_world "failing" 5.

Definition failing_world_raised : Agent.World nat provider_class :=
  fst (Agent.on_event uuid4_hex12 time_time task_created
         (Agent.set_state Agent.PROCESSING failing_world)).

(** The agent of the trimming test, and the same with a cap of one. *)
Definition capped_world : Agent.World nat provider_class := agent_world "mock" 5.
Definition cap_one_world : Agent.World nat provider_class := agent_world "mock" 1.

(** The world of an agent made from a config and not yet initialized. *)
Definition agent_world_new (provider : string) (max_history : Z)
    : Agent.World nat provider_class :=
  {| Agent.self := Agent.new (agent_config provider max_history) "a1b2c3";
     Agent.provider_registry := registry_mock;
     Agent.backend := 0%nat;
     Agent.bus_subscribed := [];
     Agent.bus_unsubscribed := [];
     Agent.bus_published := [];
     Agent.ticks := 0%nat |}.

(** *** Tasks *)

(** [Task(task_id=id, name=id, depends_on=deps, delay_seconds=delay)] *)
Definition task_ (id : string) (deps : list string) (delay : Q) : Scheduler.Task :=
  {| Scheduler.task_id := id; Scheduler.name := id; Scheduler.description := "";
     Scheduler.target_topic := "task.created"; Scheduler.payload := [];
     Scheduler.priority := EventBus.NORMAL; Scheduler.status := Scheduler.PENDING;
     Scheduler.depends_on := deps; Scheduler.created_at := 0%Q;
     Scheduler.started_at := None; Scheduler.completed_at := None;
     Scheduler.result := VNone; Scheduler.error := VNone;
     Scheduler.delay_seconds := delay |}.

(** [Event(topic=t, payload={"task_id": id, key: v})], as the tests
    publish it to report a completion or a failure. *)
Definition report (t id key : string) (v : Value) : EventBus.Event :=
  {| EventBus.topic := t;
     EventBus.payload := [("task_id", VStr id); (key, v)];
     EventBus.source := ""; EventBus.event_id := "r-" +:+ id;
     EventBus.timestamp := 0%Q; EventBus.priority := EventBus.NORMAL;
     EventBus.metadata := [] |}.

(** A scheduler to which a task t1 without dependencies was submitted,
    and then reported completed. *)
Definition sched_t1_running : Scheduler.TaskScheduler :=
  let '(s, a) := Scheduler.new_task (task_ "t1" [] 0) Scheduler.init in
  fst (Scheduler.run (Scheduler.submit uuid4_hex12 a s)).

Definition sched_t1_completed : Scheduler.TaskScheduler :=
  fst (Scheduler.run
         (Scheduler._on_task_completed uuid4_hex12
            (report "task.completed" "t1" "result" (VStr "done")) sched_t1_running)).

(** A scheduler with a task A that runs and two tasks that depend on it:
    B with a delay of five seconds, then C without delay. *)
Definition sched_abc : Scheduler.TaskScheduler :=
  let '(s, a) := Scheduler.new_task (task_ "A" [] 0) Scheduler.init in
  let '(s, b) := Scheduler.new_task (task_ "B" ["A"] 5) s in
  let '(s, c) := Scheduler.new_task (task_ "C" ["A"] 0) s in
  fst (Scheduler.run (Scheduler.submit_many uuid4_hex12 [a; b; c] s)).

(** A scheduler with one object, a task D with a delay of five seconds,
    not yet submitted. *)
Definition sched_d : Scheduler.TaskScheduler :=
  fst (Scheduler.new_task (task_ "D" [] 5) Scheduler.init).

(** The scheduler [sched_d] when D has been registered under its id. *)
Definition sched_d_registered : Scheduler.TaskScheduler :=
  Scheduler.set_tasks (dict_set "D" 0%nat (Scheduler._tasks sched_d)) sched_d.

(** What another coroutine does while D sleeps: it makes a task E
    without delay and submits it. *)
Definition submit_e (s : Scheduler.TaskScheduler) : Scheduler.TaskScheduler :=
  let '(s, e) := Scheduler.new_task (task_ "E" [] 0) s in
  fst (Scheduler.run (Scheduler.submit uuid4_hex12 e s)).

(** Three objects, none of them submitted yet: A, and B and C that depend
    on it. *)
Definition sched_abc_new : Scheduler.TaskScheduler :=
  let '(s, a) := Scheduler.new_task (task_ "A" [] 0) Scheduler.init in
  let '(s, b) := Scheduler.new_task (task_ "B" ["A"] 5) s in
  fst (Scheduler.new_task (task_ "C" ["A"] 0) s).

(** One object, a task t1 without dependencies or delay, not yet
    submitted. *)
Definition sched_t1_new : Scheduler.TaskScheduler :=
  fst (Scheduler.new_task (task_ "t1" [] 0) Scheduler.init).

(** The scheduler [sched_abc] when A has been marked COMPLETED and its
    dependents are about to be examined. *)
Definition sched_a_done : Scheduler.TaskScheduler :=
  Scheduler.update 0 (Scheduler.set_status Scheduler.COMPLETED) sched_abc.

(** A task whose payload carries a text and a task id of its own. *)
Definition task_with_payload : Scheduler.Task :=
  {| Scheduler.task_id := "t1"; Scheduler.name := "t1"; Scheduler.description := "described";
     Scheduler.target_topic := "task.created";
     Scheduler.payload := [("content", VStr "hello"); ("task_id", VStr "other")];
     Scheduler.priority := EventBus.NORMAL; Scheduler.status := Scheduler.PENDING;
     Scheduler.depends_on := []; Scheduler.created_at := 0%Q;
     Scheduler.started_at := None; Scheduler.completed_at := None;
     Scheduler.result := VNone; Scheduler.error := VNone;
     Scheduler.delay_seconds := 0%Q |}.

(** A content of 75 characters, six of which take two bytes. *)
Definition german_content : string :=
  "Übersetze den Geschäftsbericht für die Zürcher Straßenbahn ins Französische".

(** *** Configuration *)

(** An environment with two variables set. *)
Definition environ0 : Config.environ :=
  Config._createenviron (<["OPENAI_API_KEY" := "sk-123"]> (<["MODEL" := "gpt-4o"]> ∅)).

(** The lone surrogate U+D800, as a str holds it. *)
Definition lone_surrogate : string :=
  String (ascii_of_N 237) (String (ascii_of_N 160) (String (ascii_of_N 128) EmptyString)).

(** A provider definition whose key and model are both placeholders. *)
Definition provider_def0 : dict Value :=
  [("type", VStr "openai"); ("api_key", VStr "${OPENAI_API_KEY}"); ("model", VStr "${MODEL}")].

(** The config that the loader builds from it in that environment. *)
Definition provider_config0 : Config.ProviderConfig :=
  {| Config.api_key := VStr "sk-123";
     Config.model := VStr "${MODEL}";
     Config.base_url := VNone;
     Config.temperature := VFloat (7 # 10);
     Config.max_tokens := VInt 4096;
     Config.timeout := VFloat 60;
     Config.extra := VDict [] |}.

End Scenarios.

(** * Properties *)

(** ** Strings, slices and dictionaries *)

Module PyFacts.
Import Py.

Lemma append_nil_l (b : string) : "" +:+ b = b.
Proof. reflexivity. Qed.

Lemma append_cons (c : ascii) (a b : string) : String c a +:+ b = String c (a +:+ b).
Proof. reflexivity. Qed.

(** stdpp keeps [simpl] from unfolding the append of strings. *)
Ltac sapp := rewrite ?append_cons, ?append_nil_l in *; simpl in *.

Lemma append_assoc (a b c : string) : (a +:+ b) +:+ c = a +:+ (b +:+ c).
Proof. induction a as [|x a IH]; sapp; [reflexivity | now rewrite IH]. Qed.

Lemma append_nil_r (a : string) : a +:+ "" = a.
Proof. induction a as [|x a IH]; sapp; [reflexivity | now f_equal]. Qed.

Lemma length_append (a b : string) :
  String.length (a +:+ b) = (String.length a + String.length b)%nat.
Proof. induction a as [|x a IH]; sapp; [reflexivity | now f_equal]. Qed.

(** Cancelling a common suffix. *)
Lemma append_inv_tail (a b c : string) : a +:+ c = b +:+ c -> a = b.
Proof.
  revert b. induction a as [|x a IH]; intros [|y b] H.
  - reflexivity.
  - apply (f_equal String.length) in H. rewrite !length_append in H. simpl in H. lia.
  - apply (f_equal String.length) in H. rewrite !length_append in H. simpl in H. lia.
  - rewrite !append_cons in H. injection H as -> H. f_equal. now apply IH.
Qed.

Lemma startswith_append (p r : string) : startswith (p +:+ r) p = true.
Proof.
  unfold startswith. induction p as [|x p IH].
  - now destruct r.
  - rewrite append_cons. simpl. destruct (ascii_dec x x); [exact IH | congruence].
Qed.

Lemma startswith_inv (s p : string) : startswith s p = true -> exists r, s = p +:+ r.
Proof.
  unfold startswith. revert s. induction p as [|x p IH]; intros s H.
  - exists s. reflexivity.
  - destruct s as [|y s]; simpl in H; [discriminate|].
    destruct (ascii_dec x y) as [->|]; [|discriminate].
    destruct (IH s H) as [r ->]. exists r. reflexivity.
Qed.

Lemma startswith_iff (s p : string) : startswith s p = true <-> exists r, s = p +:+ r.
Proof.
  split; [apply startswith_inv|]. intros [r ->]. apply startswith_append.
Qed.

Lemma endswith_refl (x : string) : endswith x x = true.
Proof. destruct x; simpl; now rewrite ?Ascii.eqb_refl, ?String.eqb_refl. Qed.

Lemma endswith_append (a x : string) : endswith (a +:+ x) x = true.
Proof.
  induction a as [|c a IH].
  - apply endswith_refl.
  - rewrite append_cons.
    change (endswith (String c (a +:+ x)) x)
      with (if String.eqb (String c (a +:+ x)) x then true else endswith (a +:+ x) x).
    destruct (String.eqb (String c (a +:+ x)) x); [reflexivity | exact IH].
Qed.

Lemma endswith_inv (s x : string) : endswith s x = true -> exists a, s = a +:+ x.
Proof.
  induction s as [|c s IH]; intros H.
  - change (endswith "" x) with (if String.eqb "" x then true else false) in H.
    destruct (String.eqb_spec "" x) as [E|]; [|discriminate].
    exists "". now rewrite <- E.
  - change (endswith (String c s) x)
      with (if String.eqb (String c s) x then true else endswith s x) in H.
    destruct (String.eqb_spec (String c s) x) as [E|].
    + exists "". now rewrite <- E.
    + destruct (IH H) as [a ->]. now exists (String c a).
Qed.

Lemma substring_prefix (a b : string) : substring 0 (String.length a) (a +:+ b) = a.
Proof.
  induction a as [|c a IH].
  - now destruct b.
  - rewrite append_cons. simpl. now rewrite IH.
Qed.

(** [(T + ".*")[:-2]] is [T]. *)
Lemma strip_wildcard (T : string) : str_slice_to (-2) (T +:+ ".*") = T.
Proof.
  unfold str_slice_to, str_slice, slice_index. rewrite length_append. simpl.
  replace (Z.to_nat (Z.min 0 _)) with 0%nat by lia.
  replace (Z.to_nat (Z.max 0 _) - 0)%nat with (String.length T) by lia.
  apply substring_prefix.
Qed.

(** [("${" + name + "}")[2:-1]] is [name]. *)
Lemma strip_placeholder (name : string) : str_slice 2 (-1) ("${" +:+ name +:+ "}") = name.
Proof.
  unfold str_slice, slice_index. rewrite !length_append. simpl String.length.
  replace (Z.to_nat _) with 2%nat by (simpl; lia).
  replace (Z.to_nat _ - 2)%nat with (String.length name) by (simpl; lia).
  rewrite !append_cons, append_nil_l. simpl. apply substring_prefix.
Qed.

Lemma split_nonempty (sep : ascii) (s : string) : split sep s <> [].
Proof.
  destruct s as [|c s]; simpl; [discriminate|].
  destruct (Ascii.eqb c sep); [discriminate|].
  destruct (split sep s); discriminate.
Qed.

(** [sep.join(s.split(sep))] is [s]. *)
Lemma join_split (sep : ascii) (s : string) :
  join (String sep "") (split sep s) = s.
Proof.
  unfold join. induction s as [|c s IH]; simpl; [reflexivity|].
  pose proof (split_nonempty sep s) as Hs.
  destruct (Ascii.eqb_spec c sep) as [->|Hne];
    destruct (split sep s) as [|seg segs]; try congruence.
  - simpl in *. sapp. now rewrite IH.
  - destruct segs as [|seg' segs]; simpl in *; sapp; now rewrite <- IH.
Qed.

Lemma join_app (sep : string) (l1 l2 : list string) :
  l1 <> [] -> l2 <> [] ->
  join sep (l1 ++ l2) = join sep l1 +:+ sep +:+ join sep l2.
Proof.
  unfold join. induction l1 as [|x l1 IH]; intros H1 H2; [congruence|].
  destruct l1 as [|y l1].
  - simpl. destruct l2; [congruence | reflexivity].
  - change (String.concat sep ((x :: y :: l1) ++ l2))
      with (x +:+ sep +:+ String.concat sep ((y :: l1) ++ l2)).
    rewrite IH by congruence.
    change (String.concat sep (x :: y :: l1))
      with (x +:+ sep +:+ String.concat sep (y :: l1)).
    now rewrite !append_assoc.
Qed.

(** ** Slices *)

Lemma slice_from_zero {A} (l : list A) : slice_from 0 l = l.
Proof.
  unfold slice_from, slice_index. simpl.
  replace (Z.to_nat (Z.min 0 (Z.of_nat (length l)))) with 0%nat by lia.
  reflexivity.
Qed.

(** [l[-k:]] for [k >= 1] is the suffix of [min(k, len(l))] items. *)
Lemma slice_from_neg {A} (k : Z) (l : list A) :
  1 <= k ->
  slice_from (- k) l = drop (length l - Z.to_nat (Z.min k (Z.of_nat (length l)))) l.
Proof.
  intros Hk. unfold slice_from, slice_index.
  destruct (Z.ltb_spec (- k) 0); [|lia]. f_equal. lia.
Qed.

Lemma length_slice_from_neg {A} (k : Z) (l : list A) :
  1 <= k -> Z.of_nat (length (slice_from (- k) l)) = Z.min k (Z.of_nat (length l)).
Proof. intros Hk. rewrite slice_from_neg by exact Hk. rewrite length_drop. lia. Qed.

Lemma slice_from_suffix {A} (start : Z) (l : list A) :
  exists older, l = older ++ slice_from start l.
Proof.
  unfold slice_from. exists (take (slice_index (length l) start) l).
  now rewrite take_drop.
Qed.

(** ** Dictionaries *)

Lemma dict_get_In {V} (k : string) (d : dict V) (v : V) :
  dict_get k d = Some v -> In (k, v) d.
Proof.
  induction d as [|[k' v'] d IH]; simpl; [discriminate|].
  destruct (String.eqb_spec k' k) as [->|].
  - intros [= ->]. now left.
  - intros H. right. now apply IH.
Qed.

Lemma In_dict_get {V} (k : string) (d : dict V) (v : V) :
  NoDup (dict_keys d) -> In (k, v) d -> dict_get k d = Some v.
Proof.
  induction d as [|[k' v'] d IH]; simpl; [tauto|].
  intros Hnd [H|H].
  - injection H as -> ->. now rewrite String.eqb_refl.
  - apply NoDup_cons in Hnd as [Hk Hnd].
    destruct (String.eqb_spec k' k) as [->|].
    + exfalso. apply Hk. apply list_elem_of_In.
      change k with (fst (k, v)). now apply in_map.
    + now apply IH.
Qed.

Lemma dict_get_not_key {V} (k : string) (d : dict V) :
  dict_get k d = None <-> ~ In k (dict_keys d).
Proof.
  induction d as [|[k' v'] d IH]; simpl; [tauto|].
  destruct (String.eqb_spec k' k) as [->|Hne].
  - split; [discriminate | tauto].
  - rewrite IH. tauto.
Qed.

Lemma dict_keys_set {V} (k : string) (v : V) (d : dict V) :
  dict_keys (dict_set k v d)
  = if dict_mem k d then dict_keys d else dict_keys d ++ [k].
Proof.
  unfold dict_mem. induction d as [|[k' v'] d IH]; simpl; [reflexivity|].
  destruct (String.eqb_spec k' k) as [->|Hne]; simpl; [reflexivity|].
  rewrite IH. now destruct (dict_get k d).
Qed.

Lemma NoDup_dict_set {V} (k : string) (v : V) (d : dict V) :
  NoDup (dict_keys d) -> NoDup (dict_keys (dict_set k v d)).
Proof.
  intros Hnd. rewrite dict_keys_set. unfold dict_mem.
  destruct (dict_get k d) eqn:Hget; [assumption|].
  apply NoDup_app. repeat split; [assumption | | apply NoDup_singleton].
  intros x Hx [= ->]%list_elem_of_singleton.
  apply dict_get_not_key in Hget. apply Hget. now apply list_elem_of_In.
Qed.

Lemma dict_get_set_same {V} (k : string) (v : V) (d : dict V) :
  dict_get k (dict_set k v d) = Some v.
Proof.
  induction d as [|[k' v'] d IH]; simpl.
  - now rewrite String.eqb_refl.
  - destruct (String.eqb_spec k' k) as [->|Hne]; simpl.
    + now rewrite String.eqb_refl.
    + destruct (String.eqb_spec k' k); [congruence | exact IH].
Qed.

Lemma dict_get_set {V} (k k' : string) (v : V) (d : dict V) :
  dict_get k (dict_set k' v d) = if String.eqb k' k then Some v else dict_get k d.
Proof.
  induction d as [|[k0 v0] d IH]; simpl; [reflexivity|].
  destruct (String.eqb_spec k0 k') as [->|Hne]; simpl.
  - now destruct (String.eqb k' k).
  - destruct (String.eqb_spec k0 k) as [->|Hne'].
    + destruct (String.eqb_spec k' k); [congruence | reflexivity].
    + exact IH.
Qed.

Lemma dict_mem_set {V} (k k' : string) (v : V) (d : dict V) :
  dict_mem k (dict_set k' v d) = String.eqb k' k || dict_mem k d.
Proof. unfold dict_mem. rewrite dict_get_set. now destruct (String.eqb k' k). Qed.

Lemma In_dict_set {V} (k : string) (v : V) (d : dict V) (k' : string) (v' : V) :
  In (k', v') (dict_set k v d) -> (k' = k /\ v' = v) \/ In (k', v') d.
Proof.
  induction d as [|[k0 v0] d IH]; simpl.
  - intros [[= <- <-]|[]]. now left.
  - destruct (String.eqb_spec k0 k) as [->|Hne]; simpl.
    + intros [[= <- <-]|H]; [now left | right; now right].
    + intros [H|H]; [right; now left|]. destruct (IH H); [now left | right; now right].
Qed.

Lemma In_dict_del {V} (k : string) (d : dict V) (kv : string * V) :
  In kv (dict_del k d) -> In kv d.
Proof.
  induction d as [|[k0 v0] d IH]; simpl; [tauto|].
  destruct (String.eqb k0 k); simpl; [tauto|]. intros [H|H]; [now left | right; auto].
Qed.

Lemma NoDup_dict_del {V} (k : string) (d : dict V) :
  NoDup (dict_keys d) -> NoDup (dict_keys (dict_del k d)).
Proof.
  induction d as [|[k0 v0] d IH]; simpl; [trivial|].
  intros [Hk Hnd]%NoDup_cons. destruct (String.eqb k0 k); simpl; [assumption|].
  apply NoDup_cons. split; [|auto].
  intros Hin. apply Hk. apply list_elem_of_In in Hin. apply list_elem_of_In.
  apply in_map_iff in Hin as (kv & <- & Hkv). apply in_map. eapply In_dict_del, Hkv.
Qed.

Lemma dict_mem_get {V} (k : string) (d : dict V) (v : V) :
  dict_get k d = Some v -> dict_mem k d = true /\ dict_get_default k v d = v.
Proof. unfold dict_mem, dict_get_default. now intros ->. Qed.

(** *** Characters *)

Lemma concat_cons (x : string) (xs : list string) :
  String.concat "" (x :: xs) = x +:+ String.concat "" xs.
Proof.
  destruct xs as [|y ys]; simpl.
  - symmetry. apply append_nil_r.
  - reflexivity.
Qed.

Lemma concat_chars (s : string) : String.concat "" (chars s) = s.
Proof.
  induction s as [|c s IH]; [reflexivity|].
  cbn [chars]. destruct (chars s) as [|[|c' ch] rest].
  - rewrite concat_cons. simpl in *. now rewrite <- IH.
  - rewrite concat_cons, IH. reflexivity.
  - destruct (continuation c').
    + rewrite <- IH, !concat_cons. reflexivity.
    + rewrite concat_cons, IH. reflexivity.
Qed.

Lemma chars_concat_take (n : nat) (s : string) :
  chars (String.concat "" (take n (chars s))) = take n (chars s).
Proof.
  revert n. induction s as [|c s IH]; intros n.
  - now destruct n.
  - destruct n as [|n]; [reflexivity|].
    cbn [chars]. destruct (chars s) as [|[|c' ch] rest] eqn:Hs.
    + simpl. now destruct n.
    + cbn [take]. rewrite concat_cons.
      change (String c "" +:+ ?x) with (String c x). cbn [chars]. rewrite (IH n).
      now destruct n.
    + destruct (continuation c') eqn:Hc.
      * cbn [take]. rewrite concat_cons.
        change (String c (String c' ch) +:+ ?x) with (String c (String c' ch +:+ x)).
        rewrite <- concat_cons. cbn [chars].
        change (String c' ch :: take n rest) with (take (S n) (String c' ch :: rest)).
        rewrite (IH (S n)). cbn [take]. now rewrite Hc.
      * cbn [take]. rewrite concat_cons.
        change (String c "" +:+ ?x) with (String c x). cbn [chars]. rewrite (IH n).
        destruct n; [reflexivity|]. cbn [take]. now rewrite Hc.
Qed.

Lemma concat_take_drop (n : nat) (l : list string) :
  String.concat "" l = String.concat "" (take n l) +:+ String.concat "" (drop n l).
Proof.
  revert n. induction l as [|x l IH]; intros [|n]; try reflexivity.
  cbn [take drop]. rewrite !concat_cons, (IH n). symmetry. apply append_assoc.
Qed.

Lemma slice_to_take {A} (stop : Z) (l : list A) :
  0 <= stop -> slice_to stop l = take (Z.to_nat stop) l.
Proof.
  intros H. unfold slice_to, slice_index.
  destruct (stop <? 0) eqn:E; [lia|].
  destruct (Z.le_ge_cases stop (Z.of_nat (length l))).
  - now rewrite Z.min_l.
  - rewrite Z.min_r, Nat2Z.id by assumption.
    rewrite !take_ge; [reflexivity | lia | lia].
Qed.

Lemma chars_str_prefix (stop : Z) (s : string) :
  0 <= stop -> chars (str_prefix stop s) = take (Z.to_nat stop) (chars s).
Proof.
  intros H. unfold str_prefix. rewrite slice_to_take by assumption. apply chars_concat_take.
Qed.

Lemma str_prefix_prefix (stop : Z) (s : string) :
  exists rest, s = str_prefix stop s +:+ rest.
Proof.
  unfold str_prefix, slice_to.
  exists (String.concat "" (drop (slice_index (length (chars s)) stop) (chars s))).
  rewrite <- concat_take_drop. symmetry. apply concat_chars.
Qed.

End PyFacts.

(** ** The event bus *)

Module EventBusFacts.
Import Py PyFacts EventBus.

Section Facts.

Context {W : Type}.
Implicit Types (b : EventBus W) (s : State W) (e : Event) (sub : _Subscription W).

Lemma set_event_queue_same b : set_event_queue (_event_queue b) b = b.
Proof. now destruct b. Qed.

Lemma add_errors_zero b : add_errors 0 b = b.
Proof.
  destruct b as [? ? ? ? ? ? ? [p d er]]. unfold add_errors, set_stats. simpl.
  now rewrite Z.add_0_r.
Qed.

Lemma add_errors_incr (n : Z) b : add_errors n (incr_errors b) = add_errors (1 + n) b.
Proof.
  unfold add_errors, incr_errors, set_stats. simpl. now rewrite Z.add_assoc.
Qed.

(** *** Publishing without waiting *)

(** C9. Whatever the state of the bus, [publish_nowait] either raises
    [QueueFull], which happens exactly when the queue is at capacity and
    leaves the bus as it was (nothing enqueued, [published] untouched), or
    returns, which happens exactly when the queue has room: the event is
    then the new last item of the queue and [published] has grown by
    exactly one, the other counters, the capacity, the subscriptions and
    the history being unchanged. *)
Theorem publish_nowait_full_or_enqueued e b :
  match publish_nowait e b with
  | (b', Raise exn) =>
      full (_event_queue b) = true /\ exn = QueueFull /\ b' = b
  | (b', Ok _) =>
      full (_event_queue b) = false
      /\ items (_event_queue b') = items (_event_queue b) ++ [e]
      /\ maxsize (_event_queue b') = maxsize (_event_queue b)
      /\ published (_stats b') = published (_stats b) + 1
      /\ dispatched (_stats b') = dispatched (_stats b)
      /\ errors (_stats b') = errors (_stats b)
      /\ _subscriptions b' = _subscriptions b
      /\ _global_subscriptions b' = _global_subscriptions b
      /\ _event_history b' = _event_history b
      /\ _running b' = _running b
  end.
Proof.
  unfold publish_nowait, put_nowait.
  destruct (full (_event_queue b)) eqn:Hfull.
  - rewrite set_event_queue_same. repeat split.
  - simpl. repeat split.
Qed.

(** *** Recent events *)

(** C10. For a history of n events and a limit of at least 1,
    [recent_events(limit)] is the suffix of the history that holds its
    last min(limit, n) events, in the order of the history (most recent
    last); and with the limit 0 it is the whole history. *)
Theorem recent_events_suffix b (limit : Z) :
  1 <= limit ->
  (exists older, _event_history b = older ++ recent_events limit b)
  /\ Z.of_nat (length (recent_events limit b))
     = Z.min limit (Z.of_nat (length (_event_history b)))
  /\ recent_events 0 b = _event_history b.
Proof.
  intros Hlimit. unfold recent_events. repeat split.
  - apply slice_from_suffix.
  - now apply length_slice_from_neg.
  - apply slice_from_zero.
Qed.

(** *** Error isolation *)

Lemma safe_call_outcome (h : EventHandler W) e (sid : string) s :
  _safe_call h e sid s
  = ({| bus := match snd (h e (world s)) with
               | Raise _ => incr_errors (bus s)
               | Ok _ => bus s
               end;
        world := fst (h e (world s)) |}, Ok tt).
Proof.
  unfold _safe_call, try_except, call, modify_bus, modify.
  destruct (h e (world s)) as [w [[]|exn]]; reflexivity.
Qed.

(** The safe calls gathered over any list of subscriptions: all of them
    run, the faults are counted, nothing is raised. *)
Lemma gather_safe_calls e (subs : list (_Subscription W)) s :
  gather (map (fun sub => _safe_call (handler sub) e (subscriber_id sub)) subs) s
  = ({| bus := add_errors (faults e subs (world s)) (bus s);
        world := run_all e subs (world s) |}, Ok tt).
Proof.
  revert s. induction subs as [|sub subs IH]; intros s; simpl.
  - rewrite add_errors_zero. now destruct s.
  - rewrite safe_call_outcome, IH. simpl. f_equal. f_equal.
    destruct (snd (handler sub e (world s))).
    + reflexivity.
    + now rewrite add_errors_incr.
Qed.

Lemma collect_handlers_ext b b' (t : string) :
  _subscriptions b = _subscriptions b' ->
  _global_subscriptions b = _global_subscriptions b' ->
  collect_handlers b t = collect_handlers b' t.
Proof.
  intros H1 H2.
  unfold collect_handlers, exact_matches, wildcard_matches, parent_matches.
  now rewrite H1, H2.
Qed.

Lemma matching_handlers_ext b b' (t : string) :
  _subscriptions b = _subscriptions b' ->
  _global_subscriptions b = _global_subscriptions b' ->
  matching_handlers b t = matching_handlers b' t.
Proof. intros H1 H2. unfold matching_handlers. now rewrite (collect_handlers_ext b b'). Qed.

Lemma matching_record_history e b (t : string) :
  matching_handlers (record_history e b) t = matching_handlers b t.
Proof.
  apply matching_handlers_ext; unfold record_history;
    destruct (_ <? _); reflexivity.
Qed.

(** One dispatch, in closed form. *)
Lemma dispatch_event_closed e s :
  _dispatch_event e s
  = ({| bus := incr_dispatched
                 (add_errors (faults e (matching_handlers (bus s) (topic e)) (world s))
                    (record_history e (bus s)));
        world := run_all e (matching_handlers (bus s) (topic e)) (world s) |}, Ok tt).
Proof.
  unfold _dispatch_event, bind, modify_bus, modify, gets. simpl.
  rewrite matching_record_history.
  destruct (matching_handlers (bus s) (topic e)) as [|sub subs] eqn:Hm.
  - simpl. now rewrite add_errors_zero.
  - rewrite gather_safe_calls. reflexivity.
Qed.

(** C2. An event dispatched to its matching handlers, however many: every
    one of them is called with the event, in priority order, each on the
    world the previous one left, whether or not an earlier one raised
    ([run_all]); each exception is caught by [_safe_call] and counted in
    the [errors] statistic ([faults]); and [_dispatch_event] itself returns
    without raising, with [dispatched] incremented, so nothing reaches the
    publisher and the dispatch of the event is not aborted. *)
Theorem dispatch_isolates_handler_errors e s :
  exists s',
    _dispatch_event e s = (s', Ok tt)
    /\ world s' = run_all e (matching_handlers (bus s) (topic e)) (world s)
    /\ errors (_stats (bus s'))
       = errors (_stats (bus s)) + faults e (matching_handlers (bus s) (topic e)) (world s)
    /\ dispatched (_stats (bus s')) = dispatched (_stats (bus s)) + 1
    /\ published (_stats (bus s')) = published (_stats (bus s)).
Proof.
  eexists. split; [apply dispatch_event_closed|].
  simpl. unfold record_history.
  destruct (_ <? _); repeat split.
Qed.

(** A handler that raises in the middle of the list: those before and
    those after it are run all the same. *)
Lemma run_all_app e (l1 l2 : list (_Subscription W)) (w : W) :
  run_all e (l1 ++ l2) w = run_all e l2 (run_all e l1 w).
Proof. unfold run_all. apply fold_left_app. Qed.

Lemma faults_nonneg e (subs : list (_Subscription W)) (w : W) : 0 <= faults e subs w.
Proof.
  revert w. induction subs as [|sub subs IH]; intros w; simpl; [lia|].
  specialize (IH (fst (handler sub e w))).
  destruct (snd (handler sub e w)); lia.
Qed.

Lemma faults_app e (l1 l2 : list (_Subscription W)) (w : W) :
  faults e (l1 ++ l2) w = faults e l1 w + faults e l2 (run_all e l1 w).
Proof.
  revert w. induction l1 as [|sub l1 IH]; intros w; simpl; [reflexivity|].
  rewrite IH. unfold run_all. simpl. lia.
Qed.

(** *** What a dispatch leaves alone *)

Lemma fold_left_ext_subs {A B} (f g : A -> B -> A) (l : list B) (a : A) :
  (forall x y, f x y = g x y) -> fold_left f l a = fold_left g l a.
Proof.
  intros H. revert a. induction l as [|y l IH]; intros a; simpl; [reflexivity|].
  now rewrite H, IH.
Qed.

Lemma deliver_all_ext b b' (q : list Event) (w : W) :
  _subscriptions b = _subscriptions b' ->
  _global_subscriptions b = _global_subscriptions b' ->
  deliver_all b q w = deliver_all b' q w.
Proof.
  intros H1 H2. unfold deliver_all. apply fold_left_ext_subs. intros x e.
  now rewrite (matching_handlers_ext b b').
Qed.

(** What one dispatch leaves alone. *)
Lemma dispatch_frame e s :
  let s2 := fst (_dispatch_event e s) in
  _subscriptions (bus s2) = _subscriptions (bus s)
  /\ _global_subscriptions (bus s2) = _global_subscriptions (bus s)
  /\ _event_queue (bus s2) = _event_queue (bus s)
  /\ _running (bus s2) = _running (bus s)
  /\ _dispatch_task (bus s2) = _dispatch_task (bus s)
  /\ published (_stats (bus s2)) = published (_stats (bus s))
  /\ dispatched (_stats (bus s2)) = dispatched (_stats (bus s)) + 1
  /\ world s2 = run_all e (matching_handlers (bus s) (topic e)) (world s).
Proof.
  rewrite dispatch_event_closed. simpl. unfold record_history.
  destruct (_ <? _); repeat split.
Qed.

(** *** The loop task and the caller of [stop] *)

Lemma safe_call_frame (h : EventHandler W) e (sid : string) s :
  let s' := fst (_safe_call h e sid s) in
  _subscriptions (bus s') = _subscriptions (bus s)
  /\ _global_subscriptions (bus s') = _global_subscriptions (bus s)
  /\ _event_queue (bus s') = _event_queue (bus s)
  /\ _running (bus s') = _running (bus s)
  /\ _dispatch_task (bus s') = _dispatch_task (bus s)
  /\ _event_history (bus s') = _event_history (bus s).
Proof.
  unfold _safe_call, try_except, call, modify_bus, modify.
  destruct (h e (world s)) as [w [[]|exn]]; simpl; repeat split.
Qed.

Lemma record_history_frame e b :
  _subscriptions (record_history e b) = _subscriptions b
  /\ _global_subscriptions (record_history e b) = _global_subscriptions b
  /\ _event_queue (record_history e b) = _event_queue b
  /\ _running (record_history e b) = _running b
  /\ _dispatch_task (record_history e b) = _dispatch_task b.
Proof. unfold record_history. destruct (_ <? _); repeat split. Qed.

(** A turn of the loop task leaves the tables and the flag alone. *)
Lemma dispatch_loop_frame (turn : Turn) s s' :
  _dispatch_loop turn s = Some s' ->
  _subscriptions (bus s') = _subscriptions (bus s)
  /\ _global_subscriptions (bus s') = _global_subscriptions (bus s)
  /\ _running (bus s') = _running (bus s).
Proof.
  unfold _dispatch_loop, loop_head, set_task, modify_bus, modify.
  destruct turn; destruct (_dispatch_task (bus s)) as [[|[| |e]|e [|sub pending]|]|];
    try discriminate; simpl;
    try (intros [= <-]; simpl; repeat split; fail).
  - pose proof (record_history_frame e (bus s)) as (F1 & F2 & _ & F4 & _).
    destruct (matching_handlers _ _); intros [= <-]; simpl; now rewrite F1, F2, F4.
  - unfold get_nowait. destruct (items (_event_queue (bus s)));
      intros [= <-]; simpl; repeat split.
  - unfold get_nowait. destruct (items (_event_queue (bus s)));
      [discriminate|]. intros [= <-]; simpl; repeat split.
  - pose proof (safe_call_frame (handler sub) e (subscriber_id sub) s)
      as (F1 & F2 & _ & F4 & _).
    intros [= <-]; simpl. now rewrite F1, F2, F4.
Qed.

Lemma halted_turn b (turn : Turn) s s' :
  halted b s -> _dispatch_loop turn s = Some s' -> halted b s'.
Proof.
  intros (H1 & H2 & H3) (F1 & F2 & F3)%dispatch_loop_frame.
  unfold halted. now rewrite F1, F2, F3.
Qed.

Lemma halted_safe_call b (h : EventHandler W) e (sid : string) s :
  halted b s -> halted b (fst (_safe_call h e sid s)).
Proof.
  intros (H1 & H2 & H3).
  pose proof (safe_call_frame h e sid s) as (F1 & F2 & _ & F4 & _).
  unfold halted. now rewrite F1, F2, F4.
Qed.

(** What is true of a suspended coroutine is true of it after any turn,
    and of its outcome at the end of any run. *)
Lemma turn_of_holds {A} (P : State W -> Prop) (Q : State W -> Res A -> Prop) :
  (forall turn s s', P s -> _dispatch_loop turn s = Some s' -> P s') ->
  (forall sub e s, P s -> P (fst (_safe_call (handler sub) e (subscriber_id sub) s))) ->
  forall (turn : Turn) (c c' : Co W A),
    holds P Q c -> turn_of turn c = Some c' -> holds P Q c'.
Proof.
  intros Hloop Hcall turn c c' Hc Hturn.
  destruct c as [s r|s e pending k|s k|]; simpl in Hturn; try discriminate.
  - destruct Hc as [Hs Hk].
    destruct turn, pending as [|sub pending]; try discriminate.
    all: try (destruct (_dispatch_loop _ s) as [s1|] eqn:Hstep; [|discriminate];
              injection Hturn as <-; split; [eapply Hloop; eassumption | exact Hk]).
    + injection Hturn as <-. split; [now apply Hcall | exact Hk].
    + injection Hturn as <-. now apply Hk.
  - destruct Hc as [Hs Hk].
    destruct turn; try discriminate.
    all: try (destruct (_dispatch_loop _ s) as [s1|] eqn:Hstep; [|discriminate];
              injection Hturn as <-; split; [eapply Hloop; eassumption | exact Hk]).
    destruct (_dispatch_task (bus s)) as [[| | |]|]; try discriminate.
    injection Hturn as <-. now apply Hk.
Qed.

Lemma run_holds {A} (P : State W -> Prop) (Q : State W -> Res A -> Prop) :
  (forall turn s s', P s -> _dispatch_loop turn s = Some s' -> P s') ->
  (forall sub e s, P s -> P (fst (_safe_call (handler sub) e (subscriber_id sub) s))) ->
  forall (turns : list Turn) (c : Co W A) s' (r : Res A),
    holds P Q c -> run turns c = Some (s', r) -> Q s' r.
Proof.
  intros Hloop Hcall turns. induction turns as [|turn turns IH]; intros c s' r Hc Hrun.
  - destruct c; simpl in Hrun; try discriminate. injection Hrun as <- <-. exact Hc.
  - destruct c as [s r0|s e pending k|s k|]; cbn [run] in Hrun.
    + injection Hrun as <- <-. exact Hc.
    + destruct (turn_of turn (Gather s e pending k)) as [c'|] eqn:Hturn; [|discriminate].
      eapply IH; [|exact Hrun]. eapply turn_of_holds; eassumption.
    + destruct (turn_of turn (Join s k)) as [c'|] eqn:Hturn; [|discriminate].
      eapply IH; [|exact Hrun]. eapply turn_of_holds; eassumption.
    + discriminate.
Qed.

(** The dispatch awaited by a caller and the drain loop keep a halted
    bus halted. *)
Lemma holds_await_dispatch_event {A} b (Q : State W -> Res A -> Prop) e
    (k : State W -> Co W A) s :
  halted b s ->
  (forall s', halted b s' -> holds (halted b) Q (k s')) ->
  holds (halted b) Q (await_dispatch_event e k s).
Proof.
  intros (H1 & H2 & H3) Hk. unfold await_dispatch_event, modify_bus, modify.
  pose proof (record_history_frame e (bus s)) as (F1 & F2 & _ & F4 & _).
  assert (Hs1 : halted b {| bus := record_history e (bus s); world := world s |}).
  { unfold halted. simpl. now rewrite F1, F2, F4. }
  cbn [fst bus world].
  destruct (matching_handlers (record_history e (bus s)) (topic e)).
  - apply Hk. exact Hs1.
  - split; [exact Hs1|]. intros s' Hs'. apply Hk. exact Hs'.
Qed.

Lemma holds_drain {A} b (Q : State W -> Res A -> Prop) (k : State W -> Co W A)
    (fuel : nat) : forall s,
  halted b s ->
  (forall s', halted b s' -> holds (halted b) Q (k s')) ->
  holds (halted b) Q (drain fuel k s).
Proof.
  induction fuel as [|fuel IH]; intros s Hs Hk; [exact I|].
  simpl. unfold empty, get_nowait.
  destruct (items (_event_queue (bus s))) as [|e q]; [now apply Hk|].
  apply holds_await_dispatch_event; [exact Hs|].
  intros s' Hs'. now apply IH.
Qed.

(** [stop], whatever the turns: if it returns, it returns without an
    exception, and the bus is not running, has no loop task, and has the
    tables it had. *)
Lemma stop_frame (turns : list Turn) (fuel : nat) s s' (r : Res unit) :
  run turns (stop fuel s) = Some (s', r) ->
  r = Ok tt
  /\ _subscriptions (bus s') = _subscriptions (bus s)
  /\ _global_subscriptions (bus s') = _global_subscriptions (bus s)
  /\ _running (bus s') = false
  /\ (_running (bus s) = true -> _dispatch_task (bus s') = None).
Proof.
  unfold stop. destruct (_running (bus s)) eqn:Hr; simpl.
  - apply (run_holds (halted (bus s))
             (fun s' r => r = Ok tt
                          /\ _subscriptions (bus s') = _subscriptions (bus s)
                          /\ _global_subscriptions (bus s') = _global_subscriptions (bus s)
                          /\ _running (bus s') = false
                          /\ (true = true -> _dispatch_task (bus s') = None))).
    + intros turn s1 s2. apply halted_turn.
    + intros sub e s1. apply halted_safe_call.
    + apply holds_drain; [repeat split|].
      intros s1 (H1 & H2 & H3).
      destruct (_dispatch_task (bus s1)) as [t|] eqn:Ht; [|simpl; repeat split; auto].
      unfold await_task, set_task. cbn [bus set_dispatch_task _dispatch_task].
      destruct (cancel t); simpl.
      all: try (split; [repeat split; assumption|];
                intros s2 (G1 & G2 & G3)).
      all: repeat split; assumption.
  - destruct turns; simpl; intros [= <- <-]; repeat split; try assumption; discriminate.
Qed.

(** *** A dispatch with no other task taking a turn *)

(** The handlers of a gather running one after the other, no other task
    taking a turn in between, are the gather of the atomic dispatch. *)
Lemma gather_alone {A} e (pending : list (_Subscription W)) :
  forall s (k : State W -> Co W A) (turns : list Turn),
    run (repeat TurnHandler (length pending) ++ Resume :: turns) (Gather s e pending k)
    = run turns
        (k (fst (gather (map (fun sub => _safe_call (handler sub) e (subscriber_id sub))
                           pending) s))).
Proof.
  induction pending as [|sub pending IH]; intros s k turns.
  - reflexivity.
  - cbn [length repeat app run turn_of]. rewrite IH. cbn [map gather].
    destruct (_safe_call (handler sub) e (subscriber_id sub) s) as [s1 r1].
    cbn [fst]. now destruct (gather _ s1).
Qed.

(** [await self._dispatch_event(event)] with no other task taking a turn
    while the handlers run is the atomic [_dispatch_event]. *)
Lemma await_dispatch_event_alone e s :
  run (repeat TurnHandler (length (matching_handlers (bus s) (topic e))) ++ [Resume])
    (await_dispatch_event e (fun s' => Done s' (Ok tt)) s)
  = Some (_dispatch_event e s).
Proof.
  unfold await_dispatch_event, _dispatch_event, bind, modify_bus, modify, gets.
  cbn [fst bus world]. rewrite matching_record_history.
  destruct (matching_handlers (bus s) (topic e)) as [|sub subs] eqn:Hm.
  - reflexivity.
  - rewrite gather_alone. rewrite gather_safe_calls. reflexivity.
Qed.
Lemma loop_gather_alone e (pending : list (_Subscription W)) :
  forall s (turns : list Turn),
    _dispatch_task (bus s) = Some (Gathering e pending) ->
    loop_run (repeat TurnLoopHandler (length pending) ++ turns) s
    = loop_run turns
        (set_task (Gathering e [])
           (fst (gather (map (fun sub => _safe_call (handler sub) e (subscriber_id sub))
                           pending) s))).
Proof.
  induction pending as [|sub pending IH]; intros s turns Ht.
  - cbn [length repeat app map gather fst]. f_equal.
    unfold set_task. destruct s as [b w]. simpl in *. f_equal.
    destruct b. simpl in *. now rewrite Ht.
  - cbn [length repeat app loop_run]. unfold _dispatch_loop at 1. rewrite Ht.
    rewrite IH by reflexivity. cbn [map gather].
    pose proof (safe_call_frame (handler sub) e (subscriber_id sub) s) as F.
    destruct (_safe_call (handler sub) e (subscriber_id sub) s) as [s1 r1].
    cbn [fst] in *.
    rewrite !gather_safe_calls. cbn [fst]. reflexivity.
Qed.

(** An event published on a running bus whose loop task stands in
    [wait_for] before an empty queue: the get takes it, the loop task
    dispatches it, and when its handlers have run the state is the one
    [_dispatch_event] makes, the loop task standing in [wait_for]
    again. *)
Lemma published_event_dispatched e s (get : GetTask) :
  _running (bus s) = true ->
  _dispatch_task (bus s) = Some (Waiting get) ->
  (forall e', get <> Got e') ->
  items (_event_queue (bus s)) = [] ->
  full (_event_queue (bus s)) = false ->
  let published := {| bus := fst (publish_nowait e (bus s)); world := world s |} in
  let n := length (matching_handlers (bus s) (topic e)) in
  exists s',
    loop_run (TurnGet :: TurnLoop :: repeat TurnLoopHandler n
              ++ match n with O => [] | S _ => [TurnLoop] end) published
    = Some s'
    /\ world s' = run_all e (matching_handlers (bus s) (topic e)) (world s)
    /\ items (_event_queue (bus s')) = []
    /\ dispatched (_stats (bus s')) = dispatched (_stats (bus s)) + 1
    /\ _dispatch_task (bus s') = Some (Waiting GetCreated).
Proof.
  intros Hrun Ht Hget Hq Hfull published n.
  assert (Hpub : published
                 = {| bus := incr_published
                               (set_event_queue
                                  {| items := [e]; maxsize := maxsize (_event_queue (bus s)) |}
                                  (bus s));
                      world := world s |}).
  { subst published. unfold publish_nowait, put_nowait. rewrite Hfull, Hq. reflexivity. }
  set (taken := set_task (Waiting (Got e))
                  {| bus := incr_published
                              (set_event_queue
                                 {| items := []; maxsize := maxsize (_event_queue (bus s)) |}
                                 (bus s));
                     world := world s |}).
  assert (Hstep1 : _dispatch_loop TurnGet published = Some taken).
  { rewrite Hpub. unfold _dispatch_loop. cbn [bus incr_published set_stats set_event_queue
                                              _dispatch_task]. rewrite Ht.
    destruct get as [| |e']; [reflexivity | reflexivity | now destruct (Hget e')]. }
  assert (Hm : matching_handlers (bus (fst (modify_bus (record_history e) taken))) (topic e)
               = matching_handlers (bus s) (topic e)).
  { cbn [fst modify_bus modify bus]. rewrite matching_record_history.
    apply matching_handlers_ext; reflexivity. }
  cbn [loop_run]. rewrite Hstep1. unfold _dispatch_loop at 1.
  change (_dispatch_task (bus taken)) with (Some (Waiting (W:=W) (Got e))).
  cbv beta iota. rewrite Hm. subst n.
  destruct (matching_handlers (bus s) (topic e)) as [|sub subs] eqn:Hsubs.
  - cbn [length repeat app loop_run]. eexists. split; [reflexivity|].
    unfold loop_head, taken. cbn. unfold record_history. cbn.
    destruct (_ <? _); cbn; rewrite Hrun; cbn; repeat split.
  - rewrite (loop_gather_alone e (sub :: subs)) by reflexivity.
    rewrite gather_safe_calls. cbn [loop_run fst]. unfold _dispatch_loop.
    cbn [set_task bus set_dispatch_task _dispatch_task]. eexists. split; [reflexivity|].
    unfold loop_head, taken. cbn. unfold record_history. cbn.
    destruct (_ <? _); cbn; rewrite Hrun; cbn; repeat split.
Qed.
(** *** The drain of a [stop] that the loop task leaves alone *)

Lemma idle_turn (turn : Turn) s s' :
  idle s -> _dispatch_loop turn s = Some s' ->
  idle s'
  /\ _subscriptions (bus s') = _subscriptions (bus s)
  /\ _global_subscriptions (bus s') = _global_subscriptions (bus s)
  /\ _event_queue (bus s') = _event_queue (bus s)
  /\ _stats (bus s') = _stats (bus s)
  /\ world s' = world s.
Proof.
  intros [Hoff Ht]. unfold _dispatch_loop.
  destruct Ht as [Ht|[Ht|Ht]]; rewrite Ht; destruct turn; try discriminate.
  intros [= <-]. unfold loop_head, idle. rewrite Hoff. simpl. rewrite Hoff. tauto.
Qed.

(** The gather of a caller while the loop task is idle: whatever the
    turns, the caller resumes in the state the atomic gather makes, the
    loop task aside. *)
Lemma run_gather_idle {A} e (k : State W -> Co W A) (turns : list Turn) :
  forall (pending : list (_Subscription W)) s s' (r : Res A),
    idle s ->
    run turns (Gather s e pending k) = Some (s', r) ->
    exists turns' s2,
      run turns' (k s2) = Some (s', r)
      /\ idle s2
      /\ _subscriptions (bus s2) = _subscriptions (bus s)
      /\ _global_subscriptions (bus s2) = _global_subscriptions (bus s)
      /\ _event_queue (bus s2) = _event_queue (bus s)
      /\ published (_stats (bus s2)) = published (_stats (bus s))
      /\ dispatched (_stats (bus s2)) = dispatched (_stats (bus s))
      /\ world s2 = run_all e pending (world s).
Proof.
  induction turns as [|turn turns IH]; intros pending s s' r Hidle Hrun;
    [discriminate|].
  cbn [run] in Hrun.
  destruct (turn_of turn (Gather s e pending k)) as [c|] eqn:Hturn; [|discriminate].
  assert (Hloop : forall s1, _dispatch_loop turn s = Some s1 ->
            c = Gather s1 e pending k ->
            exists turns' s2,
              run turns' (k s2) = Some (s', r)
              /\ idle s2
              /\ _subscriptions (bus s2) = _subscriptions (bus s)
              /\ _global_subscriptions (bus s2) = _global_subscriptions (bus s)
              /\ _event_queue (bus s2) = _event_queue (bus s)
              /\ published (_stats (bus s2)) = published (_stats (bus s))
              /\ dispatched (_stats (bus s2)) = dispatched (_stats (bus s))
              /\ world s2 = run_all e pending (world s)).
  { intros s1 Hstep ->.
    destruct (idle_turn turn s s1 Hidle Hstep) as (Hi & F1 & F2 & F3 & F4 & F5).
    destruct (IH pending s1 s' r Hi Hrun) as (turns' & s2 & H & G0 & G1 & G2 & G3 & G4 & G5 & G6).
    exists turns', s2. rewrite <- F1, <- F2, <- F3, <- F4, <- F5.
    repeat (split; [assumption|]). assumption. }
  cbn [turn_of] in Hturn.
  destruct turn, pending as [|sub pending];
    try discriminate;
    try (destruct (_dispatch_loop _ s) as [s1|] eqn:Hstep; [|discriminate];
         injection Hturn as <-; now apply (Hloop s1)).
  - injection Hturn as <-.
    pose proof (safe_call_frame (handler sub) e (subscriber_id sub) s)
      as (F1 & F2 & F3 & F4 & F5 & _).
    pose proof (safe_call_outcome (handler sub) e (subscriber_id sub) s) as Hout.
    destruct (IH pending (fst (_safe_call (handler sub) e (subscriber_id sub) s)) s' r)
      as (turns' & s2 & H & G0 & G1 & G2 & G3 & G4 & G5 & G6); [|exact Hrun|].
    { destruct Hidle as [Hoff Ht]. split; [now rewrite F4 | now rewrite F5]. }
    exists turns', s2. rewrite G1, G2, G3, G4, G5, G6, F1, F2, F3, Hout. cbn.
    repeat (split; [assumption || reflexivity|]).
    repeat split; destruct (snd (handler sub e (world s))); reflexivity.
  - injection Hturn as <-. exists turns, s.
    repeat (split; [assumption || reflexivity|]). reflexivity.
Qed.

Lemma deliver_all_cons b e (q : list Event) (w : W) :
  deliver_all b (e :: q) w = deliver_all b q (run_all e (matching_handlers b (topic e)) w).
Proof. reflexivity. Qed.

(** The drain loop while the loop task is idle: whatever the turns, the
    caller leaves the loop with an empty queue, every event it found
    there dispatched in order. *)
Lemma run_drain_idle {A} (k : State W -> Co W A) :
  forall (q : list Event) (fuel : nat) (turns : list Turn) s s' (r : Res A),
    idle s ->
    items (_event_queue (bus s)) = q ->
    (length q < fuel)%nat ->
    run turns (drain fuel k s) = Some (s', r) ->
    exists turns' s2,
      run turns' (k s2) = Some (s', r)
      /\ idle s2
      /\ _subscriptions (bus s2) = _subscriptions (bus s)
      /\ _global_subscriptions (bus s2) = _global_subscriptions (bus s)
      /\ items (_event_queue (bus s2)) = []
      /\ published (_stats (bus s2)) = published (_stats (bus s))
      /\ dispatched (_stats (bus s2))
         = dispatched (_stats (bus s)) + Z.of_nat (length q)
      /\ world s2 = deliver_all (bus s) q (world s).
Proof.
  induction q as [|e q IH]; intros fuel turns s s' r Hidle Hq Hfuel Hrun;
    (destruct fuel as [|fuel]; [simpl in Hfuel; lia|]).
  - cbn [drain] in Hrun. unfold empty in Hrun. rewrite Hq in Hrun.
    exists turns, s. rewrite Hq. cbn.
    repeat (split; [assumption || reflexivity || lia|]). reflexivity.
  - cbn [drain] in Hrun. unfold empty, get_nowait in Hrun. rewrite Hq in Hrun.
    unfold await_dispatch_event, modify_bus, modify in Hrun. cbn [fst bus world] in Hrun.
    rewrite matching_record_history in Hrun.
    set (b1 := set_event_queue {| items := q; maxsize := maxsize (_event_queue (bus s)) |}
                 (bus s)) in *.
    pose proof (record_history_frame e b1) as (R1 & R2 & R3 & R4 & R5).
    assert (Hm : matching_handlers b1 (topic e) = matching_handlers (bus s) (topic e))
      by (apply matching_handlers_ext; reflexivity).
    rewrite Hm in Hrun.
    assert (Hstats : _stats (record_history e b1) = _stats (bus s))
      by (unfold record_history; destruct (_ <? _); reflexivity).
    assert (Hidle1 : forall w, idle {| bus := record_history e b1; world := w |}).
    { intros w. destruct Hidle as [Hoff Ht]. split; cbn [bus]; [now rewrite R4|now rewrite R5]. }
    simpl in Hfuel.
    assert (Hnext : forall turns1 s1,
              idle s1 ->
              _subscriptions (bus s1) = _subscriptions (bus s) ->
              _global_subscriptions (bus s1) = _global_subscriptions (bus s) ->
              _event_queue (bus s1) = _event_queue (record_history e b1) ->
              published (_stats (bus s1)) = published (_stats (bus s)) ->
              dispatched (_stats (bus s1)) = dispatched (_stats (bus s)) ->
              world s1 = run_all e (matching_handlers (bus s) (topic e)) (world s) ->
              run turns1 (drain fuel k {| bus := incr_dispatched (bus s1); world := world s1 |})
              = Some (s', r) ->
              exists turns' s2,
                run turns' (k s2) = Some (s', r)
                /\ idle s2
                /\ _subscriptions (bus s2) = _subscriptions (bus s)
                /\ _global_subscriptions (bus s2) = _global_subscriptions (bus s)
                /\ items (_event_queue (bus s2)) = []
                /\ published (_stats (bus s2)) = published (_stats (bus s))
                /\ dispatched (_stats (bus s2))
                   = dispatched (_stats (bus s)) + Z.of_nat (length (e :: q))
                /\ world s2 = deliver_all (bus s) (e :: q) (world s)).
    { intros turns1 s1 Hi1 S1 S2 S3 S4 S5 S6 Hrun1.
      destruct (IH fuel turns1 {| bus := incr_dispatched (bus s1); world := world s1 |} s' r)
        as (turns' & s2 & H & G0 & G1 & G2 & G3 & G4 & G5 & G6).
      - destruct Hi1 as [Hoff Ht]. split; assumption.
      - cbn. now rewrite S3, R3.
      - lia.
      - exact Hrun1.
      - exists turns', s2. cbn in G1, G2, G4, G5, G6.
        rewrite G1, G2, G4, G5, G6, S1, S2, S4, S5, S6, deliver_all_cons.
        repeat (split; [assumption || reflexivity|]). split.
        + cbn [length]. lia.
        + apply deliver_all_ext; [exact S1 | exact S2]. }
    destruct (matching_handlers (bus s) (topic e)) as [|sub subs] eqn:Hsubs.
    + apply (Hnext turns {| bus := record_history e b1; world := world s |});
        cbn [bus world]; rewrite ?Hstats; try reflexivity; try assumption.
      apply Hidle1.
    + apply run_gather_idle in Hrun as (turns1 & s1 & Hrun1 & G0 & G1 & G2 & G3 & G4 & G5 & G6);
        [|apply Hidle1].
      cbn [bus world] in *.
      apply (Hnext turns1 s1); try assumption.
      * now rewrite G1, R1.
      * now rewrite G2, R2.
      * now rewrite G4, Hstats.
      * now rewrite G5, Hstats.
Qed.

(** [stop] called before the loop task has had a turn, or on a bus
    whose loop task has ended: if it returns, whatever the turns, every
    event of the queue has been dispatched, in order, to its handlers. *)
Lemma stop_drains_before_first_turn (turns : list Turn) (fuel : nat) s s' (r : Res unit) :
  _running (bus s) = true ->
  _dispatch_task (bus s) = None \/ _dispatch_task (bus s) = Some Created
  \/ _dispatch_task (bus s) = Some Ended ->
  (length (items (_event_queue (bus s))) < fuel)%nat ->
  run turns (stop fuel s) = Some (s', r) ->
  r = Ok tt
  /\ items (_event_queue (bus s')) = []
  /\ world s' = deliver_all (bus s) (items (_event_queue (bus s))) (world s)
  /\ dispatched (_stats (bus s'))
     = dispatched (_stats (bus s)) + Z.of_nat (length (items (_event_queue (bus s))))
  /\ _running (bus s') = false
  /\ _dispatch_task (bus s') = None.
Proof.
  intros Hrun Ht Hfuel Hstop. unfold stop in Hstop. rewrite Hrun in Hstop.
  cbv beta iota delta [negb] in Hstop.
  apply (run_drain_idle _ (items (_event_queue (bus s)))) in Hstop
    as (turns' & s2 & Hk & [Hoff Ht2] & G1 & G2 & G3 & G4 & G5 & G6);
    [|split; [reflexivity | exact Ht] | reflexivity | exact Hfuel].
  cbn [fst modify_bus modify bus world] in *.
  assert (Hd : deliver_all (set_running false (bus s)) (items (_event_queue (bus s))) (world s)
               = deliver_all (bus s) (items (_event_queue (bus s))) (world s))
    by (apply deliver_all_ext; reflexivity).
  rewrite Hd in G6.
  destruct Ht2 as [Ht2|[Ht2|Ht2]]; rewrite Ht2 in Hk; cbn in Hk.
  - destruct turns'; injection Hk as <- <-; repeat split; assumption.
  - destruct turns'; injection Hk as <- <-; repeat split; assumption.
  - destruct turns'; injection Hk as <- <-; repeat split; assumption.
Qed.

Lemma run_drain_alone (q : list Event) :
  forall (fuel : nat) s,
    items (_event_queue (bus s)) = q ->
    (length q < fuel)%nat ->
    exists s2,
      _dispatch_task (bus s2) = _dispatch_task (bus s)
      /\ forall (A : Type) (k : State W -> Co W A) (turns : list Turn),
           run (turns_alone (bus s) q ++ turns) (drain fuel k s) = run turns (k s2).
Proof.
  induction q as [|e q IH]; intros fuel s Hq Hfuel;
    (destruct fuel as [|fuel]; [simpl in Hfuel; lia|]).
  - exists s. split; [reflexivity|]. intros A k turns.
    cbn [drain turns_alone flat_map app]. unfold empty. now rewrite Hq.
  - simpl in Hfuel.
    set (b1 := set_event_queue {| items := q; maxsize := maxsize (_event_queue (bus s)) |}
                 (bus s)).
    set (s1 := fst (_dispatch_event e {| bus := b1; world := world s |})).
    pose proof (dispatch_frame e {| bus := b1; world := world s |})
      as (F1 & F2 & F3 & F4 & F5 & _). fold s1 in F1, F2, F3, F4, F5. cbn [bus] in *.
    destruct (IH fuel s1) as (s2 & Ht & Hk); [now rewrite F3 | lia |].
    exists s2. split; [now rewrite Ht, F5|]. intros A k turns.
    assert (Hm : matching_handlers b1 (topic e) = matching_handlers (bus s) (topic e))
      by (apply matching_handlers_ext; reflexivity).
    assert (Hturns : turns_alone (bus s1) q = turns_alone (bus s) q).
    { unfold turns_alone. apply flat_map_ext. intros e'.
      now rewrite (matching_handlers_ext (bus s1) (bus s)) by (rewrite ?F1, ?F2; reflexivity). }
    change (turns_alone (bus s) (e :: q))
      with (match matching_handlers (bus s) (topic e) with
            | [] => []
            | handlers => repeat TurnHandler (length handlers) ++ [Resume]
            end ++ turns_alone (bus s) q).
    cbn [drain]. unfold empty, get_nowait. rewrite Hq.
    unfold await_dispatch_event. cbn [fst modify_bus modify bus world]. fold b1.
    rewrite matching_record_history, Hm. rewrite <- Hturns, <- (Hk A k turns).
    subst s1. unfold _dispatch_event, bind, modify_bus, modify, gets.
    cbn [fst bus world]. rewrite matching_record_history, Hm.
    destruct (matching_handlers (bus s) (topic e)) as [|sub subs] eqn:Hsubs.
    + reflexivity.
    + rewrite <- !app_assoc. cbn [app]. rewrite gather_alone.
      rewrite !gather_safe_calls. reflexivity.
Qed.

(** Such a [stop] does return when it is left alone. *)
Lemma stop_returns_alone (fuel : nat) s :
  _running (bus s) = true ->
  _dispatch_task (bus s) = None \/ _dispatch_task (bus s) = Some Created
  \/ _dispatch_task (bus s) = Some Ended ->
  (length (items (_event_queue (bus s))) < fuel)%nat ->
  exists s',
    run (turns_alone (bus s) (items (_event_queue (bus s)))) (stop fuel s) = Some (s', Ok tt).
Proof.
  intros Hrun Ht Hfuel. unfold stop. rewrite Hrun. cbv beta iota delta [negb].
  destruct (run_drain_alone (items (_event_queue (bus s))) fuel
              (fst (modify_bus (set_running false) s)) eq_refl Hfuel) as (s2 & Ht2 & Hk).
  cbn [fst modify_bus modify bus world set_running _dispatch_task] in Ht2.
  rewrite <- (app_nil_r (turns_alone _ _)).
  replace (turns_alone (bus s) (items (_event_queue (bus s))))
    with (turns_alone (bus (fst (modify_bus (set_running false) s)))
            (items (_event_queue (bus s)))).
  2: { unfold turns_alone. apply flat_map_ext. intros e.
       now rewrite (matching_handlers_ext _ (bus s)) by reflexivity. }
  rewrite Hk. rewrite Ht2.
  destruct Ht as [Ht|[Ht|Ht]]; rewrite Ht; cbn; eexists; reflexivity.
Qed.

(** *** Topic matching *)

Lemma In_insert_desc sub x (l : list (_Subscription W)) :
  In x (insert_desc sub l) <-> x = sub \/ In x l.
Proof.
  induction l as [|y l IH]; simpl.
  - intuition congruence.
  - destruct (_ <=? _); simpl; rewrite ?IH; intuition congruence.
Qed.

Lemma In_sort_desc x (l : list (_Subscription W)) : In x (sort_desc l) <-> In x l.
Proof.
  unfold sort_desc. induction l as [|y l IH]; simpl; [tauto|].
  rewrite In_insert_desc, IH. intuition congruence.
Qed.

Lemma In_matching b sub (t : string) :
  In sub (matching_handlers b t)
  <-> In sub (exact_matches b t) \/ In sub (wildcard_matches b t)
      \/ In sub (parent_matches b t) \/ In sub (_global_subscriptions b).
Proof.
  unfold matching_handlers, collect_handlers.
  rewrite In_sort_desc, !in_app_iff. tauto.
Qed.

Lemma In_exact b sub (t : string) :
  In sub (exact_matches b t)
  <-> exists subs, dict_get t (_subscriptions b) = Some subs /\ In sub subs.
Proof.
  unfold exact_matches, dict_mem, dict_get_default.
  destruct (dict_get t (_subscriptions b)) as [subs|]; simpl.
  - split; [eauto | now intros (? & [= ->] & ?)].
  - split; [tauto | now intros (? & [=] & _)].
Qed.

Lemma wildcard_nonempty (x : string) : String.eqb (x +:+ ".*") "" = false.
Proof. destruct x; reflexivity. Qed.

Lemma In_wildcard b sub (t : string) :
  In sub (wildcard_matches b t)
  <-> exists i subs,
        (i + 1 < length (split "." t))%nat
        /\ dict_get (join "." (take (i + 1) (split "." t)) +:+ ".*") (_subscriptions b)
           = Some subs
        /\ In sub subs.
Proof.
  unfold wildcard_matches, range. rewrite in_flat_map. split.
  - intros (i & Hi & Hin). apply in_seq in Hi. unfold wildcard_at in Hin.
    destruct (Z.ltb_spec (Z.of_nat i) (Z.of_nat (length (split "." t)) - 1)).
    + rewrite wildcard_nonempty in Hin. simpl in Hin.
      unfold dict_mem, dict_get_default in Hin.
      destruct (dict_get _ (_subscriptions b)) as [subs|] eqn:Hget; [|destruct Hin].
      exists i, subs. repeat split; [lia | assumption..].
    + destruct Hin.
  - intros (i & subs & Hi & Hget & Hin). exists i. split; [apply in_seq; lia|].
    unfold wildcard_at.
    destruct (Z.ltb_spec (Z.of_nat i) (Z.of_nat (length (split "." t)) - 1)); [|lia].
    rewrite wildcard_nonempty. simpl. unfold dict_mem, dict_get_default.
    now rewrite Hget.
Qed.

Lemma In_parent b sub (t : string) :
  In sub (parent_matches b t)
  <-> exists pattern subs,
        In (pattern, subs) (_subscriptions b)
        /\ endswith pattern ".*" = true
        /\ startswith t (str_slice_to (-2) pattern +:+ ".") = true
        /\ str_in pattern (enumerated (split "." t)) = false
        /\ In sub subs.
Proof.
  unfold parent_matches. rewrite in_flat_map. split.
  - intros ([pattern subs] & Hitem & Hin).
    destruct (endswith pattern ".*") eqn:He; [|destruct Hin].
    destruct (startswith t _) eqn:Hs; [|destruct Hin].
    destruct (str_in pattern _) eqn:Hi; [destruct Hin|].
    exists pattern, subs. repeat split; assumption.
  - intros (pattern & subs & Hitem & He & Hs & Hi & Hin).
    exists (pattern, subs). split; [assumption|]. now rewrite He, Hs, Hi.
Qed.

Lemma str_in_enumerated (pattern : string) (parts : list string) :
  str_in pattern (enumerated parts) = true
  <-> exists i, (i < length parts)%nat
                /\ pattern = join "." (take (i + 1) parts) +:+ ".*".
Proof.
  unfold str_in, enumerated, range. rewrite existsb_exists. split.
  - intros (x & Hin & Heq). apply in_map_iff in Hin as (i & <- & Hi).
    apply in_seq in Hi. apply String.eqb_eq in Heq. exists i. split; [lia | assumption].
  - intros (i & Hi & ->). eexists. split; [|apply String.eqb_refl].
    apply in_map_iff. exists i. split; [reflexivity | apply in_seq; lia].
Qed.

(** A topic is the join of its first segments, a dot, and the join of the
    others. *)
Lemma topic_cut (t : string) (i : nat) :
  (i + 1 < length (split "." t))%nat ->
  t = join "." (take (i + 1) (split "." t)) +:+ "." +:+ join "." (drop (i + 1) (split "." t)).
Proof.
  intros Hi. rewrite <- join_app.
  - rewrite take_drop. symmetry. apply (join_split "."%char).
  - intros H. apply (f_equal length) in H. rewrite length_take in H. simpl in H. lia.
  - intros H. apply (f_equal length) in H. rewrite length_drop in H. simpl in H. lia.
Qed.

Lemma not_startswith_longer (t x : string) : startswith t (t +:+ String "." x) = false.
Proof.
  destruct (startswith t (t +:+ String "." x)) eqn:H; [|reflexivity].
  apply startswith_inv in H as [r H]. apply (f_equal String.length) in H.
  rewrite !length_append in H. simpl in H. lia.
Qed.

Lemma wildcard_dot (T : string) : T +:+ ".*" = (T +:+ ".") +:+ "*".
Proof. now rewrite append_assoc. Qed.

Lemma registered_wildcard b sub (T : string) :
  well_formed b -> registered b sub -> topic_pattern sub = T +:+ ".*" ->
  exists subs, dict_get (T +:+ ".*") (_subscriptions b) = Some subs /\ In sub subs.
Proof.
  intros ((Hnd & Hkeys & Hsubs) & Hglob) [(subs & Hitem & Hin)|Hg] Hpat.
  - exists subs. rewrite <- Hpat. split; [now apply In_dict_get | assumption].
  - apply Hglob in Hg. rewrite Hpat in Hg. destruct T as [|? [|? ?]]; discriminate.
Qed.

(** A wildcard subscription on "T.*" receives exactly the topics that
    start with "T.". *)
Lemma wildcard_delivery b sub (T t : string) :
  well_formed b -> registered b sub -> topic_pattern sub = T +:+ ".*" ->
  In sub (matching_handlers b t) <-> startswith t (T +:+ ".") = true.
Proof.
  intros Hwf Hreg Hpat.
  destruct (registered_wildcard b sub T Hwf Hreg Hpat) as (subs & Hget & Hin).
  destruct Hwf as ((Hnd & Hkeys & Hsubs) & Hglob).
  rewrite In_matching, In_exact, In_wildcard, In_parent. split.
  - intros [(subs' & Hget' & Hin')|[(i & subs' & Hi & Hget' & Hin')
           |[(pattern & subs' & Hitem & He & Hs & Hi & Hin')|Hg]]].
    + apply dict_get_In in Hget'. pose proof (Hsubs _ _ _ Hget' Hin') as E.
      rewrite <- E, Hpat, wildcard_dot. apply startswith_append.
    + apply dict_get_In in Hget'. pose proof (Hsubs _ _ _ Hget' Hin') as E.
      rewrite Hpat in E. apply append_inv_tail in E. subst T.
      rewrite (topic_cut t i Hi) at 1. rewrite <- append_assoc. apply startswith_append.
    + pose proof (Hsubs _ _ _ Hitem Hin') as E. rewrite Hpat in E. subst pattern.
      now rewrite strip_wildcard in Hs.
    + apply Hglob in Hg. rewrite Hpat in Hg. destruct T as [|? [|? ?]]; discriminate.
  - intros Hstart.
    destruct (str_in (T +:+ ".*") (enumerated (split "." t))) eqn:Henum.
    + apply str_in_enumerated in Henum as (i & Hi & E).
      apply append_inv_tail in E.
      destruct (Nat.eq_dec (i + 1)%nat (length (split "." t))) as [Hlast|Hlast].
      * rewrite Hlast, firstn_all in E. rewrite (join_split "."%char) in E. subst T.
        change (t +:+ ".") with (t +:+ String "." "") in Hstart.
        now rewrite not_startswith_longer in Hstart.
      * right. left. exists i, subs. repeat split; [lia | | assumption].
        now rewrite <- E.
    + right. right. left. exists (T +:+ ".*"), subs.
      repeat split; try assumption.
      * now apply dict_get_In.
      * apply endswith_append.
      * now rewrite strip_wildcard.
Qed.

Lemma exact_delivery b sub (t : string) :
  well_formed b -> registered b sub -> exact_pattern (topic_pattern sub) ->
  In sub (matching_handlers b t) <-> t = topic_pattern sub.
Proof.
  intros ((Hnd & Hkeys & Hsubs) & Hglob) Hreg [Hstar Hwild].
  rewrite In_matching, In_exact, In_wildcard, In_parent. split.
  - intros [(subs' & Hget' & Hin')|[(i & subs' & Hi & Hget' & Hin')
           |[(pattern & subs' & Hitem & He & Hs & Hi & Hin')|Hg]]].
    + apply dict_get_In in Hget'. symmetry. exact (Hsubs _ _ _ Hget' Hin').
    + apply dict_get_In in Hget'. pose proof (Hsubs _ _ _ Hget' Hin') as E.
      rewrite E, endswith_append in Hwild. discriminate.
    + pose proof (Hsubs _ _ _ Hitem Hin') as E. congruence.
    + apply Hglob in Hg. congruence.
  - intros ->. destruct Hreg as [(subs & Hitem & Hin)|Hg].
    + left. exists subs. split; [now apply In_dict_get | assumption].
    + apply Hglob in Hg. congruence.
Qed.

(** What the dispatch of an event does with a subscription that is, or
    is not, among its handlers. *)
Lemma In_delivers b e sub :
  In sub (matching_handlers b (topic e)) -> delivers b e sub.
Proof.
  intros (before & after & Hsplit)%in_split. exists before, after.
  split; [exact Hsplit|]. intros s <-. eexists. split; [apply dispatch_event_closed|].
  cbn [world]. rewrite Hsplit, run_all_app. reflexivity.
Qed.

Lemma not_In_passes_over b e sub :
  ~ In sub (matching_handlers b (topic e)) -> passes_over b e sub.
Proof.
  intros Hnot. split; [exact Hnot|]. intros s <-.
  eexists. split; [apply dispatch_event_closed | reflexivity].
Qed.

(** C1. On a bus whose subscription tables are as [subscribe] and
    [unsubscribe] leave them, for a registered subscription and the
    dispatch of an event ([_dispatch_event], which is what befalls a
    published event).  If the pattern of the subscription is "T.*", the
    dispatch of an event on "T." followed by anything, one more segment
    or several, calls its handler with the event, and the dispatch of an
    event on a topic that does not start with "T." does not call it.  If
    the pattern is an exact one, the dispatch calls its handler when the
    topic is the pattern, and does not when it is not.  If the pattern
    is "*", the dispatch of every event calls its handler. *)
Theorem topic_matching b sub :
  well_formed b -> registered b sub ->
  (forall T : string, topic_pattern sub = T +:+ ".*" ->
     (forall (e : Event) (x : string), topic e = T +:+ "." +:+ x -> delivers b e sub)
     /\ (forall e : Event, startswith (topic e) (T +:+ ".") = false ->
           passes_over b e sub))
  /\ (exact_pattern (topic_pattern sub) ->
      forall e : Event,
        (topic e = topic_pattern sub -> delivers b e sub)
        /\ (topic e <> topic_pattern sub -> passes_over b e sub))
  /\ (topic_pattern sub = "*" ->
      forall e : Event, delivers b e sub).
Proof.
  intros Hwf Hreg. split; [|split].
  - intros T Hpat. split.
    + intros e x He. apply In_delivers.
      apply (wildcard_delivery b sub T _ Hwf Hreg Hpat).
      rewrite He, <- append_assoc. apply startswith_append.
    + intros e HU. apply not_In_passes_over. intros Hin.
      apply (wildcard_delivery b sub T _ Hwf Hreg Hpat) in Hin. congruence.
  - intros Hex e. split.
    + intros He. apply In_delivers. now apply exact_delivery.
    + intros He. apply not_In_passes_over. intros Hin.
      now apply exact_delivery in Hin.
  - intros Hpat e. apply In_delivers. apply In_matching. right. right. right.
    destruct Hwf as ((Hnd & Hkeys & Hsubs) & Hglob).
    destruct Hreg as [(subs & Hitem & Hin)|Hg]; [|assumption].
    pose proof (Hkeys _ _ Hitem). congruence.
Qed.

(** *** The tables [subscribe] and [unsubscribe] build *)

Lemma table_ok_set (d : dict (list (_Subscription W))) (k : string)
    (l : list (_Subscription W)) :
  table_ok d -> k <> "*" ->
  (forall x, In x l -> topic_pattern x = k) ->
  table_ok (dict_set k l d).
Proof.
  intros (Hnd & Hkeys & Hsubs) Hk Hl. split; [now apply NoDup_dict_set|]. split.
  - intros k' subs Hitem. apply In_dict_set in Hitem as [[-> ->]|Hitem]; [assumption|].
    eapply Hkeys; eassumption.
  - intros k' subs x Hitem Hx. apply In_dict_set in Hitem as [[-> ->]|Hitem].
    + now apply Hl.
    + eapply Hsubs; eassumption.
Qed.

Lemma table_ok_del (d : dict (list (_Subscription W))) (k : string) :
  table_ok d -> table_ok (dict_del k d).
Proof.
  intros (Hnd & Hkeys & Hsubs). split; [now apply NoDup_dict_del|]. split.
  - intros k' subs Hitem. apply In_dict_del in Hitem. eapply Hkeys; eassumption.
  - intros k' subs x Hitem Hx. apply In_dict_del in Hitem. eapply Hsubs; eassumption.
Qed.

Lemma table_ok_default (d : dict (list (_Subscription W))) (k : string) x :
  table_ok d -> In x (dict_get_default k [] d) -> topic_pattern x = k.
Proof.
  intros (Hnd & Hkeys & Hsubs). unfold dict_get_default.
  destruct (dict_get k d) as [l|] eqn:Hget; [|intros []].
  intros Hx. apply dict_get_In in Hget. exact (Hsubs _ _ _ Hget Hx).
Qed.

Lemma well_formed_init (max_queue_size : Z) : well_formed (init (W := W) max_queue_size).
Proof.
  split; [split; [|split]|]; simpl.
  - apply NoDup_nil_2.
  - intros ? ? [].
  - intros ? ? ? [].
  - intros ? [].
Qed.

Lemma well_formed_subscribe b (fresh_id topic : string) (h : EventHandler W)
    (sid : string) (prio : EventPriority) :
  well_formed b -> well_formed (fst (subscribe fresh_id topic h sid prio b)).
Proof.
  intros [Htab Hglob]. unfold subscribe.
  destruct (String.eqb_spec topic "*") as [->|Hne]; simpl.
  - split; [assumption|]. intros x [Hx|[<-|[]]]%in_app_iff; [now apply Hglob | reflexivity].
  - split; [|assumption].
    assert (Hd : table_ok (if dict_mem topic (_subscriptions b) then _subscriptions b
                           else dict_set topic [] (_subscriptions b))).
    { destruct (dict_mem topic (_subscriptions b)); [assumption|].
      apply table_ok_set; [assumption | assumption | intros ? []]. }
    apply table_ok_set; [assumption | assumption|].
    intros x [Hx|[<-|[]]]%in_app_iff; [|reflexivity].
    eapply table_ok_default; eassumption.
Qed.

Lemma table_ok_unsubscribe_topics (sid : string) (keys : list string) :
  forall (d : dict (list (_Subscription W))) (removed : Z),
    table_ok d -> Forall (fun k => k <> "*") keys ->
    table_ok (fst (unsubscribe_topics sid keys d removed)).
Proof.
  induction keys as [|k keys IH]; intros d removed Hd Hkeys; simpl; [assumption|].
  apply Forall_cons in Hkeys as [Hk Hkeys].
  assert (Hset : table_ok (dict_set k (List.filter (keep sid) (dict_get_default k [] d)) d)).
  { apply table_ok_set; [assumption | assumption|].
    intros x [Hx _]%filter_In. eapply table_ok_default; eassumption. }
  apply IH; [|assumption].
  destruct (List.filter (keep sid) (dict_get_default k [] d)); [now apply table_ok_del | assumption].
Qed.

Lemma well_formed_unsubscribe b (sid : string) :
  well_formed b -> well_formed (fst (unsubscribe sid b)).
Proof.
  intros [Htab Hglob]. unfold unsubscribe.
  pose proof (table_ok_unsubscribe_topics sid (dict_keys (_subscriptions b))
                (_subscriptions b) 0 Htab) as Hloop.
  destruct (unsubscribe_topics sid (dict_keys (_subscriptions b)) (_subscriptions b) 0)
    as [d removed]. simpl in *.
  split.
  - apply Hloop. apply Forall_forall. intros k Hk%list_elem_of_In.
    apply in_map_iff in Hk as ([k' l] & <- & Hitem). simpl.
    destruct Htab as (_ & Hkeys & _). eapply Hkeys; eassumption.
  - intros x [Hx _]%filter_In. now apply Hglob.
Qed.

Lemma well_formed_ext b b' :
  _subscriptions b' = _subscriptions b ->
  _global_subscriptions b' = _global_subscriptions b ->
  well_formed b -> well_formed b'.
Proof. unfold well_formed. now intros -> ->. Qed.

(** Every bus the operations build from a new one is well formed. *)
Lemma reachable_well_formed b : reachable b -> well_formed b.
Proof.
  induction 1 as [| | |b e Hb IH|b w Hb IH|b w e Hb IH|b w turn s' Hb IH Hturn
                  |b w turns fuel s' r Hb IH Hstop].
  - apply well_formed_init.
  - now apply well_formed_subscribe.
  - now apply well_formed_unsubscribe.
  - apply (well_formed_ext b); [| |exact IH];
      unfold publish_nowait, put_nowait; destruct (full (_event_queue b)); reflexivity.
  - apply (well_formed_ext b); [| |exact IH];
      unfold start, bind, gets, modify_bus, modify, ret; simpl;
      destruct (_running b); reflexivity.
  - pose proof (dispatch_frame e {| bus := b; world := w |}) as (F1 & F2 & _).
    now apply (well_formed_ext b).
  - apply dispatch_loop_frame in Hturn as (F1 & F2 & _).
    now apply (well_formed_ext b).
  - apply stop_frame in Hstop as (_ & F1 & F2 & _).
    now apply (well_formed_ext b).
Qed.

(** The subscription [subscribe] makes is registered. *)
Lemma subscribe_registered b (fresh_id topic : string) (h : EventHandler W)
    (sid : string) (prio : EventPriority) :
  registered (fst (subscribe fresh_id topic h sid prio b))
    {| handler := h;
       subscriber_id := if String.eqb sid "" then fresh_id else sid;
       topic_pattern := topic;
       sub_priority := prio |}.
Proof.
  unfold subscribe, registered.
  destruct (String.eqb topic "*"); simpl.
  - right. apply in_app_iff. right. now left.
  - left. eexists. split.
    + apply dict_get_In, dict_get_set_same.
    + apply in_app_iff. right. now left.
Qed.

End Facts.

(** *** The properties on the scenarios *)

Import Scenarios.

(** The test of error isolation: a faulty and a sound handler on "test",
    the faulty one first.  Both are called, one error is counted. *)
Example error_isolation_on_test :
  fst (_dispatch_event (event_on "test" "e1") {| bus := bus0; world := [] |})
  = {| bus := incr_dispatched (incr_errors (record_history (event_on "test" "e1") bus0));
       world := [("bad", "test"); ("good", "test"); ("all", "test")] |}.
Proof. vm_compute. reflexivity. Qed.

Lemma bus0_well_formed : well_formed bus0.
Proof.
  split; [split; [|split]|].
  - apply (bool_decide_unpack _). vm_compute. exact I.
  - vm_compute. intros k subs [H|[H|[]]]; injection H as <- _; discriminate.
  - vm_compute. intros k subs x [H|[H|[]]] Hx; injection H as <- <-;
      repeat (destruct Hx as [<-|Hx]; [reflexivity|]); destruct Hx.
  - vm_compute. intros x [<-|[]]. reflexivity.
Defined.

Lemma wild_sub_registered : registered bus0 wild_sub.
Proof. left. eexists. split; [left; reflexivity | left; reflexivity]. Defined.

Lemma topic_matching_witness :
  well_formed bus0 /\ registered bus0 wild_sub
  /\ delivers bus0 (event_on "task.created" "e1") wild_sub
  /\ delivers bus0 (event_on "task.sub.deep" "e2") wild_sub
  /\ passes_over bus0 (event_on "test" "e3") wild_sub
  /\ passes_over bus0 (event_on "taskforce.new" "e4") wild_sub.
Proof.
  split; [exact bus0_well_formed|]. split; [exact wild_sub_registered|].
  destruct (topic_matching bus0 wild_sub bus0_well_formed wild_sub_registered)
    as (Hwild & _).
  destruct (Hwild "task" eq_refl) as [Hin Hout].
  split; [exact (Hin (event_on "task.created" "e1") "created" eq_refl)|].
  split; [exact (Hin (event_on "task.sub.deep" "e2") "sub.deep" eq_refl)|].
  split; [exact (Hout (event_on "test" "e3") eq_refl)|].
  exact (Hout (event_on "taskforce.new" "e4") eq_refl).
Defined.

(** The dispatch of an event on "task.sub.deep" on that bus: the handler
    of the subscription on "task.*" is called, then the global one. *)
Example wildcard_dispatch_on_bus0 :
  _dispatch_event (event_on "task.sub.deep" "e2") {| bus := bus0; world := [] |}
  = ({| bus := incr_dispatched (record_history (event_on "task.sub.deep" "e2") bus0);
        world := [("wild", "task.sub.deep"); ("all", "task.sub.deep")] |}, Ok tt).
Proof. vm_compute. reflexivity. Qed.

(** C7, at an input on which the code does not do it.  The bus is
    started, the loop task has had its first turn and stands in
    [wait_for], and two events are published: e1 on "test", which three
    handlers match, and e2 on "task.sub.deep", which two handlers match.
    Then [stop] is called, and the turns come in the order in which the
    event loop of CPython 3.11 takes them: the get of the loop task,
    which takes e2 from the queue while [stop] awaits the handlers of e1;
    the three handlers of e1; the loop task, which records e2 and awaits
    its handlers; the caller, who finds the queue empty and cancels the
    loop task.  Each of these turns is one that can be taken, [stop]
    returns, the queue is empty, the bus is halted and has no loop task,
    and e2 is in the history; but only the handlers of e1 have been
    called and one dispatch is counted: the handlers of e2 were
    cancelled with the loop task before they ran. *)
Theorem stop_loses_queued_event :
  _dispatch_loop TurnLoop state_started = Some state_waiting
  /\ _running (bus state_parked) = true
  /\ map event_id (items (_event_queue (bus state_parked))) = ["e1"; "e2"]
  /\ map subscriber_id (matching_handlers (bus state_parked) "test")
     = ["bad"; "good"; "all"]
  /\ map subscriber_id (matching_handlers (bus state_parked) "task.sub.deep")
     = ["wild"; "all"]
  /\ exists s',
       run [TurnGet; TurnHandler; TurnHandler; TurnHandler; TurnLoop; Resume]
         (stop 3 state_parked)
       = Some (s', Ok tt)
       /\ items (_event_queue (bus s')) = []
       /\ _running (bus s') = false
       /\ _dispatch_task (bus s') = None
       /\ map event_id (_event_history (bus s')) = ["e1"; "e2"]
       /\ world s' = [("bad", "test"); ("good", "test"); ("all", "test")]
       /\ dispatched (_stats (bus s')) = dispatched (_stats (bus state_parked)) + 1
       /\ deliver_all (bus state_parked) (items (_event_queue (bus state_parked)))
            (world state_parked)
          = world s' ++ [("wild", "task.sub.deep"); ("all", "task.sub.deep")].
Proof.
  split; [reflexivity|]. split; [reflexivity|]. split; [reflexivity|].
  split; [reflexivity|]. split; [reflexivity|].
  eexists. split; [vm_compute; reflexivity|]. repeat split.
Qed.

(** The loop task along these turns: when the caller resumes, it has
    taken e2 and is suspended in the gather, neither handler of e2
    having run; this is the task that [stop] cancels. *)
Example loop_task_when_cancelled :
  (fun c => match c with
            | Gather s e pending k =>
                Some (_dispatch_task (bus s), items (_event_queue (bus s)), world s)
            | _ => None
            end)
    <$> after [TurnGet; TurnHandler; TurnHandler; TurnHandler; TurnLoop] (stop 3 state_parked)
  = Some (Some (Some (Gathering (event_on "task.sub.deep" "e2") [wild_sub; all_sub]),
                [],
                [("bad", "test"); ("good", "test"); ("all", "test")])).
Proof. vm_compute. reflexivity. Qed.

(** The test of the drain: the events are published and [stop] is called
    before the loop task has had a turn.  At its first turn the loop
    task finds the bus not running and ends, and the drain delivers the
    two events, in order, each to its handlers. *)
Example stop_on_queued_bus :
  (world ∘ fst)
    <$> run [TurnLoop; TurnHandler; TurnHandler; TurnHandler; Resume;
             TurnHandler; TurnHandler; Resume]
          (stop 3 state_queued)
  = Some [("bad", "test"); ("good", "test"); ("all", "test");
          ("wild", "task.sub.deep"); ("all", "task.sub.deep")].
Proof. vm_compute. reflexivity. Qed.

Lemma recent_events_suffix_witness :
  1 <= 2
  /\ (exists older, _event_history bus_history = older ++ recent_events 2 bus_history)
  /\ Z.of_nat (length (recent_events 2 bus_history))
     = Z.min 2 (Z.of_nat (length (_event_history bus_history)))
  /\ recent_events 0 bus_history = _event_history bus_history.
Proof.
  split; [lia|]. apply (recent_events_suffix bus_history 2). lia.
Defined.

End EventBusFacts.

(** ** The agent runtime *)

Module AgentFacts.
Import Py PyFacts Agent.
Import EventBus (Event, NORMAL).

Section Facts.

Context {P Class : Type} (uuid4_hex12 : nat -> string) (time_time : nat -> Q).
Implicit Types (w : World P Class) (e : Event).

(** C3, as the code has it. For every agent, every [on_event] and every
    event whose handling raises: [_handle_event] does not raise; the agent
    is put in the state ERROR and is still in ERROR when [_handle_event]
    returns; and exactly one event has been published meanwhile, on
    "agent.error", whose payload holds the agent id, the topic of the
    triggering event and the fixed text "Processing failed", whatever the
    exception was. *)
Theorem fault_becomes_error_event (handle : Event -> M P Class unit) e w w1 (exn : Exn) :
  handle e (set_state PROCESSING w) = (w1, Raise exn) ->
  exists w',
    _handle_event uuid4_hex12 time_time handle e w = (w', Ok tt)
    /\ state (self w') = ERROR
    /\ bus_published w' = bus_published w1 ++ [error_event uuid4_hex12 time_time w1 e]
    /\ agent_id (self w') = agent_id (self w1)
    /\ _message_history (self w') = _message_history (self w1).
Proof.
  intros Hraise. eexists. split.
  - unfold _handle_event, try_finally, try_except, bind, modify, gets, emit, bus_publish.
    simpl. rewrite Hraise. simpl. reflexivity.
  - simpl. repeat split.
Qed.

(** The handling that returns: the agent is back in IDLE, unless the
    handling itself moved it out of PROCESSING. *)
Lemma handled_returns_to_idle (handle : Event -> M P Class unit) e w w1 :
  handle e (set_state PROCESSING w) = (w1, Ok tt) ->
  state (self w1) = PROCESSING ->
  _handle_event uuid4_hex12 time_time handle e w = (set_state IDLE w1, Ok tt).
Proof.
  intros Hok Hst.
  unfold _handle_event, try_finally, try_except, bind, modify, gets.
  simpl. rewrite Hok. simpl. now rewrite Hst.
Qed.

(** Whatever the handling does, [_handle_event] returns: a fault of an
    agent never reaches the bus that called it. *)
Lemma handle_event_never_raises (handle : Event -> M P Class unit) e w :
  snd (_handle_event uuid4_hex12 time_time handle e w) = Ok tt.
Proof.
  unfold _handle_event, try_finally, try_except, bind, modify, gets, emit, bus_publish, ret.
  simpl. destruct (handle e (set_state PROCESSING w)) as [w1 [[]|exn]]; simpl.
  - destruct (AgentState_eqb (state (self w1)) PROCESSING); reflexivity.
  - reflexivity.
Qed.

(** *** History trimming *)

Lemma Role_eqb_eq (a b : Role) : Role_eqb a b = true <-> a = b.
Proof. destruct a, b; simpl; split; congruence. Qed.

Lemma filter_system (sys rest : list Message) :
  Forall (fun m => role m = SYSTEM) sys ->
  Forall (fun m => role m <> SYSTEM) rest ->
  List.filter (fun m => Role_eqb (role m) SYSTEM) (sys ++ rest) = sys.
Proof.
  intros Hsys Hrest. induction Hsys as [|m sys Hm Hsys IH]; simpl.
  - induction Hrest as [|m rest Hm Hrest IH]; simpl; [reflexivity|].
    destruct (Role_eqb (role m) SYSTEM) eqn:E; [|exact IH].
    apply Role_eqb_eq in E. contradiction.
  - rewrite Hm. simpl. now rewrite IH.
Qed.

(** The trimming in the configurations it was written for: the system
    messages come first and there are fewer of them than [max_history].
    Once the history with the new input is longer than [max_history], it
    becomes the system messages followed by the most recent of the other
    messages, in their order, [max_history] messages in all. *)
Lemma remember_trims (max_history : Z) (sys rest : list Message) (input : Value) :
  Forall (fun m => role m = SYSTEM) sys ->
  Forall (fun m => role m <> SYSTEM) rest ->
  Z.of_nat (length sys) < max_history ->
  max_history < Z.of_nat (length sys + length rest + 1) ->
  exists dropped kept,
    rest ++ [Message_ USER input] = dropped ++ kept
    /\ remember max_history input (sys ++ rest) = sys ++ kept
    /\ Z.of_nat (length (sys ++ kept)) = max_history.
Proof.
  intros Hsys Hrest Hlo Hhi.
  set (d := (length sys + length rest + 1 - Z.to_nat max_history)%nat).
  exists (take d (rest ++ [Message_ USER input])), (drop d (rest ++ [Message_ USER input])).
  split; [now rewrite take_drop|].
  assert (Hlen : length ((sys ++ rest) ++ [Message_ USER input])
                 = (length sys + length rest + 1)%nat).
  { rewrite !length_app. simpl. lia. }
  split.
  - unfold remember. rewrite Hlen.
    destruct (Z.ltb_spec max_history (Z.of_nat (length sys + length rest + 1))); [|lia].
    unfold trim. rewrite <- app_assoc.
    rewrite filter_system; [|assumption|].
    + f_equal. rewrite slice_from_neg by lia.
      rewrite app_assoc, Hlen, <- app_assoc.
      replace (length sys + length rest + 1
               - Z.to_nat (Z.min (max_history - Z.of_nat (length sys))
                                 (Z.of_nat (length sys + length rest + 1))))%nat
        with (length sys + d)%nat by (subst d; lia).
      now rewrite drop_app_add.
    + apply Forall_app. split; [assumption|]. constructor; [discriminate | constructor].
  - rewrite length_app, length_drop, length_app. simpl. subst d. lia.
Qed.

End Facts.

(** *** The properties on the scenarios *)

Import Scenarios.

(** The claim C3 as the specification states it fails here: the provider
    of this agent raises, so the default handling of a task event raises,
    and when [_handle_event] has returned the agent is in ERROR, not in
    IDLE. *)
Lemma agent_in_error_after_fault :
  (exists w1 exn,
     on_event uuid4_hex12 time_time task_created (set_state PROCESSING failing_world)
     = (w1, Raise exn))
  /\ state (self (fst (_handle_event uuid4_hex12 time_time
                         (on_event uuid4_hex12 time_time) task_created failing_world)))
     <> IDLE.
Proof.
  split.
  - eexists. eexists. vm_compute. reflexivity.
  - vm_compute. discriminate.
Qed.

Lemma fault_becomes_error_event_witness :
  on_event uuid4_hex12 time_time task_created (set_state PROCESSING failing_world)
  = (failing_world_raised, Raise (Exception "401 Unauthorized for key sk-secret"))
  /\ exists w',
       _handle_event uuid4_hex12 time_time (on_event uuid4_hex12 time_time)
         task_created failing_world
       = (w', Ok tt)
       /\ state (self w') = ERROR
       /\ bus_published w'
          = bus_published failing_world_raised
            ++ [error_event uuid4_hex12 time_time failing_world_raised task_created]
       /\ agent_id (self w') = agent_id (self failing_world_raised)
       /\ _message_history (self w') = _message_history (self failing_world_raised).
Proof.
  assert (H : on_event uuid4_hex12 time_time task_created
                (set_state PROCESSING failing_world)
              = (failing_world_raised,
                 Raise (Exception "401 Unauthorized for key sk-secret")))
    by (vm_compute; reflexivity).
  split; [exact H|].
  exact (fault_becomes_error_event uuid4_hex12 time_time
           (on_event uuid4_hex12 time_time) task_created
           failing_world failing_world_raised _ H).
Defined.

(** C6 at the input where the code departs from it: [max_history = 1]
    and a system prompt.  The first think step finds a history of two
    messages, longer than the cap; the slice [history[-0:]] then is the
    whole history, so the trimmed history is the system message twice and
    the input, three messages, and ten cycles leave 31 messages where the
    system message and at most one other were to remain. *)
Theorem history_grows_at_cap_one :
  transcript cap_one_world = [(SYSTEM, VStr "System prompt")]
  /\ map role (remember 1 (VStr "Message 0") (_message_history (self cap_one_world)))
     = [SYSTEM; SYSTEM; USER]
  /\ transcript (think_cycles 1 cap_one_world)
     = [(SYSTEM, VStr "System prompt"); (SYSTEM, VStr "System prompt");
        (USER, VStr "Message 0"); (ASSISTANT, VStr "Mock response #1")]
  /\ length (transcript (think_cycles 10 cap_one_world)) = 31%nat.
Proof. vm_compute. repeat split. Qed.

(** The instance the specification and the test name: [max_history = 5],
    a system prompt, ten think cycles.  The history is the system message
    and the five most recent messages, in their order. *)
Example history_after_ten_cycles :
  transcript (think_cycles 10 capped_world)
  = [(SYSTEM, VStr "System prompt");
     (ASSISTANT, VStr "Mock response #8");
     (USER, VStr "Message 8");
     (ASSISTANT, VStr "Mock response #9");
     (USER, VStr "Message 9");
     (ASSISTANT, VStr "Mock response #10")].
Proof. vm_compute. reflexivity. Qed.

End AgentFacts.

(** ** The config loader *)

Module ConfigFacts.
Import Py PyFacts Config.

(** The strings [resolve_env_vars] takes for a placeholder are those of
    the form "${" name "}". *)
Lemma placeholder_form (v : string) :
  startswith v "${" && endswith v "}" = true <-> exists name, v = "${" +:+ name +:+ "}".
Proof.
  split.
  - intros [Hs He]%andb_prop.
    apply startswith_inv in Hs as [r ->]. apply endswith_inv in He as [a Ha].
    destruct a as [|c1 [|c2 a]].
    + discriminate.
    + rewrite !append_cons, !append_nil_l in Ha. injection Ha as _ Ha. discriminate.
    + rewrite !append_cons, !append_nil_l in Ha. injection Ha as <- <- ->.
      now exists a.
  - intros [name ->]. apply andb_true_intro. split.
    + apply startswith_append.
    + rewrite <- append_assoc. apply endswith_append.
Qed.

(** The lookup of a name that the environment can encode. *)
Lemma environ_get_encodable (env : environ) (name key default : string) :
  encodekey env name = Ok key ->
  environ_get env name default
  = Ok (match _data env !! key with
        | Some value => decodevalue env value
        | None => default
        end).
Proof. unfold environ_get. intros ->. now destruct (_data env !! key). Qed.

(** C8, as the code has it.  [resolve_env_vars] maps a string that is as
    a whole a placeholder "${VAR}", VAR being a name that the environment
    can encode as a key, to the value of VAR in the environment, and to
    the empty string, with one warning, when VAR is unset or empty.  It
    returns any other string unchanged and without warning, also one that
    merely contains a placeholder, and likewise a value that is no
    string.  So the resolution has a result for every value, the
    placeholders apart whose name cannot be encoded.  Of the fields of a
    provider definition, the loader passes only [api_key] through it, and
    builds a config whenever that resolution has a result: every other
    field, [model], [base_url], [temperature], [max_tokens], [timeout]
    and [extra], is what the document gives, or the default. *)
Theorem placeholder_resolution (env : environ) :
  (forall name key : string,
     encodekey env name = Ok key ->
     resolve_env_vars env (VStr ("${" +:+ name +:+ "}"))
     = match _data env !! key with
       | Some value =>
           Ok (VStr (decodevalue env value),
               if String.eqb (decodevalue env value) ""
               then [Warning ("Environment variable not set: " +:+ name)]
               else [])
       | None => Ok (VStr "", [Warning ("Environment variable not set: " +:+ name)])
       end)
  /\ (forall v : string,
        (exists name, v = "${" +:+ name +:+ "}")
        \/ resolve_env_vars env (VStr v) = Ok (VStr v, []))
  /\ (forall value : Value,
        (exists v, value = VStr v) \/ resolve_env_vars env value = Ok (value, []))
  /\ (forall value : Value,
        (exists name exn, value = VStr ("${" +:+ name +:+ "}")
                          /\ encodekey env name = Raise exn)
        \/ exists resolved, resolve_env_vars env value = Ok resolved)
  /\ (forall provider_def : dict Value,
        match resolve_env_vars env (dict_get_default "api_key" (VStr "") provider_def) with
        | Raise exn => provider_config env provider_def = Raise exn
        | Ok (key, log) =>
            provider_config env provider_def
            = Ok ({| api_key := key;
                     model := dict_get_default "model" (VStr "") provider_def;
                     base_url := dict_get_default "base_url" VNone provider_def;
                     temperature :=
                       dict_get_default "temperature" (VFloat (7 # 10)) provider_def;
                     max_tokens := dict_get_default "max_tokens" (VInt 4096) provider_def;
                     timeout := dict_get_default "timeout" (VFloat 60) provider_def;
                     extra := dict_get_default "extra" (VDict []) provider_def |}, log)
        end)
  /\ (forall (provider_def : dict Value) (field : string) (value : Value),
        field <> "api_key" ->
        match provider_config env provider_def,
              provider_config env (dict_set field value provider_def) with
        | Ok (pc, log), Ok (pc', log') => api_key pc' = api_key pc /\ log' = log
        | Raise exn, Raise exn' => exn' = exn
        | _, _ => False
        end).
Proof.
  assert (Hplace : forall name key, encodekey env name = Ok key ->
            resolve_env_vars env (VStr ("${" +:+ name +:+ "}"))
            = match _data env !! key with
              | Some value =>
                  Ok (VStr (decodevalue env value),
                      if String.eqb (decodevalue env value) ""
                      then [Warning ("Environment variable not set: " +:+ name)]
                      else [])
              | None => Ok (VStr "", [Warning ("Environment variable not set: " +:+ name)])
              end).
  { intros name key Hkey. unfold resolve_env_vars.
    assert (Hform : startswith ("${" +:+ name +:+ "}") "${"
                    && endswith ("${" +:+ name +:+ "}") "}" = true)
      by (apply placeholder_form; now exists name).
    rewrite Hform, strip_placeholder, (environ_get_encodable env name key "" Hkey).
    now destruct (_data env !! key). }
  assert (Hother : forall v, (exists name, v = "${" +:+ name +:+ "}")
                             \/ resolve_env_vars env (VStr v) = Ok (VStr v, [])).
  { intros v. destruct (startswith v "${" && endswith v "}") eqn:Hform.
    - left. now apply placeholder_form.
    - right. unfold resolve_env_vars. now rewrite Hform. }
  split; [exact Hplace|]. split; [exact Hother|]. split; [|split; [|split]].
  - intros value. destruct value; try (now right). left. now eexists.
  - intros value. destruct value; try (right; eexists; reflexivity).
    destruct (Hother s) as [[name ->] | Hs]; [|right; eexists; exact Hs].
    destruct (encodekey env name) as [key|exn] eqn:Hkey.
    + right. rewrite (Hplace name key Hkey).
      destruct (_data env !! key); eexists; reflexivity.
    + left. exists name, exn. now split.
  - intros provider_def. unfold provider_config.
    destruct (resolve_env_vars env _) as [[key log]|exn]; reflexivity.
  - intros provider_def field value Hne. unfold provider_config.
    assert (Hkey : dict_get_default "api_key" (VStr "") (dict_set field value provider_def)
                   = dict_get_default "api_key" (VStr "") provider_def).
    { unfold dict_get_default. rewrite dict_get_set.
      destruct (String.eqb_spec field "api_key"); [contradiction | reflexivity]. }
    rewrite Hkey.
    destruct (resolve_env_vars env _) as [[key log]|exn]; simpl; auto.
Qed.

Import Scenarios.

(** The claim C8 as the specification states it fails here, in two ways:
    a value that contains a placeholder without being one is left as it
    is, although the variable is set; and a [model] that is a placeholder
    is not resolved, although the [api_key] next to it is. *)
Lemma placeholder_left_unresolved :
  _data environ0 !! "OPENAI_API_KEY" = Some "sk-123"
  /\ resolve_env_vars environ0 (VStr "Bearer ${OPENAI_API_KEY}")
     = Ok (VStr "Bearer ${OPENAI_API_KEY}", [])
  /\ _data environ0 !! "MODEL" = Some "gpt-4o"
  /\ provider_config environ0 provider_def0
     = Ok ({| api_key := VStr "sk-123";
              model := VStr "${MODEL}";
              base_url := VNone;
              temperature := VFloat (7 # 10);
              max_tokens := VInt 4096;
              timeout := VFloat 60;
              extra := VDict [] |}, []).
Proof. vm_compute. repeat split. Qed.

Lemma placeholder_resolution_witness :
  encodekey environ0 "OPENAI_API_KEY" = Ok "OPENAI_API_KEY"
  /\ resolve_env_vars environ0 (VStr "${OPENAI_API_KEY}") = Ok (VStr "sk-123", [])
  /\ "model" <> "api_key"
  /\ match provider_config environ0 provider_def0,
           provider_config environ0 (dict_set "model" (VStr "gpt-4o") provider_def0) with
     | Ok (pc, log), Ok (pc', log') => api_key pc' = api_key pc /\ log' = log
     | Raise exn, Raise exn' => exn' = exn
     | _, _ => False
     end.
Proof.
  assert (Hkey : encodekey environ0 "OPENAI_API_KEY" = Ok "OPENAI_API_KEY") by reflexivity.
  assert (Hne : "model" <> "api_key") by discriminate.
  destruct (placeholder_resolution environ0) as (Hplace & _ & _ & _ & _ & Hfield).
  split; [exact Hkey|]. split; [|split; [exact Hne|]].
  - exact (Hplace "OPENAI_API_KEY" "OPENAI_API_KEY" Hkey).
  - exact (Hfield provider_def0 "model" (VStr "gpt-4o") Hne).
Defined.

(** The three tests of [resolve_env_vars]. *)
Example resolve_env_vars_tests :
  resolve_env_vars (_createenviron (<["TEST_SWARMX_KEY" := "resolved-value"]> ∅))
    (VStr "${TEST_SWARMX_KEY}")
  = Ok (VStr "resolved-value", [])
  /\ resolve_env_vars (_createenviron ∅) (VStr "plain-string") = Ok (VStr "plain-string", [])
  /\ resolve_env_vars (_createenviron ∅) (VStr "${DEFINITELY_NOT_SET_VAR}")
     = Ok (VStr "", [Warning "Environment variable not set: DEFINITELY_NOT_SET_VAR"]).
Proof. vm_compute. repeat split. Qed.

(** A placeholder whose name holds the lone surrogate U+D800: the lookup
    raises, and so does the resolution. *)
Example resolve_env_vars_unencodable :
  resolve_env_vars environ0 (VStr ("${" +:+ lone_surrogate +:+ "}"))
  = Raise (UnicodeEncodeError "surrogates not allowed").
Proof. vm_compute. reflexivity. Qed.

End ConfigFacts.

(** ** The task scheduler *)

Module SchedulerFacts.
Import Py PyFacts Scheduler.
Import EventBus (Event).

Section Facts.

Context (uuid4_hex12 : nat -> string).
Implicit Types (s : TaskScheduler) (a : nat) (task : Task).

Lemma heap_update_same a (f : Task -> Task) s :
  heap (update a f s) !! a = f <$> heap s !! a.
Proof. unfold update. simpl. apply list_lookup_alter_eq. Qed.

Lemma heap_update_other a a' (f : Task -> Task) s :
  a <> a' -> heap (update a f s) !! a' = heap s !! a'.
Proof. intros Hne. unfold update. simpl. now apply list_lookup_alter_ne. Qed.

Lemma get_status_update (id : string) a (f : Task -> Task) s task :
  dict_get id (_tasks s) = Some a -> heap s !! a = Some task ->
  get_status id (update a f s) = Some (status (f task)).
Proof.
  intros Hid Ha. unfold get_status, get_task. simpl. rewrite Hid. simpl.
  rewrite list_lookup_alter_eq, Ha. reflexivity.
Qed.

(** *** Terminal statuses *)

(** C4, as the code has it. For a task registered under its id:
    in a terminal status, [cancel] returns false and leaves the scheduler
    as it is, and the pass of [_check_dependents] steps over the task;
    CANCELLED when [_schedule_task] is called, that call returns at once,
    nothing changed and nothing published.  But a [task.failed] event
    that names the task sets its status to FAILED, and a [task.completed]
    event sets it to COMPLETED before the dependents are examined,
    whatever the status was, terminal or not; neither publishes anything
    in doing so. *)
Theorem terminal_statuses s (id : string) a task :
  dict_get id (_tasks s) = Some a ->
  heap s !! a = Some task ->
  (terminal (status task) = true -> cancel id s = (s, Ok false))
  /\ (terminal (status task) = true ->
      forall (completed : Value) (pos remaining : nat) (key : string),
        _tasks s !! pos = Some (key, a) ->
        check_loop uuid4_hex12 completed (length (_tasks s)) pos (S remaining) s
        = check_loop uuid4_hex12 completed (length (_tasks s)) (S pos) remaining s)
  /\ (status task = CANCELLED -> _schedule_task uuid4_hex12 a s = Done s (Ok tt))
  /\ (forall event : Event,
        dict_get "task_id" (EventBus.payload event) = Some (VStr id) ->
        (exists s1,
           _on_task_failed event s = Done s1 (Ok tt)
           /\ get_status id s1 = Some FAILED
           /\ bus_published s1 = bus_published s)
        /\ (exists s1,
             _on_task_completed uuid4_hex12 event s
             = _check_dependents uuid4_hex12 (VStr id) s1
             /\ get_status id s1 = Some COMPLETED
             /\ bus_published s1 = bus_published s)).
Proof.
  intros Hid Ha. repeat split.
  - intros Hterm. unfold cancel, bind, gets, ret. rewrite Hid, Ha.
    destruct (status task); try discriminate; reflexivity.
  - intros Hterm completed pos remaining key Hpos.
    simpl. rewrite Nat.eqb_refl. simpl. rewrite Hpos, Ha.
    destruct (status task); try discriminate; reflexivity.
  - intros Hc. unfold _schedule_task. now rewrite Ha, Hc.
  - eexists. split; [|split].
    + unfold _on_task_failed, cbind, atomic, dict_get_default. rewrite H.
      simpl. unfold gets. rewrite Hid. simpl. reflexivity.
    + unfold get_status, get_task. simpl. rewrite Hid. simpl.
      rewrite !list_lookup_alter_eq, Ha. reflexivity.
    + reflexivity.
  - eexists. split; [|split].
    + unfold _on_task_completed, cbind, atomic, dict_get_default. rewrite H.
      simpl. unfold gets. rewrite Hid. simpl. reflexivity.
    + unfold get_status, get_task. simpl. rewrite Hid. simpl.
      rewrite !list_lookup_alter_eq, Ha. reflexivity.
    + reflexivity.
Qed.

(** *** Delayed tasks *)

(** C5, as the code has it. A task that is not CANCELLED and has a
    positive delay, when [_schedule_task] is called on it: it is first
    marked SCHEDULED and the coroutine is suspended in the sleep for the
    delay; the sleep is awaited in line, so whatever the caller does next
    ([rest]: the return of [submit], the next [submit] of [submit_many],
    the remaining dependents in [_check_dependents]) is part of what runs
    after the delay; and when the coroutine resumes with the task still
    SCHEDULED, the task is marked RUNNING, [started_at] is stamped with
    the time of the resumption, and one event is published, on the
    [target_topic] of the task. *)
Theorem delayed_task_suspends_caller {A} a task s (rest : C A) :
  heap s !! a = Some task ->
  status task <> CANCELLED ->
  Qle_bool (delay_seconds task) 0 = false ->
  exists k : TaskScheduler -> Co unit,
    _schedule_task uuid4_hex12 a s
    = Sleep (update a (set_status SCHEDULED) s) (delay_seconds task) k
    /\ (_schedule_task uuid4_hex12 a ~;; rest) s
       = Sleep (update a (set_status SCHEDULED) s) (delay_seconds task)
           (fun s' => co_then (k s') (fun _ => rest))
    /\ forall s' task',
         heap s' !! a = Some task' ->
         status task' = SCHEDULED ->
         exists s'' running,
           k s' = Done s'' (Ok tt)
           /\ running = set_started_at (Some (clock s')) (set_status RUNNING task')
           /\ heap s'' !! a = Some running
           /\ bus_published s'' = bus_published s' ++ [task_event uuid4_hex12 running s']
           /\ EventBus.topic (task_event uuid4_hex12 running s') = target_topic task'.
Proof.
  intros Ha Hnc Hdelay.
  exists (fun s' => co_then (Done s' (Ok tt)) (fun _ => atomic (launch uuid4_hex12 a))).
  assert (Hs : _schedule_task uuid4_hex12 a s
               = Sleep (update a (set_status SCHEDULED) s) (delay_seconds task)
                   (fun s' => co_then (Done s' (Ok tt))
                                (fun _ => atomic (launch uuid4_hex12 a)))).
  { unfold _schedule_task. rewrite Ha, Hdelay.
    destruct (status task); try congruence; reflexivity. }
  split; [exact Hs|]. split.
  - unfold cbind. now rewrite Hs.
  - intros s' task' Ha' Hst. eexists. eexists.
    split; [|split; [reflexivity|]].
    + simpl. unfold atomic, launch, bind, modify, gets, bus_publish. simpl.
      rewrite !list_lookup_alter_eq, Ha'. simpl. reflexivity.
    + simpl. rewrite !list_lookup_alter_eq, Ha'. repeat split.
Qed.

End Facts.

(** *** The properties on the scenarios *)

Import Scenarios.

(** The claim C4 as the specification states it fails here: the task t1
    is COMPLETED, a [task.failed] event that names it is observed, and its
    status is FAILED afterwards. *)
Lemma completed_task_becomes_failed :
  get_status "t1" sched_t1_completed = Some COMPLETED
  /\ get_status "t1"
       (fst (run (_on_task_failed (report "task.failed" "t1" "error" (VStr "late"))
                    sched_t1_completed)))
     = Some FAILED.
Proof. vm_compute. split; reflexivity. Qed.

Lemma terminal_statuses_witness :
  dict_get "t1" (_tasks sched_t1_completed) = Some 0%nat
  /\ heap sched_t1_completed !! 0%nat
     = Some (set_result (VStr "done")
               (set_completed_at (Some 0%Q)
                  (set_status COMPLETED
                     (set_started_at (Some 0%Q) (set_status RUNNING (task_ "t1" [] 0))))))
  /\ cancel "t1" sched_t1_completed = (sched_t1_completed, Ok false).
Proof.
  assert (Hid : dict_get "t1" (_tasks sched_t1_completed) = Some 0%nat)
    by (vm_compute; reflexivity).
  assert (Ha : heap sched_t1_completed !! 0%nat
               = Some (set_result (VStr "done")
                         (set_completed_at (Some 0%Q)
                            (set_status COMPLETED
                               (set_started_at (Some 0%Q)
                                  (set_status RUNNING (task_ "t1" [] 0)))))))
    by (vm_compute; reflexivity).
  split; [exact Hid|]. split; [exact Ha|].
  apply (proj1 (terminal_statuses uuid4_hex12 sched_t1_completed "t1" 0%nat _ Hid Ha)).
  reflexivity.
Defined.

(** The claim C5 as the specification states it fails here: A is reported
    completed while B (delay of five seconds) and C (no delay) wait for
    it.  The handler is suspended in the sleep of B with C still PENDING
    and nothing published for it; C is activated by what runs when the
    five seconds have passed. *)
Lemma cascade_waits_for_delay :
  exists s1 k,
    _on_task_completed uuid4_hex12 (report "task.completed" "A" "result" (VStr "done"))
      sched_abc
    = Sleep s1 5 k
    /\ get_status "B" s1 = Some SCHEDULED
    /\ get_status "C" s1 = Some PENDING
    /\ bus_published s1 = bus_published sched_abc
    /\ get_status "C" (fst (run (k (elapse 5 s1)))) = Some RUNNING
    /\ map EventBus.metadata (bus_published (fst (run (k (elapse 5 s1)))))
       = map EventBus.metadata (bus_published sched_abc)
         ++ [[("task_id", VStr "B")]; [("task_id", VStr "C")]].
Proof.
  eexists. eexists. split; [vm_compute; reflexivity|].
  vm_compute. repeat split.
Qed.

Lemma delayed_task_suspends_caller_witness :
  heap sched_d !! 0%nat = Some (task_ "D" [] 5)
  /\ status (task_ "D" [] 5) <> CANCELLED
  /\ Qle_bool (delay_seconds (task_ "D" [] 5)) 0 = false
  /\ exists k : TaskScheduler -> Co unit,
       _schedule_task uuid4_hex12 0 sched_d
       = Sleep (update 0 (set_status SCHEDULED) sched_d) (delay_seconds (task_ "D" [] 5)) k
       /\ (_schedule_task uuid4_hex12 0 ~;; cret tt) sched_d
          = Sleep (update 0 (set_status SCHEDULED) sched_d) (delay_seconds (task_ "D" [] 5))
              (fun s' => co_then (k s') (fun _ => cret tt))
       /\ forall s' task',
            heap s' !! 0%nat = Some task' ->
            status task' = SCHEDULED ->
            exists s'' running,
              k s' = Done s'' (Ok tt)
              /\ running = set_started_at (Some (clock s')) (set_status RUNNING task')
              /\ heap s'' !! 0%nat = Some running
              /\ bus_published s'' = bus_published s' ++ [task_event uuid4_hex12 running s']
              /\ EventBus.topic (task_event uuid4_hex12 running s') = target_topic task'.
Proof.
  assert (H1 : heap sched_d !! 0%nat = Some (task_ "D" [] 5)) by reflexivity.
  assert (H2 : status (task_ "D" [] 5) <> CANCELLED) by discriminate.
  assert (H3 : Qle_bool (delay_seconds (task_ "D" [] 5)) 0 = false) by reflexivity.
  split; [exact H1|]. split; [exact H2|]. split; [exact H3|].
  exact (delayed_task_suspends_caller uuid4_hex12 0%nat (task_ "D" [] 5) sched_d
           (cret tt) H1 H2 H3).
Defined.

(** Cancelling during the delay: [cancel] returns true and the task is
    CANCELLED, yet when the sleep is over the task is marked RUNNING and
    its event is published. *)
Example cancel_during_delay_is_overwritten :
  exists s1 k,
    submit uuid4_hex12 0 sched_d = Sleep s1 5 k
    /\ snd (cancel "D" s1) = Ok true
    /\ get_status "D" (fst (cancel "D" s1)) = Some CANCELLED
    /\ get_status "D" (fst (run (k (elapse 5 (fst (cancel "D" s1)))))) = Some RUNNING
    /\ map EventBus.metadata
         (bus_published (fst (run (k (elapse 5 (fst (cancel "D" s1)))))))
       = [[("task_id", VStr "D")]].
Proof.
  eexists. eexists. split; [vm_compute; reflexivity|].
  vm_compute. repeat split.
Qed.

(** What is true of the independence: a coroutine of its own that
    submits another task while D sleeps is served at once; D follows when
    its delay is over. *)
Example other_coroutine_runs_during_delay :
  exists s1 k,
    submit uuid4_hex12 0 sched_d = Sleep s1 5 k
    /\ get_status "D" (submit_e s1) = Some SCHEDULED
    /\ get_status "E" (submit_e s1) = Some RUNNING
    /\ map EventBus.metadata (bus_published (submit_e s1)) = [[("task_id", VStr "E")]]
    /\ get_status "D" (fst (run (k (elapse 5 (submit_e s1))))) = Some RUNNING
    /\ map EventBus.metadata (bus_published (fst (run (k (elapse 5 (submit_e s1))))))
       = [[("task_id", VStr "E")]; [("task_id", VStr "D")]].
Proof.
  eexists. eexists. split; [vm_compute; reflexivity|].
  vm_compute. repeat split.
Qed.

(** A submission during the delay of a dependent, though, changes the
    size of the dict the pass of [_check_dependents] is iterating over:
    when the pass resumes, B is launched, the next step of the iteration
    raises, and C stays PENDING. *)
Example submit_during_cascade_breaks_the_pass :
  exists s1 k,
    _on_task_completed uuid4_hex12 (report "task.completed" "A" "result" (VStr "done"))
      sched_abc
    = Sleep s1 5 k
    /\ snd (run (k (elapse 5 (submit_e s1))))
       = Raise (RuntimeError "dictionary changed size during iteration")
    /\ get_status "B" (fst (run (k (elapse 5 (submit_e s1))))) = Some RUNNING
    /\ get_status "C" (fst (run (k (elapse 5 (submit_e s1))))) = Some PENDING.
Proof.
  eexists. eexists. split; [vm_compute; reflexivity|].
  vm_compute. repeat split.
Qed.

End SchedulerFacts.

(** ** The event bus: subscriptions, ordering and history *)

Module EventBusMore.
Import Py PyFacts EventBus EventBusFacts.

Section Facts.

Context {W : Type}.
Implicit Types (b : EventBus W) (s : State W) (e : Event) (sub : _Subscription W)
  (d : dict (list (_Subscription W))).

(** *** Sums over the values of a table *)

Lemma sum_dict_set {V} (f : V -> Z) (k : string) (v : V) (d : dict V) :
  fold_right Z.add 0 (map f (dict_values (dict_set k v d)))
  = fold_right Z.add 0 (map f (dict_values d))
    - match dict_get k d with Some old => f old | None => 0 end
    + f v.
Proof.
  unfold dict_values. induction d as [|[k' v'] d IH]; simpl; [lia|].
  destruct (String.eqb k' k); simpl; [lia|]. rewrite IH. lia.
Qed.

Lemma dict_get_default_set_same {V} (k : string) (v default : V) (d : dict V) :
  dict_get_default k default (dict_set k v d) = v.
Proof. unfold dict_get_default. now rewrite dict_get_set_same. Qed.

Lemma In_dict_set_other {V} (k k' : string) (v v' : V) (d : dict V) :
  k' <> k -> In (k', v') d -> In (k', v') (dict_set k v d).
Proof.
  intros Hne. induction d as [|[k0 v0] d IH]; simpl; [tauto|].
  destruct (String.eqb_spec k0 k) as [->|Hk]; simpl.
  - intros [[= <- <-]|H]; [congruence | now right].
  - intros [H|H]; [now left | right; auto].
Qed.

Lemma In_dict_set_later {V} (k : string) (l old : V) (d : dict V) :
  In (k, l) d -> dict_get k d = Some old ->
  l = old \/ forall v, In (k, l) (dict_set k v d).
Proof.
  induction d as [|[k0 v0] d IH]; simpl; [tauto|].
  destruct (String.eqb_spec k0 k) as [->|Hk].
  - intros [[= <-]|H] [= <-]; [now left | right; intros v; now right].
  - intros [[= Hk' _]|H] Hget; [congruence|].
    destruct (IH H Hget) as [->|Hl]; [now left | right; intros v; right; apply Hl].
Qed.

(** *** Subscribing *)

(** X1. [subscribe] adds exactly one subscription, whether or not a
    subscription on the same topic, from the same subscriber or even
    identical already exists: [subscription_count] grows by one, the id
    returned is the one given, or the generated one when none is given,
    and the registered subscriptions are those that were registered
    before and the new one. *)
Theorem subscribe_adds_one b (fresh_id topic : string) (h : EventHandler W)
    (sid : string) (prio : EventPriority) :
  subscription_count (fst (subscribe fresh_id topic h sid prio b))
  = subscription_count b + 1
  /\ snd (subscribe fresh_id topic h sid prio b)
     = (if String.eqb sid "" then fresh_id else sid)
  /\ forall x,
       registered (fst (subscribe fresh_id topic h sid prio b)) x
       <-> registered b x
           \/ x = {| handler := h;
                     subscriber_id := if String.eqb sid "" then fresh_id else sid;
                     topic_pattern := topic;
                     sub_priority := prio |}.
Proof.
  set (new := {| handler := h;
                 subscriber_id := if String.eqb sid "" then fresh_id else sid;
                 topic_pattern := topic; sub_priority := prio |}).
  unfold subscribe. fold new.
  destruct (String.eqb_spec topic "*") as [->|Hne]; simpl.
  - split; [|split; [reflexivity|]].
    + unfold subscription_count. simpl. rewrite length_app. simpl. lia.
    + intros x. unfold registered. simpl. rewrite in_app_iff. simpl. intuition congruence.
  - set (d := _subscriptions b).
    set (d0 := if dict_mem topic d then d else dict_set topic [] d).
    assert (Hold : dict_get_default topic [] d0 = dict_get_default topic [] d).
    { subst d0. unfold dict_mem, dict_get_default.
      destruct (dict_get topic d) eqn:Hget; [now rewrite Hget|].
      now rewrite dict_get_set_same. }
    assert (Hsum : fold_right Z.add 0 (map (fun subs : list (_Subscription W) =>
                                              Z.of_nat (length subs)) (dict_values d0))
                   = fold_right Z.add 0 (map (fun subs : list (_Subscription W) =>
                                                Z.of_nat (length subs)) (dict_values d))).
    { subst d0. unfold dict_mem. destruct (dict_get topic d) eqn:Hget; [reflexivity|].
      rewrite sum_dict_set, Hget. simpl. lia. }
    split; [|split; [reflexivity|]].
    + assert (Hget0 : dict_get topic d0 = Some (dict_get_default topic [] d)).
      { subst d0. unfold dict_mem, dict_get_default.
        destruct (dict_get topic d) eqn:Hget; [exact Hget | apply dict_get_set_same]. }
      unfold subscription_count. simpl. fold d.
      rewrite sum_dict_set, Hsum, Hold, Hget0, length_app. simpl. lia.
    + intros x. unfold registered. simpl. fold d. rewrite Hold. split.
      * intros [(subs & Hitem & Hx)|Hg]; [|left; now right].
        apply In_dict_set in Hitem as [[Hk ->]|Hitem].
        -- apply in_app_iff in Hx as [Hx|[<-|[]]]; [|now right].
           left. left. unfold dict_get_default in Hx.
           destruct (dict_get topic d) as [old|] eqn:Hget; [|destruct Hx].
           exists old. rewrite Hk. split; [now apply dict_get_In | assumption].
        -- left. left. exists subs. split; [|assumption].
           subst d0. destruct (dict_mem topic d); [assumption|].
           apply In_dict_set in Hitem as [[_ ->]|Hitem]; [destruct Hx | assumption].
      * intros [[(subs & Hitem & Hx)|Hg]| ->].
        -- left. destruct (String.eqb_spec (topic_pattern x) topic) as [Hk|Hk].
           ++ rewrite Hk in *. unfold dict_get_default.
              destruct (dict_get topic d) as [old|] eqn:Hget.
              ** assert (Hd0 : d0 = d) by (subst d0; unfold dict_mem; now rewrite Hget).
                 rewrite Hd0.
                 destruct (In_dict_set_later topic subs old d Hitem Hget) as [->|Hlater].
                 --- exists (old ++ [new]). split.
                     +++ apply dict_get_In, dict_get_set_same.
                     +++ apply in_app_iff. now left.
                 --- exists subs. split; [|assumption]. apply Hlater.
              ** exfalso. apply dict_get_not_key in Hget. apply Hget.
                 change topic with (fst (topic, subs)). now apply in_map.
           ++ exists subs. split; [|assumption].
              apply In_dict_set_other; [assumption|].
              subst d0. destruct (dict_mem topic d); [assumption|].
              now apply In_dict_set_other.
        -- now right.
        -- left. exists (dict_get_default topic [] d ++ [new]). simpl. split.
           ++ apply dict_get_In, dict_get_set_same.
           ++ apply in_app_iff. right. now left.
Qed.

(** *** The call order *)

Lemma insert_desc_front sub (l : list (_Subscription W)) :
  Forall (fun y => value (sub_priority y) <= value (sub_priority sub)) l ->
  insert_desc sub l = sub :: l.
Proof.
  intros Hall. destruct l as [|y l]; [reflexivity|]. simpl.
  apply Forall_cons in Hall as [Hy _].
  destruct (Z.leb_spec (value (sub_priority y)) (value (sub_priority sub))); [reflexivity | lia].
Qed.

Lemma insert_desc_perm sub (l : list (_Subscription W)) : insert_desc sub l ≡ₚ sub :: l.
Proof.
  induction l as [|y l IH]; simpl; [reflexivity|].
  destruct (_ <=? _); [reflexivity|]. rewrite IH. apply Permutation_swap.
Qed.

Lemma sort_desc_perm (l : list (_Subscription W)) : sort_desc l ≡ₚ l.
Proof.
  unfold sort_desc. induction l as [|y l IH]; simpl; [reflexivity|].
  now rewrite insert_desc_perm, IH.
Qed.

Lemma insert_desc_sorted sub (l : list (_Subscription W)) :
  by_priority l -> by_priority (insert_desc sub l).
Proof.
  unfold by_priority. induction 1 as [|y l Hl IH Hy]; simpl.
  - repeat constructor.
  - destruct (Z.leb_spec (value (sub_priority y)) (value (sub_priority sub))).
    + constructor; [now constructor|].
      constructor; [assumption|].
      eapply Forall_impl; [exact Hy|]. simpl. intros z Hz. lia.
    + constructor; [assumption|].
      rewrite insert_desc_perm. constructor; [lia | assumption].
Qed.

Lemma sort_desc_sorted (l : list (_Subscription W)) : by_priority (sort_desc l).
Proof.
  unfold sort_desc. induction l as [|y l IH]; simpl.
  - constructor.
  - now apply insert_desc_sorted.
Qed.

(** Filtering a sorted list and inserting commute. *)
Lemma filter_insert_desc (p : _Subscription W -> bool) sub (l : list (_Subscription W)) :
  by_priority l ->
  List.filter p (insert_desc sub l)
  = if p sub then insert_desc sub (List.filter p l) else List.filter p l.
Proof.
  unfold by_priority. induction 1 as [|y l Hl IH Hy]; simpl.
  - now destruct (p sub).
  - destruct (Z.leb_spec (value (sub_priority y)) (value (sub_priority sub))) as [Hle|Hgt].
    + simpl. destruct (p sub) eqn:Hp; [|reflexivity].
      symmetry. apply insert_desc_front.
      destruct (p y).
      * constructor; [assumption|].
        apply List.Forall_forall. intros z [Hz _]%filter_In.
        rewrite List.Forall_forall in Hy. specialize (Hy z Hz). simpl in Hy. lia.
      * apply List.Forall_forall. intros z [Hz _]%filter_In.
        rewrite List.Forall_forall in Hy. specialize (Hy z Hz). simpl in Hy. lia.
    + simpl. rewrite IH. destruct (p y) eqn:Hpy, (p sub) eqn:Hp; simpl; try reflexivity.
      destruct (Z.leb_spec (value (sub_priority y)) (value (sub_priority sub)));
        [lia | reflexivity].
Qed.

Lemma filter_sort_desc (p : _Subscription W -> bool) (l : list (_Subscription W)) :
  List.filter p (sort_desc l) = sort_desc (List.filter p l).
Proof.
  induction l as [|y l IH]; [reflexivity|].
  change (sort_desc (y :: l)) with (insert_desc y (sort_desc l)).
  rewrite filter_insert_desc by apply sort_desc_sorted.
  simpl. destruct (p y); [|exact IH].
  change (sort_desc (y :: List.filter p l)) with (insert_desc y (sort_desc (List.filter p l))).
  now rewrite IH.
Qed.

(** A list whose subscriptions all have the same priority is left as it
    is by the sort. *)
Lemma sort_desc_same_priority (prio : EventPriority) (l : list (_Subscription W)) :
  Forall (fun y => sub_priority y = prio) l -> sort_desc l = l.
Proof.
  induction 1 as [|y l Hy Hl IH]; [reflexivity|].
  change (sort_desc (y :: l)) with (insert_desc y (sort_desc l)).
  rewrite IH. apply insert_desc_front.
  eapply Forall_impl; [exact Hl|]. simpl. intros z ->. rewrite Hy. lia.
Qed.

(** X2. The handlers of an event are called in priority order: the list
    [_dispatch_event] gathers over holds the collected subscriptions,
    each as many times as it was collected, with priorities that never
    increase along the list; and the sort is stable: the subscriptions of
    one priority keep the order in which they were collected (exact
    topic, then wildcards, then global). *)
Theorem handlers_in_priority_order b (t : string) :
  matching_handlers b t ≡ₚ collect_handlers b t
  /\ by_priority (matching_handlers b t)
  /\ forall prio : EventPriority,
       List.filter (has_priority prio) (matching_handlers b t)
       = List.filter (has_priority prio) (collect_handlers b t).
Proof.
  unfold matching_handlers. split; [apply sort_desc_perm|]. split; [apply sort_desc_sorted|].
  intros prio. rewrite filter_sort_desc. apply (sort_desc_same_priority prio).
  apply List.Forall_forall. intros z [_ Hz]%filter_In. unfold has_priority in Hz.
  apply Z.eqb_eq in Hz. now destruct (sub_priority z), prio.
Qed.

(** *** Unsubscribing *)

Lemma dict_get_app_r {V} (k : string) (d1 d2 : dict V) :
  ~ In k (dict_keys d1) -> dict_get k (d1 ++ d2) = dict_get k d2.
Proof.
  induction d1 as [|[k' v'] d1 IH]; simpl; [reflexivity|]. intros Hk.
  destruct (String.eqb_spec k' k) as [->|Hne]; [tauto|]. apply IH. tauto.
Qed.

Lemma dict_set_app_r {V} (k : string) (v l : V) (d1 d2 : dict V) :
  ~ In k (dict_keys d1) -> dict_set k v (d1 ++ (k, l) :: d2) = d1 ++ (k, v) :: d2.
Proof.
  induction d1 as [|[k' v'] d1 IH]; simpl; intros Hk.
  - now rewrite String.eqb_refl.
  - destruct (String.eqb_spec k' k) as [->|Hne]; [tauto|]. rewrite IH; tauto.
Qed.

Lemma dict_del_app_r {V} (k : string) (l : V) (d1 d2 : dict V) :
  ~ In k (dict_keys d1) -> dict_del k (d1 ++ (k, l) :: d2) = d1 ++ d2.
Proof.
  induction d1 as [|[k' v'] d1 IH]; simpl; intros Hk.
  - now rewrite String.eqb_refl.
  - destruct (String.eqb_spec k' k) as [->|Hne]; [tauto|]. rewrite IH; tauto.
Qed.

Lemma purge_cons sid (k : string) (l : list (_Subscription W)) d :
  purge sid ((k, l) :: d)
  = match List.filter (keep sid) l with
    | [] => purge sid d
    | after => (k, after) :: purge sid d
    end.
Proof. unfold purge. simpl. now destruct (List.filter (keep sid) l). Qed.

Lemma purge_keys sid d (k : string) :
  In k (dict_keys (purge sid d)) -> In k (dict_keys d).
Proof.
  unfold dict_keys. induction d as [|[k' l] d IH]; [tauto|].
  rewrite purge_cons. destruct (List.filter (keep sid) l); simpl; intuition.
Qed.

Lemma purge_NoDup sid d : NoDup (dict_keys d) -> NoDup (dict_keys (purge sid d)).
Proof.
  unfold dict_keys. induction d as [|[k l] d IH]; [trivial|].
  rewrite purge_cons. simpl. intros [Hk Hnd]%NoDup_cons.
  destruct (List.filter (keep sid) l); simpl; [auto|].
  apply NoDup_cons. split; [|auto].
  intros Hin%list_elem_of_In. apply Hk, list_elem_of_In. now apply (purge_keys sid).
Qed.

(** The loop of [unsubscribe], in closed form. *)
Lemma unsubscribe_topics_closed sid : forall d2 d1 (removed : Z),
  NoDup (dict_keys (d1 ++ d2)) ->
  unsubscribe_topics sid (dict_keys d2) (d1 ++ d2) removed
  = (d1 ++ purge sid d2,
     removed + fold_right Z.add 0 (map (owned sid) (dict_values d2))).
Proof.
  induction d2 as [|[k l] d2 IH]; intros d1 removed Hnd.
  - simpl. f_equal. lia.
  - assert (Hk : ~ In k (dict_keys d1)).
    { unfold dict_keys in *. rewrite map_app in Hnd. apply NoDup_app in Hnd as (_ & Hdis & _).
      intros Hin%list_elem_of_In. apply (Hdis k Hin). simpl. left. }
    simpl. unfold dict_get_default. rewrite dict_get_app_r by assumption.
    simpl. rewrite String.eqb_refl. rewrite dict_set_app_r by assumption.
    rewrite purge_cons.
    destruct (List.filter (keep sid) l) as [|x after] eqn:Hf.
    + rewrite dict_del_app_r by assumption. rewrite IH.
      * f_equal. simpl. unfold owned. rewrite Hf. simpl. lia.
      * unfold dict_keys in *. rewrite map_app in *. simpl in Hnd.
        apply NoDup_app in Hnd as (H1 & H2 & H3%NoDup_cons).
        apply NoDup_app. repeat split; [assumption | | tauto].
        intros z Hz Hz'. apply (H2 z Hz). now right.
    + change (d1 ++ (k, x :: after) :: d2) with (d1 ++ [(k, x :: after)] ++ d2).
      rewrite app_assoc. rewrite IH.
      * rewrite <- app_assoc. f_equal. simpl. unfold owned. rewrite Hf. simpl. lia.
      * unfold dict_keys in *. rewrite <- app_assoc. rewrite !map_app in *. exact Hnd.
Qed.

Lemma unsubscribe_closed sid b :
  NoDup (dict_keys (_subscriptions b)) ->
  unsubscribe sid b
  = (set_global_subscriptions (List.filter (keep sid) (_global_subscriptions b))
       (set_subscriptions (purge sid (_subscriptions b)) b),
     owned_by sid b).
Proof.
  intros Hnd. unfold unsubscribe.
  pose proof (unsubscribe_topics_closed sid (_subscriptions b) [] 0 Hnd) as Hloop.
  simpl in Hloop. rewrite Hloop. reflexivity.
Qed.

(** Looking a topic up in the purged table. *)
Lemma lookup_purge sid d (k : string) :
  NoDup (dict_keys d) ->
  (if dict_mem k (purge sid d) then dict_get_default k [] (purge sid d) else [])
  = List.filter (keep sid) (if dict_mem k d then dict_get_default k [] d else []).
Proof.
  unfold dict_mem, dict_get_default, dict_keys.
  induction d as [|[k' l] d IH]; [reflexivity|]. intros [Hk Hnd]%NoDup_cons.
  rewrite purge_cons. simpl.
  destruct (String.eqb_spec k' k) as [->|Hne].
  - destruct (List.filter (keep sid) l) as [|x after] eqn:Hf.
    + assert (Hnone : dict_get k (purge sid d) = None).
      { apply dict_get_not_key. intros Hin. apply Hk, list_elem_of_In.
        now apply (purge_keys sid). }
      now rewrite Hnone.
    + simpl. now rewrite String.eqb_refl.
  - destruct (List.filter (keep sid) l) as [|x after] eqn:Hf.
    + now apply IH.
    + simpl. destruct (String.eqb_spec k' k); [congruence|]. now apply IH.
Qed.

Lemma filter_flat_map {A B} (p : B -> bool) (f : A -> list B) (l : list A) :
  List.filter p (flat_map f l) = flat_map (fun x => List.filter p (f x)) l.
Proof.
  induction l as [|x l IH]; simpl; [reflexivity|].
  now rewrite List.filter_app, IH.
Qed.

Lemma collect_unsubscribed sid b (t : string) :
  NoDup (dict_keys (_subscriptions b)) ->
  collect_handlers (fst (unsubscribe sid b)) t
  = List.filter (keep sid) (collect_handlers b t).
Proof.
  intros Hnd. rewrite unsubscribe_closed by assumption. simpl.
  unfold collect_handlers. rewrite !List.filter_app. f_equal; [|f_equal; [|f_equal]].
  - unfold exact_matches. simpl. now apply lookup_purge.
  - unfold wildcard_matches. simpl. rewrite filter_flat_map.
    apply flat_map_ext. intros i.
    destruct (negb (String.eqb (wildcard_at (split "." t) i) "")); simpl; [|reflexivity].
    now apply lookup_purge.
  - unfold parent_matches. simpl. rewrite filter_flat_map.
    induction (_subscriptions b) as [|[pattern subs] d IH]; [reflexivity|].
    rewrite purge_cons. simpl in Hnd. apply NoDup_cons in Hnd as [_ Hnd].
    simpl. rewrite <- (IH Hnd).
    destruct (List.filter (keep sid) subs) as [|x after] eqn:Hf; simpl.
    + destruct (endswith pattern ".*"); [|reflexivity].
      destruct (_ && _); [now rewrite Hf | reflexivity].
    + destruct (endswith pattern ".*"); [|reflexivity].
      destruct (_ && _); [now rewrite Hf | reflexivity].
Qed.

(** X3. [unsubscribe] on a bus built by the operations of the class: it
    returns the number of subscriptions the subscriber owned, topic
    subscriptions and global ones together, and [subscription_count]
    drops by that number; afterwards, whatever the topic, the handlers of
    an event are those it had before without the ones of that
    subscriber, in the same order. *)
Theorem unsubscribe_removes_own b (sid : string) :
  NoDup (dict_keys (_subscriptions b)) ->
  snd (unsubscribe sid b) = owned_by sid b
  /\ subscription_count (fst (unsubscribe sid b)) = subscription_count b - owned_by sid b
  /\ (forall t : string,
        matching_handlers (fst (unsubscribe sid b)) t
        = List.filter (keep sid) (matching_handlers b t))
  /\ (forall (t : string) sub,
        In sub (matching_handlers (fst (unsubscribe sid b)) t) -> subscriber_id sub <> sid).
Proof.
  intros Hnd.
  assert (Hmatch : forall t : string,
             matching_handlers (fst (unsubscribe sid b)) t
             = List.filter (keep sid) (matching_handlers b t)).
  { intros t. unfold matching_handlers.
    rewrite collect_unsubscribed by assumption. symmetry. apply filter_sort_desc. }
  split; [|split; [|split]].
  - now rewrite unsubscribe_closed.
  - rewrite unsubscribe_closed by assumption. unfold subscription_count, owned_by. simpl.
    assert (Hsum : fold_right Z.add 0
                     (map (fun subs : list (_Subscription W) => Z.of_nat (length subs))
                        (dict_values (purge sid (_subscriptions b))))
                   = fold_right Z.add 0
                       (map (fun subs : list (_Subscription W) => Z.of_nat (length subs))
                          (dict_values (_subscriptions b)))
                     - fold_right Z.add 0 (map (owned sid) (dict_values (_subscriptions b)))).
    { clear. unfold dict_values. induction (_subscriptions b) as [|[k l] d IH]; [reflexivity|].
      rewrite purge_cons. simpl map. simpl fold_right.
      assert (Ho : owned sid l
                   = Z.of_nat (length l) - Z.of_nat (length (List.filter (keep sid) l)))
        by reflexivity.
      destruct (List.filter (keep sid) l) eqn:Hf;
        simpl map; simpl fold_right; rewrite IH; simpl in Ho; simpl length; lia. }
    rewrite Hsum. unfold owned. lia.
  - exact Hmatch.
  - intros t sub Hin. rewrite Hmatch in Hin. apply filter_In in Hin as [_ Hkeep].
    unfold keep in Hkeep. apply negb_true_iff, String.eqb_neq in Hkeep. exact Hkeep.
Qed.

Lemma filter_keep_twice sid (l : list (_Subscription W)) :
  List.filter (keep sid) (List.filter (keep sid) l) = List.filter (keep sid) l.
Proof.
  induction l as [|x l IH]; simpl; [reflexivity|].
  destruct (keep sid x) eqn:Hk; simpl; [now rewrite Hk, IH | exact IH].
Qed.

Lemma purge_twice sid d : purge sid (purge sid d) = purge sid d.
Proof.
  induction d as [|[k l] d IH]; [reflexivity|].
  rewrite purge_cons. destruct (List.filter (keep sid) l) as [|x after] eqn:Hf; [exact IH|].
  rewrite purge_cons, <- Hf, filter_keep_twice, Hf, IH. reflexivity.
Qed.

Lemma owned_filtered sid (l : list (_Subscription W)) :
  owned sid (List.filter (keep sid) l) = 0.
Proof. unfold owned. rewrite filter_keep_twice. lia. Qed.

Lemma owned_purged sid d :
  fold_right Z.add 0 (map (owned sid) (dict_values (purge sid d))) = 0.
Proof.
  unfold dict_values. induction d as [|[k l] d IH]; [reflexivity|].
  rewrite purge_cons. destruct (List.filter (keep sid) l) as [|x after] eqn:Hf; [exact IH|].
  simpl map. simpl fold_right. rewrite IH, <- Hf, owned_filtered. reflexivity.
Qed.

(** X4. [unsubscribe] is idempotent: a second call for the same
    subscriber removes nothing, returns 0 and leaves the bus exactly as
    the first call left it. *)
Theorem unsubscribe_twice b (sid : string) :
  NoDup (dict_keys (_subscriptions b)) ->
  unsubscribe sid (fst (unsubscribe sid b)) = (fst (unsubscribe sid b), 0).
Proof.
  intros Hnd. rewrite (unsubscribe_closed sid b Hnd). simpl.
  rewrite unsubscribe_closed by (simpl; now apply purge_NoDup). simpl.
  rewrite purge_twice, filter_keep_twice. f_equal.
  unfold owned_by. simpl. rewrite owned_purged, owned_filtered. reflexivity.
Qed.

(** *** The parent-wildcard loop *)

Lemma split_append (sep : ascii) (a r : string) :
  split sep (a +:+ String sep r) = split sep a ++ split sep r.
Proof.
  induction a as [|c a IH].
  - rewrite append_nil_l. simpl. now rewrite Ascii.eqb_refl.
  - rewrite append_cons. simpl. rewrite IH.
    pose proof (split_nonempty sep a) as Hne.
    destruct (Ascii.eqb c sep); [reflexivity|].
    destruct (split sep a) as [|seg segs]; [congruence | reflexivity].
Qed.

(** A topic that starts with P and a dot has P among the joins of its
    leading segments. *)
Lemma prefix_enumerated (P r : string) :
  str_in (P +:+ ".*") (enumerated (split "." (P +:+ String "." r))) = true.
Proof.
  apply str_in_enumerated. rewrite split_append.
  pose proof (split_nonempty "." P) as Hne.
  exists (length (split "." P) - 1)%nat. split.
  - rewrite length_app. destruct (split "." P); [congruence | simpl; lia].
  - f_equal. replace (length (split "." P) - 1 + 1)%nat with (length (split "." P))
      by (destruct (split "." P); [congruence | simpl; lia]).
    rewrite take_app_length. symmetry. apply (join_split "."%char).
Qed.

(** X5. The third loop of [_dispatch_event], the one over all the
    patterns of the table that is meant to catch parent wildcards, never
    adds a handler: a pattern "P.*" whose prefix the topic extends is
    always among the candidates of the loop before, which the condition
    of this loop excludes.  The handlers of an event are the exact
    matches, the matches of the wildcard loop and the global ones. *)
Theorem parent_loop_adds_nothing b (t : string) :
  parent_matches b t = []
  /\ collect_handlers b t
     = exact_matches b t ++ wildcard_matches b t ++ _global_subscriptions b.
Proof.
  assert (Hnone : parent_matches b t = []).
  { unfold parent_matches. induction (_subscriptions b) as [|[pattern subs] d IH];
      [reflexivity|].
    simpl. rewrite IH, app_nil_r.
    destruct (endswith pattern ".*") eqn:He; [|reflexivity].
    apply endswith_inv in He as [P ->]. rewrite strip_wildcard.
    destruct (startswith t (P +:+ ".")) eqn:Hs; [|reflexivity].
    apply startswith_inv in Hs as [r ->]. rewrite append_assoc.
    change ("." +:+ r) with (String "." r).
    now rewrite prefix_enumerated. }
  split; [exact Hnone|]. unfold collect_handlers. now rewrite Hnone.
Qed.

(** *** A topic that is itself a wildcard pattern *)

Lemma exact_matches_bucket b (t : string) :
  exact_matches b t = dict_get_default t [] (_subscriptions b).
Proof.
  unfold exact_matches, dict_mem, dict_get_default.
  now destruct (dict_get t (_subscriptions b)).
Qed.

Lemma append_not_empty (q x : string) : x <> "" -> q +:+ x <> "".
Proof.
  intros Hx H. apply (f_equal String.length) in H. rewrite length_append in H.
  destruct x; [congruence | simpl in H; lia].
Qed.

(** X6. An event whose topic itself ends in ".*" reaches every
    subscription filed under that very pattern twice: once as the exact
    match, once more through the wildcard loop, whose last candidate is
    the topic itself. *)
Theorem wildcard_topic_delivered_twice b (q : string) :
  exists before after,
    collect_handlers b (q +:+ ".*")
    = dict_get_default (q +:+ ".*") [] (_subscriptions b)
      ++ before ++ dict_get_default (q +:+ ".*") [] (_subscriptions b) ++ after
    /\ matching_handlers b (q +:+ ".*")
       ≡ₚ dict_get_default (q +:+ ".*") [] (_subscriptions b)
          ++ dict_get_default (q +:+ ".*") [] (_subscriptions b)
          ++ before ++ after.
Proof.
  set (t := q +:+ ".*"). set (bucket := dict_get_default t [] (_subscriptions b)).
  assert (Hparts : split "." t = split "." q ++ ["*"]).
  { subst t. apply (split_append "."%char q "*"). }
  pose proof (split_nonempty "." q) as Hne.
  set (n := length (split "." q)) in *.
  assert (Hn : (1 <= n)%nat) by (subst n; destruct (split "." q); [congruence | simpl; lia]).
  set (f := fun i : nat =>
              if negb (String.eqb (wildcard_at (split "." t) i) "")
                 && dict_mem (wildcard_at (split "." t) i) (_subscriptions b)
              then dict_get_default (wildcard_at (split "." t) i) [] (_subscriptions b)
              else []).
  assert (Hw : wildcard_matches b t
               = flat_map f (seq 0 (n - 1)) ++ f (n - 1)%nat ++ flat_map f (seq n 1)).
  { unfold wildcard_matches, range. fold f. rewrite Hparts, length_app. simpl length. fold n.
    replace (n + 1)%nat with ((n - 1) + (1 + 1))%nat by lia.
    rewrite seq_app, flat_map_app. simpl seq. simpl flat_map.
    replace (0 + (n - 1))%nat with (n - 1)%nat by lia.
    replace (S (n - 1)) with n by lia. now rewrite app_nil_r. }
  assert (Hf : f (n - 1)%nat = bucket).
  { subst f. cbv beta. unfold wildcard_at. rewrite Hparts, length_app. simpl length. fold n.
    destruct (Z.ltb_spec (Z.of_nat (n - 1)) (Z.of_nat (n + 1) - 1)); [|lia].
    replace (n - 1 + 1)%nat with n by lia. subst n. rewrite take_app_length.
    rewrite (join_split "."%char q). fold t.
    assert (Ht : String.eqb t "" = false).
    { apply String.eqb_neq. subst t. now apply append_not_empty. }
    rewrite Ht. simpl negb. simpl andb. subst bucket.
    unfold dict_mem, dict_get_default. now destruct (dict_get t (_subscriptions b)). }
  exists (flat_map f (seq 0 (n - 1))),
         (flat_map f (seq n 1) ++ parent_matches b t ++ _global_subscriptions b).
  assert (Hc : collect_handlers b t
               = bucket ++ flat_map f (seq 0 (n - 1)) ++ bucket
                 ++ flat_map f (seq n 1) ++ parent_matches b t ++ _global_subscriptions b).
  { unfold collect_handlers.
    rewrite exact_matches_bucket, Hw, Hf. now rewrite <- !app_assoc. }
  split; [exact Hc|].
  unfold matching_handlers. rewrite sort_desc_perm, Hc.
  apply Permutation_app_head.
  rewrite (app_assoc (flat_map f (seq 0 (n - 1))) bucket).
  rewrite (Permutation_app_comm (flat_map f (seq 0 (n - 1))) bucket).
  now rewrite <- !app_assoc.
Qed.

(** *** The history *)

(** X7. On a bus whose history cap is at least one, as [__init__] sets
    it: after an event is dispatched the history is the old history with
    the event appended, cut at the front to the cap; the event is its
    last entry, so [recent_events(1)] is that event, and the history is
    never longer than the cap. *)
Theorem dispatch_records_history e s :
  1 <= _max_history (bus s) ->
  exists dropped,
    _event_history (bus s) ++ [e]
    = dropped ++ _event_history (bus (fst (_dispatch_event e s)))
    /\ Z.of_nat (length (_event_history (bus (fst (_dispatch_event e s)))))
       = Z.min (Z.of_nat (length (_event_history (bus s))) + 1) (_max_history (bus s))
    /\ recent_events 1 (bus (fst (_dispatch_event e s))) = [e]
    /\ _max_history (bus (fst (_dispatch_event e s))) = _max_history (bus s).
Proof.
  intros Hcap. rewrite dispatch_event_closed. simpl.
  assert (Hlen : length (_event_history (bus s) ++ [e])
                 = S (length (_event_history (bus s)))).
  { rewrite length_app. simpl. lia. }
  assert (Hlast : forall h : list Event,
             (exists dropped, _event_history (bus s) ++ [e] = dropped ++ h) ->
             h <> [] -> slice_from (Z.opp 1) h = [e]).
  { intros h [dropped Hh] Hne. rewrite slice_from_neg by lia.
    destruct (exists_last Hne) as (h' & x & ->).
    rewrite app_assoc in Hh. apply app_inj_tail in Hh as [_ <-].
    rewrite length_app. simpl.
    replace (length h' + 1 - Z.to_nat (Z.min 1 (Z.of_nat (length h' + 1))))%nat
      with (length h' + 0)%nat by lia.
    now rewrite drop_app_add. }
  unfold record_history.
  destruct (Z.ltb_spec (_max_history (bus s))
              (Z.of_nat (length (_event_history (bus s) ++ [e])))) as [Hlt|Hge]; simpl.
  - destruct (slice_from_suffix (- _max_history (bus s)) (_event_history (bus s) ++ [e]))
      as [dropped Hd].
    assert (Hl : Z.of_nat (length (slice_from (- _max_history (bus s))
                                     (_event_history (bus s) ++ [e])))
                 = _max_history (bus s)).
    { rewrite length_slice_from_neg by assumption. lia. }
    exists dropped. split; [exact Hd|]. split; [rewrite Hl, Hlen in *; lia|].
    split; [|reflexivity].
    unfold recent_events. simpl. apply Hlast; [now exists dropped|].
    intros Hnil. rewrite Hnil in Hl. simpl in Hl. lia.
  - exists []. split; [reflexivity|]. split; [rewrite Hlen in *; lia|].
    split; [|reflexivity].
    unfold recent_events. simpl. apply Hlast; [now exists [] |].
    now destruct (_event_history (bus s)).
Qed.

(** *** Starting and stopping twice *)

(** X8. Starting and stopping are idempotent.  [start] leaves the bus
    running, and on a running bus it changes nothing; a [stop] that has
    returned, whatever turns the loop task and the handlers took while
    it was suspended, leaves the bus not running, and a second [stop]
    returns at once, without looking at the queue, in the state it
    found. *)
Theorem start_stop_idempotent s :
  _running (bus (fst (start s))) = true
  /\ start (fst (start s)) = (fst (start s), Ok tt)
  /\ forall (turns : list Turn) (fuel fuel' : nat) s' (r : Res unit),
       run turns (stop fuel s) = Some (s', r) ->
       _running (bus s') = false /\ stop fuel' s' = Done s' (Ok tt).
Proof.
  split; [|split].
  - unfold start, bind, gets, modify_bus, modify, ret.
    destruct (_running (bus s)) eqn:Hr; simpl; [exact Hr | reflexivity].
  - unfold start, bind, gets, modify_bus, modify, ret.
    destruct (_running (bus s)) eqn:Hr; simpl; [now rewrite Hr | reflexivity].
  - intros turns fuel fuel' s' r Hstop.
    apply stop_frame in Hstop as (_ & _ & _ & Hoff & _).
    split; [exact Hoff|]. unfold stop. now rewrite Hoff.
Qed.

End Facts.

(** *** The properties on the scenarios *)

Import Scenarios.

Lemma bus0_keys_distinct : NoDup (dict_keys (_subscriptions bus0)).
Proof. apply (bool_decide_unpack _). vm_compute. exact I. Defined.

Lemma unsubscribe_removes_own_witness :
  NoDup (dict_keys (_subscriptions bus0))
  /\ snd (unsubscribe "bad" bus0) = owned_by "bad" bus0
  /\ subscription_count (fst (unsubscribe "bad" bus0))
     = subscription_count bus0 - owned_by "bad" bus0
  /\ (forall t : string,
        matching_handlers (fst (unsubscribe "bad" bus0)) t
        = List.filter (keep "bad") (matching_handlers bus0 t))
  /\ (forall (t : string) sub,
        In sub (matching_handlers (fst (unsubscribe "bad" bus0)) t) ->
        subscriber_id sub <> "bad").
Proof.
  split; [exact bus0_keys_distinct|].
  exact (unsubscribe_removes_own bus0 "bad" bus0_keys_distinct).
Defined.

Lemma unsubscribe_twice_witness :
  NoDup (dict_keys (_subscriptions bus0))
  /\ unsubscribe "bad" (fst (unsubscribe "bad" bus0)) = (fst (unsubscribe "bad" bus0), 0).
Proof.
  split; [exact bus0_keys_distinct|].
  exact (unsubscribe_twice bus0 "bad" bus0_keys_distinct).
Defined.

(** The test of [unsubscribe]: one subscription, removed; then nothing
    is left to call. *)
Example unsubscribe_on_bus0 :
  snd (unsubscribe "bad" bus0) = 1
  /\ map subscriber_id (matching_handlers bus0 "test") = ["bad"; "good"; "all"]
  /\ map subscriber_id (matching_handlers (fst (unsubscribe "bad" bus0)) "test")
     = ["good"; "all"].
Proof. vm_compute. repeat split. Qed.

Lemma dispatch_records_history_witness :
  1 <= _max_history (bus state_queued)
  /\ exists dropped,
       _event_history (bus state_queued) ++ [event_on "test" "e9"]
       = dropped
         ++ _event_history (bus (fst (_dispatch_event (event_on "test" "e9") state_queued)))
       /\ Z.of_nat (length (_event_history
                              (bus (fst (_dispatch_event (event_on "test" "e9")
                                           state_queued)))))
          = Z.min (Z.of_nat (length (_event_history (bus state_queued))) + 1)
              (_max_history (bus state_queued))
       /\ recent_events 1 (bus (fst (_dispatch_event (event_on "test" "e9") state_queued)))
          = [event_on "test" "e9"]
       /\ _max_history (bus (fst (_dispatch_event (event_on "test" "e9") state_queued)))
          = _max_history (bus state_queued).
Proof.
  assert (H : 1 <= _max_history (bus state_queued)) by (vm_compute; discriminate).
  split; [exact H|].
  exact (dispatch_records_history (event_on "test" "e9") state_queued H).
Defined.

Lemma start_stop_idempotent_witness :
  exists s',
    run [TurnGet; TurnHandler; TurnHandler; TurnHandler; TurnLoop; Resume]
      (stop 3 state_parked)
    = Some (s', Ok tt)
    /\ _running (bus s') = false
    /\ stop 0 s' = Done s' (Ok tt).
Proof.
  assert (Hs : exists s',
             run [TurnGet; TurnHandler; TurnHandler; TurnHandler; TurnLoop; Resume]
               (stop 3 state_parked)
             = Some (s', Ok tt)).
  { eexists. vm_compute. reflexivity. }
  destruct Hs as [s' Hs]. exists s'. split; [exact Hs|].
  exact (proj2 (proj2 (start_stop_idempotent state_parked)) _ 3%nat 0%nat s' (Ok tt) Hs).
Defined.

End EventBusMore.

(** ** The task scheduler: submission, cancellation and the cascade *)

Module SchedulerMore.
Import Py PyFacts Scheduler SchedulerFacts.
Import EventBus (Event).

(** *** Dictionaries *)

Lemma length_dict_set {V} (k : string) (v : V) (d : dict V) :
  length (dict_set k v d) = if dict_mem k d then length d else S (length d).
Proof.
  unfold dict_mem. induction d as [|[k0 v0] d IH]; simpl; [reflexivity|].
  destruct (String.eqb k0 k); simpl; [reflexivity|].
  rewrite IH. now destruct (dict_get k d).
Qed.

(** [{**a, **b}]: a key of [b] has the value [b] gives it, any other key
    the value [a] gives it. *)
Lemma dict_get_update {V} (k : string) (a b : dict V) :
  NoDup (dict_keys b) ->
  dict_get k (dict_update a b)
  = match dict_get k b with Some v => Some v | None => dict_get k a end.
Proof.
  unfold dict_update. revert a. induction b as [|[k' v] b IH]; intros a Hnd; simpl.
  - reflexivity.
  - apply NoDup_cons in Hnd as [Hk Hnd]. rewrite IH by assumption.
    rewrite dict_get_set. destruct (String.eqb_spec k' k) as [->|Hne]; [|reflexivity].
    assert (Hnone : dict_get k b = None).
    { apply dict_get_not_key. intros Hin. apply Hk. now apply list_elem_of_In. }
    now rewrite Hnone.
Qed.

Section Facts.

Context (uuid4_hex12 : nat -> string).
Implicit Types (s : TaskScheduler) (a : nat) (task : Task).

(** *** Running a coroutine to its end *)

Lemma run_co_then {A B} (c : Co A) (k : A -> C B) :
  run (co_then c k)
  = match run c with
    | (s1, Ok x) => run (k x s1)
    | (s1, Raise e) => (s1, Raise e)
    end.
Proof.
  induction c as [s r|s d k' IH]; simpl.
  - destruct r; reflexivity.
  - apply IH.
Qed.

Lemma run_cbind {A B} (m : C A) (k : A -> C B) s :
  run (cbind m k s)
  = match run (m s) with
    | (s1, Ok x) => run (k x s1)
    | (s1, Raise e) => (s1, Raise e)
    end.
Proof. unfold cbind. apply run_co_then. Qed.

Lemma run_atomic {A} (m : M TaskScheduler A) s : run (atomic m s) = m s.
Proof. unfold atomic. now destruct (m s). Qed.

(** *** The launch of a task *)

Lemma set_status_twice (st st' : TaskStatus) task :
  set_status st (set_status st' task) = set_status st task.
Proof. reflexivity. Qed.

(** The state [launch] leaves. *)
Lemma launch_spec a task s :
  heap s !! a = Some task ->
  exists s',
    launch uuid4_hex12 a s = (s', Ok tt)
    /\ heap s' = <[a := set_started_at (Some (clock s)) (set_status RUNNING task)]> (heap s)
    /\ _tasks s' = _tasks s
    /\ Scheduler._running s' = Scheduler._running s
    /\ clock s' = clock s
    /\ bus_published s'
       = bus_published s
         ++ [task_event uuid4_hex12
               (set_started_at (Some (clock s)) (set_status RUNNING task)) s].
Proof.
  intros Ha. eexists. split.
  - unfold launch, bind, modify, gets, bus_publish. simpl.
    rewrite !list_lookup_alter_eq, Ha. simpl. reflexivity.
  - simpl. repeat split.
    apply list_eq. intros i. destruct (decide (i = a)) as [->|Hne].
    + rewrite !list_lookup_alter_eq, Ha. simpl.
      rewrite list_lookup_insert_eq; [reflexivity|]. now apply lookup_lt_Some in Ha.
    + rewrite !list_lookup_alter_ne by congruence.
      now rewrite list_lookup_insert_ne by congruence.
Qed.

Lemma insert_alter a (x : Task) (f : Task -> Task) (l : list Task) :
  <[a := x]> (alter f a l) = <[a := x]> l.
Proof.
  revert a. induction l as [|y l IH]; intros [|a]; simpl; try reflexivity.
  f_equal. apply IH.
Qed.

(** [_schedule_task] run to its end on a task that is not CANCELLED: the
    task is RUNNING, stamped with the time after the delay, and one event
    has been published for it. *)
Lemma run_schedule_task a task s :
  heap s !! a = Some task ->
  status task <> CANCELLED ->
  exists s' e,
    run (_schedule_task uuid4_hex12 a s) = (s', Ok tt)
    /\ heap s' = <[a := set_started_at (Some (clock s')) (set_status RUNNING task)]> (heap s)
    /\ _tasks s' = _tasks s
    /\ Scheduler._running s' = Scheduler._running s
    /\ clock s' = (if Qle_bool (delay_seconds task) 0 then clock s
                   else (clock s + delay_seconds task)%Q)
    /\ bus_published s' = bus_published s ++ [e]
    /\ e = task_event uuid4_hex12
             (set_started_at (Some (clock s')) (set_status RUNNING task))
             (if Qle_bool (delay_seconds task) 0 then s
              else elapse (delay_seconds task) (update a (set_status SCHEDULED) s)).
Proof.
  intros Ha Hnc.
  destruct (Qle_bool (delay_seconds task) 0) eqn:Hd.
  - destruct (launch_spec a task s Ha) as (s' & Hl & Hh & Ht & Hr & Hc & Hp).
    exists s'. eexists. split; [|rewrite Hc; repeat split; try eassumption].
    unfold _schedule_task. rewrite Ha, Hd. simpl negb. cbv iota.
    destruct (status task); try congruence;
      (unfold cbind, cret; simpl; rewrite run_atomic; exact Hl).
  - set (s1 := elapse (delay_seconds task) (update a (set_status SCHEDULED) s)).
    assert (Ha1 : heap s1 !! a = Some (set_status SCHEDULED task)).
    { subst s1. simpl. now rewrite list_lookup_alter_eq, Ha. }
    destruct (launch_spec a _ s1 Ha1) as (s' & Hl & Hh & Ht & Hr & Hc & Hp).
    exists s'. eexists. split; [|rewrite Hc; repeat split].
    + unfold _schedule_task. rewrite Ha, Hd. simpl negb. cbv iota.
      destruct (status task); try congruence;
        (unfold cbind, cret, sleep, atomic, modify; simpl; fold s1;
         unfold atomic; rewrite Hl; reflexivity).
    + rewrite Hh. subst s1. simpl. rewrite insert_alter. reflexivity.
    + exact Ht.
    + exact Hr.
    + rewrite Hp. reflexivity.
Qed.

(** *** Dependencies *)

Lemma TaskStatus_eqb_eq (x y : TaskStatus) : TaskStatus_eqb x y = true <-> x = y.
Proof. destruct x, y; simpl; split; congruence. Qed.

(** [_can_schedule]: every dependency names a registered task that is
    COMPLETED. *)
Lemma can_schedule_iff task s :
  _can_schedule task s = true
  <-> forall dep, In dep (depends_on task) -> get_status dep s = Some COMPLETED.
Proof.
  unfold _can_schedule, get_status. rewrite forallb_forall.
  split; intros H dep Hin; specialize (H dep Hin).
  - destruct (get_task dep s) as [t|]; [|discriminate].
    apply TaskStatus_eqb_eq in H. simpl. now rewrite H.
  - destruct (get_task dep s) as [t|]; [|discriminate].
    simpl in H. injection H as H. now apply TaskStatus_eqb_eq.
Qed.

(** *** Submission *)

(** X9. [submit] registers the task under its id and does nothing more,
    when one of its dependencies is unknown or not COMPLETED at that
    moment (the task itself being already registered), and also when the
    task is CANCELLED: the object is left as it is, nothing is published,
    and the id is returned without any suspension. *)
Theorem submit_only_registers a task s :
  heap s !! a = Some task ->
  (exists dep, In dep (depends_on task)
               /\ get_status dep (set_tasks (dict_set (task_id task) a (_tasks s)) s)
                  <> Some COMPLETED)
  \/ status task = CANCELLED ->
  submit uuid4_hex12 a s
  = Done (set_tasks (dict_set (task_id task) a (_tasks s)) s) (Ok (task_id task)).
Proof.
  intros Ha Hwhy. unfold submit. rewrite Ha.
  unfold cbind, atomic, modify, gets. simpl co_then.
  set (s1 := set_tasks (dict_set (task_id task) a (_tasks s)) s).
  assert (Ha1 : heap s1 !! a = Some task) by exact Ha.
  destruct (_can_schedule task s1) eqn:Hcan.
  - destruct Hwhy as [(dep & Hin & Hst)|Hc].
    + exfalso. apply Hst. now apply (proj1 (can_schedule_iff task s1)).
    + unfold _schedule_task. rewrite Ha1, Hc. simpl. now rewrite Ha.
  - unfold cret. simpl. now rewrite Ha.
Qed.

(** [submit] when the task is launched at once: the registration, the
    launch, and the id the object has then. *)
Lemma submit_at_once a task s s' :
  heap s !! a = Some task ->
  status task <> CANCELLED ->
  Qle_bool (delay_seconds task) 0 = true ->
  _can_schedule task (set_tasks (dict_set (task_id task) a (_tasks s)) s) = true ->
  launch uuid4_hex12 a (set_tasks (dict_set (task_id task) a (_tasks s)) s) = (s', Ok tt) ->
  submit uuid4_hex12 a s
  = Done s' (Ok (match heap s' !! a with Some t => task_id t | None => "" end)).
Proof.
  intros Ha Hnc Hd Hcan Hl.
  set (s1 := set_tasks (dict_set (task_id task) a (_tasks s)) s) in *.
  assert (Ha1 : heap s1 !! a = Some task) by exact Ha.
  unfold submit. rewrite Ha.
  unfold cbind, atomic, modify, gets. simpl co_then. fold s1. rewrite Hcan.
  unfold _schedule_task. rewrite Ha1, Hd. simpl negb. cbv iota.
  assert (Hgo : co_then (cret tt s1) (fun _ => atomic (launch uuid4_hex12 a))
                = Done s' (Ok tt)).
  { unfold cret, atomic. simpl. now rewrite Hl. }
  destruct (status task); try congruence;
    (unfold cbind; rewrite Hgo; reflexivity).
Qed.

(** X10. [submit] of a task that is not CANCELLED, has no positive delay
    and whose dependencies are all COMPLETED once it is registered: the
    call does not suspend and returns the id; the task is registered, it
    is RUNNING whatever its status was, [started_at] is the time of the
    call, and exactly one event has been published, on the topic of the
    task, from "scheduler", with the priority of the task and the task id
    as its metadata. *)
Theorem submit_launches a task s :
  heap s !! a = Some task ->
  status task <> CANCELLED ->
  Qle_bool (delay_seconds task) 0 = true ->
  (forall dep, In dep (depends_on task) ->
     get_status dep (set_tasks (dict_set (task_id task) a (_tasks s)) s) = Some COMPLETED) ->
  exists s' e,
    submit uuid4_hex12 a s = Done s' (Ok (task_id task))
    /\ _tasks s' = dict_set (task_id task) a (_tasks s)
    /\ heap s' = <[a := set_started_at (Some (clock s)) (set_status RUNNING task)]> (heap s)
    /\ get_status (task_id task) s' = Some RUNNING
    /\ bus_published s' = bus_published s ++ [e]
    /\ EventBus.topic e = target_topic task
    /\ EventBus.source e = "scheduler"
    /\ EventBus.priority e = priority task
    /\ EventBus.metadata e = [("task_id", VStr (task_id task))]
    /\ EventBus.payload e
       = EventBus.payload
           (task_event uuid4_hex12 (set_status RUNNING task) s).
Proof.
  intros Ha Hnc Hd Hdeps.
  set (s1 := set_tasks (dict_set (task_id task) a (_tasks s)) s).
  assert (Ha1 : heap s1 !! a = Some task) by exact Ha.
  assert (Hcan : _can_schedule task s1 = true) by now apply can_schedule_iff.
  destruct (launch_spec a task s1 Ha1) as (s' & Hl & Hh & Ht & Hr & Hc & Hp).
  exists s'. eexists.
  assert (Ha' : heap s' !! a
                = Some (set_started_at (Some (clock s)) (set_status RUNNING task))).
  { rewrite Hh. apply list_lookup_insert_eq. now apply lookup_lt_Some in Ha1. }
  split; [|split; [exact Ht|split; [exact Hh|split; [|split; [exact Hp|repeat split]]]]].
  - rewrite (submit_at_once a task s s' Ha Hnc Hd Hcan Hl). now rewrite Ha'.
  - unfold get_status, get_task. rewrite Ht. subst s1. simpl.
    rewrite dict_get_set_same. simpl. now rewrite Ha'.
Qed.

(** *** Cancellation *)

(** X11. [cancel] never raises.  It returns true exactly when the id
    names a task that is PENDING or SCHEDULED; then that task is
    CANCELLED, no other object has changed, and a later [_schedule_task]
    on it returns at once.  Otherwise nothing has changed at all.  In
    neither case is anything published or the registry touched. *)
Theorem cancel_outcome (id : string) s :
  exists s' (b : bool),
    cancel id s = (s', Ok b)
    /\ (b = true <-> get_status id s = Some PENDING \/ get_status id s = Some SCHEDULED)
    /\ (b = false -> s' = s)
    /\ (b = true ->
        get_status id s' = Some CANCELLED
        /\ forall a, dict_get id (_tasks s) = Some a ->
             _schedule_task uuid4_hex12 a s' = Done s' (Ok tt)
             /\ forall a', a' <> a -> heap s' !! a' = heap s !! a')
    /\ _tasks s' = _tasks s
    /\ bus_published s' = bus_published s.
Proof.
  unfold cancel, bind, gets, ret, modify, get_status, get_task.
  destruct (dict_get id (_tasks s)) as [a|] eqn:Hid; simpl.
  2:{ exists s, false. repeat split; try congruence; intros [?|?]; discriminate. }
  destruct (heap s !! a) as [task|] eqn:Ha; simpl.
  2:{ exists s, false. repeat split; try congruence; intros [?|?]; discriminate. }
  assert (Hyes : status task = PENDING \/ status task = SCHEDULED ->
                 exists s' b,
                   (update a (set_status CANCELLED) s, Ok true) = (s', Ok b)
                   /\ (b = true <-> Some (status task) = Some PENDING
                                    \/ Some (status task) = Some SCHEDULED)
                   /\ (b = false -> s' = s)
                   /\ (b = true ->
                       status <$> (dict_get id (_tasks s') ≫= fun a0 => heap s' !! a0)
                       = Some CANCELLED
                       /\ forall a0, Some a = Some a0 ->
                            _schedule_task uuid4_hex12 a0 s' = Done s' (Ok tt)
                            /\ forall a', a' <> a0 -> heap s' !! a' = heap s !! a')
                   /\ _tasks s' = _tasks s
                   /\ bus_published s' = bus_published s).
  { intros Hst. exists (update a (set_status CANCELLED) s), true.
    split; [reflexivity|]. split; [split; [intros _|reflexivity]|].
    { destruct Hst as [-> | ->]; [now left | now right]. }
    split; [discriminate|]. split; [|split; reflexivity].
    intros _. split.
    - simpl. rewrite Hid. simpl. now rewrite list_lookup_alter_eq, Ha.
    - intros a0 [= <-]. split.
      + unfold _schedule_task. rewrite heap_update_same, Ha. reflexivity.
      + intros a' Hne. apply heap_update_other. congruence. }
  assert (Hno : status task <> PENDING -> status task <> SCHEDULED ->
                exists s' b,
                  (s, Ok false) = (s', Ok b)
                  /\ (b = true <-> Some (status task) = Some PENDING
                                   \/ Some (status task) = Some SCHEDULED)
                  /\ (b = false -> s' = s)
                  /\ (b = true ->
                      status <$> (dict_get id (_tasks s') ≫= fun a0 => heap s' !! a0)
                      = Some CANCELLED
                      /\ forall a0, Some a = Some a0 ->
                           _schedule_task uuid4_hex12 a0 s' = Done s' (Ok tt)
                           /\ forall a', a' <> a0 -> heap s' !! a' = heap s !! a')
                  /\ _tasks s' = _tasks s
                  /\ bus_published s' = bus_published s).
  { intros H1 H2. exists s, false. split; [reflexivity|].
    split; [split; [discriminate|intros [[=]|[=]]; congruence]|].
    split; [reflexivity|]. split; [discriminate|]. split; reflexivity. }
  destruct (status task) eqn:Hst;
    first [apply Hyes; auto; fail | apply Hno; discriminate].
Qed.

(** *** The event of a task *)

(** X12. The payload of the event [_schedule_task] publishes is the
    payload of the task laid over the four fields task_id, name,
    description and content: a key of the task's payload has the value
    the payload gives it, also when it is one of the four, and only a key
    the payload lacks has the field of the task, content being the
    description then. *)
Theorem task_payload_overrides_fields task s (k : string) :
  NoDup (dict_keys (payload task)) ->
  dict_get k (EventBus.payload (task_event uuid4_hex12 task s))
  = match dict_get k (payload task) with
    | Some v => Some v
    | None =>
        dict_get k [("task_id", VStr (task_id task));
                    ("name", VStr (name task));
                    ("description", VStr (description task));
                    ("content", VStr (description task))]
    end.
Proof.
  intros Hnd. unfold task_event. cbn [EventBus.payload].
  rewrite dict_get_update by assumption.
  destruct (dict_get k (payload task)) as [v|] eqn:Hk; [reflexivity|].
  cbn [dict_get].
  destruct (String.eqb "task_id" k); [reflexivity|].
  destruct (String.eqb "name" k); [reflexivity|].
  destruct (String.eqb "description" k); [reflexivity|].
  destruct (String.eqb_spec "content" k) as [<-|]; [|reflexivity].
  unfold dict_get_default. now rewrite Hk.
Qed.

(** *** Reports of completion and failure *)

(** X13. A failure is recorded and nothing else: [_on_task_failed] never
    suspends, publishes nothing and leaves the registry and every object
    but the named one as they are.  In the state it leaves, the named
    task is FAILED, with the time and the error of the report, and no
    task that lists its id among its dependencies can be scheduled; nor
    can one be in any state in which the id names a task that is FAILED
    still.  Nothing is said of the states after a report that changes
    the status again. *)
Theorem failure_does_not_cascade (event : Event) s (id : string) a task :
  dict_get "task_id" (EventBus.payload event) = Some (VStr id) ->
  dict_get id (_tasks s) = Some a ->
  heap s !! a = Some task ->
  exists s',
    _on_task_failed event s = Done s' (Ok tt)
    /\ heap s'
       = <[a := set_error (dict_get_default "error" (VStr "Unknown error")
                             (EventBus.payload event))
                  (set_completed_at (Some (clock s)) (set_status FAILED task))]> (heap s)
    /\ _tasks s' = _tasks s
    /\ bus_published s' = bus_published s
    /\ clock s' = clock s
    /\ get_status id s' = Some FAILED
    /\ (forall dependent,
          In id (depends_on dependent) -> _can_schedule dependent s' = false)
    /\ (forall dependent later,
          In id (depends_on dependent) ->
          get_status id later = Some FAILED ->
          _can_schedule dependent later = false).
Proof.
  intros Hkey Hid Ha.
  assert (Hlasting : forall dependent later,
            In id (depends_on dependent) ->
            get_status id later = Some FAILED ->
            _can_schedule dependent later = false).
  { intros dependent later Hin Hfailed. apply not_true_is_false. intros Hcan.
    rewrite can_schedule_iff in Hcan. specialize (Hcan id Hin). congruence. }
  eexists. split; [|split; [|split; [|split; [|split; [|split; [|split]]]]]];
    [| | | | | | | exact Hlasting].
  - unfold _on_task_failed, cbind, atomic, dict_get_default. rewrite Hkey.
    simpl. unfold gets. rewrite Hid. simpl. reflexivity.
  - simpl. apply list_eq. intros i. destruct (decide (i = a)) as [->|Hne].
    + rewrite !list_lookup_alter_eq, Ha. simpl.
      rewrite list_lookup_insert_eq; [reflexivity|]. now apply lookup_lt_Some in Ha.
    + rewrite !list_lookup_alter_ne by congruence.
      now rewrite list_lookup_insert_ne by congruence.
  - reflexivity.
  - reflexivity.
  - reflexivity.
  - unfold get_status, get_task. simpl. rewrite Hid. simpl.
    now rewrite !list_lookup_alter_eq, Ha.
  - intros dependent Hin. unfold _can_schedule.
    apply not_true_is_false. rewrite forallb_forall. intros H.
    specialize (H id Hin). unfold get_task in H. simpl in H. rewrite Hid in H.
    simpl in H. rewrite !list_lookup_alter_eq, Ha in H. simpl in H. discriminate.
Qed.

(** X14. A report that names no registered task changes nothing: both
    handlers return at once, in the state they found.  They return
    normally, unless the task id of the report is a list or a dict, which
    cannot be looked up in the registry: then they raise a TypeError. *)
Theorem unknown_task_report_ignored (event : Event) s :
  (forall id, dict_get_default "task_id" (VStr "") (EventBus.payload event) = VStr id ->
              dict_get id (_tasks s) = None) ->
  exists r,
    _on_task_completed uuid4_hex12 event s = Done s r
    /\ _on_task_failed event s = Done s r
    /\ match dict_get_default "task_id" (VStr "") (EventBus.payload event) with
       | VList _ | VDict _ => exists msg, r = Raise (TypeError msg)
       | _ => r = Ok tt
       end.
Proof.
  intros Hunknown. unfold _on_task_completed, _on_task_failed, cbind, atomic.
  destruct (dict_get_default "task_id" (VStr "") (EventBus.payload event)) as [| | | |id| |]
    eqn:Hkey; simpl;
    try (exists (Ok tt); repeat split; fail);
    try (eexists; repeat split; eexists; reflexivity).
  unfold gets. rewrite (Hunknown id eq_refl). simpl. exists (Ok tt). repeat split.
Qed.

(** *** Several submissions *)

(** [submit] run to its end on a valid object: it returns the id, the
    id is registered, and no object has changed its id. *)
Lemma run_submit a task s :
  heap s !! a = Some task ->
  exists s',
    run (submit uuid4_hex12 a s) = (s', Ok (task_id task))
    /\ (forall a', task_id <$> heap s' !! a' = task_id <$> heap s !! a')
    /\ (forall k, dict_mem k (_tasks s')
                  = String.eqb (task_id task) k || dict_mem k (_tasks s)).
Proof.
  intros Ha.
  set (s1 := set_tasks (dict_set (task_id task) a (_tasks s)) s).
  assert (Ha1 : heap s1 !! a = Some task) by exact Ha.
  assert (Hstay : run (atomic (gets (fun s0 => match heap s0 !! a with
                                               | Some t => task_id t
                                               | None => ""
                                               end)) s1)
                  = (s1, Ok (task_id task))).
  { rewrite run_atomic. unfold gets. now rewrite Ha1. }
  assert (Hrun : run (submit uuid4_hex12 a s)
                 = match run ((if _can_schedule task s1
                               then _schedule_task uuid4_hex12 a else cret tt) s1) with
                   | (s2, Ok _) =>
                       run (atomic (gets (fun s0 => match heap s0 !! a with
                                                    | Some t => task_id t
                                                    | None => ""
                                                    end)) s2)
                   | (s2, Raise e) => (s2, Raise e)
                   end).
  { unfold submit. rewrite Ha. rewrite run_cbind, run_atomic. unfold modify. fold s1.
    rewrite run_cbind, run_atomic. unfold gets at 1. now rewrite run_cbind. }
  rewrite Hrun. clear Hrun.
  assert (Hreg : forall k, dict_mem k (_tasks s1)
                           = String.eqb (task_id task) k || dict_mem k (_tasks s)).
  { intros k. subst s1. simpl. apply dict_mem_set. }
  destruct (_can_schedule task s1).
  2:{ unfold cret. simpl run at 1. exists s1. rewrite Hstay. repeat split; auto. }
  destruct (TaskStatus_eqb (status task) CANCELLED) eqn:Hc;
    [apply TaskStatus_eqb_eq in Hc
    |assert (Hnc : status task <> CANCELLED)
       by (intros E; apply TaskStatus_eqb_eq in E; congruence)].
  { unfold _schedule_task. rewrite Ha1, Hc. simpl run at 1.
    exists s1. rewrite Hstay. repeat split; auto. }
  destruct (run_schedule_task a task s1 Ha1 Hnc)
    as (s' & e & Hr & Hh & Ht & _ & _ & _ & _).
  rewrite Hr. exists s'.
  assert (Ha' : heap s' !! a
                = Some (set_started_at (Some (clock s')) (set_status RUNNING task))).
  { rewrite Hh. apply list_lookup_insert_eq. now apply lookup_lt_Some in Ha1. }
  split; [|split].
  - rewrite run_atomic. unfold gets. now rewrite Ha'.
  - intros a'. destruct (decide (a' = a)) as [->|Hne].
    + now rewrite Ha', Ha.
    + rewrite Hh. now rewrite list_lookup_insert_ne by congruence.
  - intros k. rewrite Ht. apply Hreg.
Qed.

(** X15. [submit_many], run to its end on valid objects with nothing
    else happening, does not raise and returns the ids of the tasks in
    the order of the list, whether the tasks were launched, delayed or
    left waiting; afterwards every one of these ids is registered, next
    to the ids that were. *)
Theorem submit_many_ids_in_order (l : list nat) s :
  Forall (fun a => is_Some (heap s !! a)) l ->
  exists s',
    run (submit_many uuid4_hex12 l s)
    = (s', Ok (map (fun a => default "" (task_id <$> heap s !! a)) l))
    /\ (forall a, task_id <$> heap s' !! a = task_id <$> heap s !! a)
    /\ (forall k, dict_mem k (_tasks s')
                  = existsb (fun a => String.eqb (default "" (task_id <$> heap s !! a)) k) l
                    || dict_mem k (_tasks s)).
Proof.
  revert s. induction l as [|a l IH]; intros s Hvalid.
  - exists s. repeat split.
  - apply Forall_cons in Hvalid as [[task Ha] Hvalid].
    destruct (run_submit a task s Ha) as (s1 & Hr1 & Hid1 & Hreg1).
    assert (Hvalid1 : Forall (fun a0 => is_Some (heap s1 !! a0)) l).
    { eapply Forall_impl; [exact Hvalid|]. intros a0 [t0 H0]. cbv beta.
      specialize (Hid1 a0). rewrite H0 in Hid1.
      destruct (heap s1 !! a0); [eauto | discriminate]. }
    destruct (IH s1 Hvalid1) as (s' & Hr & Hid & Hreg).
    exists s'. split; [|split].
    + cbn [submit_many]. rewrite run_cbind, Hr1, run_cbind, Hr. unfold cret. simpl.
      rewrite Ha. simpl. do 3 f_equal. apply map_ext. intros a0. now rewrite Hid1.
    + intros a0. now rewrite Hid, Hid1.
    + intros k. rewrite Hreg, Hreg1. cbn [existsb]. rewrite Ha. simpl.
      rewrite orb_assoc, (orb_comm (existsb _ l)).
      do 2 f_equal. clear -Hid1.
      induction l as [|a0 l IHl]; [reflexivity|].
      cbn [existsb]. rewrite Hid1. f_equal. apply IHl.
Qed.

(** *** The pass over the dependents *)

Lemma lookup_map {A B} (f : A -> B) (l : list A) (i : nat) :
  map f l !! i = f <$> l !! i.
Proof. revert i. induction l as [|y l IH]; intros [|i]; simpl; auto. Qed.

Lemma check_loop_step (v : Value) (used pos remaining : nat) s :
  check_loop uuid4_hex12 v used pos (S remaining) s
  = if negb (length (_tasks s) =? used)%nat
    then Done s (Raise (RuntimeError "dictionary changed size during iteration"))
    else match _tasks s !! pos with
         | None => Done s (Ok tt)
         | Some (_, a) =>
             ((match heap s !! a with
               | Some task =>
                   if TaskStatus_eqb (status task) PENDING
                      && value_in v (depends_on task)
                      && _can_schedule task s
                   then _schedule_task uuid4_hex12 a
                   else cret tt
               | None => cret tt
               end) ~;;
              check_loop uuid4_hex12 v used (S pos) remaining) s
         end.
Proof. reflexivity. Qed.

(** Whether the dependencies of a task are met only depends on the
    registry and on which objects are COMPLETED. *)
Lemma can_schedule_ext task s s1 :
  _tasks s1 = _tasks s ->
  (forall a, (fun t => TaskStatus_eqb (status t) COMPLETED) <$> heap s1 !! a
             = (fun t => TaskStatus_eqb (status t) COMPLETED) <$> heap s !! a) ->
  _can_schedule task s1 = _can_schedule task s.
Proof.
  intros Ht Hc. unfold _can_schedule.
  induction (depends_on task) as [|dep deps IH]; [reflexivity|].
  simpl. rewrite IH. f_equal. unfold get_task. rewrite Ht.
  destruct (dict_get dep (_tasks s)) as [a|]; simpl; [|reflexivity].
  specialize (Hc a). destruct (heap s1 !! a), (heap s !! a); simpl in *; congruence.
Qed.

Lemma eligible_ext (v : Value) s s1 a :
  _tasks s1 = _tasks s ->
  (forall a, (fun t => TaskStatus_eqb (status t) COMPLETED) <$> heap s1 !! a
             = (fun t => TaskStatus_eqb (status t) COMPLETED) <$> heap s !! a) ->
  heap s1 !! a = heap s !! a ->
  eligible v s1 a = eligible v s a.
Proof.
  intros Ht Hc Ha. unfold eligible. rewrite Ha.
  destruct (heap s !! a) as [task|]; [|reflexivity].
  now rewrite (can_schedule_ext task s s1 Ht Hc).
Qed.

(** One step of the loop: the object at [a0] is examined. *)
Lemma visit_spec (v : Value) a0 s :
  exists s1 evs,
    run ((match heap s !! a0 with
          | Some task =>
              if TaskStatus_eqb (status task) PENDING
                 && value_in v (depends_on task)
                 && _can_schedule task s
              then _schedule_task uuid4_hex12 a0
              else cret tt
          | None => cret tt
          end) s) = (s1, Ok tt)
    /\ _tasks s1 = _tasks s
    /\ bus_published s1 = bus_published s ++ evs
    /\ map (fun e => Some (event_key e)) evs
       = map (task_key s) (if eligible v s a0 then [a0] else [])
    /\ (forall a, a <> a0 -> heap s1 !! a = heap s !! a)
    /\ (if eligible v s a0
        then exists t task,
               heap s !! a0 = Some task
               /\ status task = PENDING
               /\ heap s1 !! a0 = Some (set_started_at (Some t) (set_status RUNNING task))
        else heap s1 !! a0 = heap s !! a0).
Proof.
  unfold eligible. destruct (heap s !! a0) as [task|] eqn:Ha.
  2:{ exists s, []. rewrite app_nil_r. repeat split. exact Ha. }
  destruct (TaskStatus_eqb (status task) PENDING && value_in v (depends_on task)
            && _can_schedule task s) eqn:Hcond.
  2:{ exists s, []. rewrite app_nil_r. repeat split. exact Ha. }
  apply andb_prop in Hcond as [[Hp _]%andb_prop _]. apply TaskStatus_eqb_eq in Hp.
  assert (Hnc : status task <> CANCELLED) by congruence.
  destruct (run_schedule_task a0 task s Ha Hnc)
    as (s1 & e & Hr & Hh & Ht & _ & _ & Hpub & He).
  exists s1, [e]. split; [exact Hr|]. split; [exact Ht|]. split; [exact Hpub|].
  split; [|split].
  - simpl. unfold task_key. rewrite Ha. simpl. rewrite He. reflexivity.
  - intros a Hne. rewrite Hh. now rewrite list_lookup_insert_ne by congruence.
  - eexists. exists task. split; [reflexivity|]. split; [exact Hp|].
    rewrite Hh. apply list_lookup_insert_eq. now apply lookup_lt_Some in Ha.
Qed.

(** The loop from position [pos] on, run to its end with nothing else
    happening. *)
Lemma check_loop_run (v : Value) (remaining : nat) :
  forall (pos : nat) s,
    NoDup (drop pos (dict_values (_tasks s))) ->
    exists s' evs,
      run (check_loop uuid4_hex12 v (length (_tasks s)) pos remaining s) = (s', Ok tt)
      /\ _tasks s' = _tasks s
      /\ bus_published s' = bus_published s ++ evs
      /\ map (fun e => Some (event_key e)) evs
         = map (task_key s)
             (List.filter (eligible v s)
                (take remaining (drop pos (dict_values (_tasks s)))))
      /\ (forall a,
            eligible v s a = true ->
            In a (take remaining (drop pos (dict_values (_tasks s)))) ->
            exists t task,
              heap s !! a = Some task
              /\ heap s' !! a = Some (set_started_at (Some t) (set_status RUNNING task)))
      /\ (forall a,
            eligible v s a = false
            \/ ~ In a (take remaining (drop pos (dict_values (_tasks s)))) ->
            heap s' !! a = heap s !! a).
Proof.
  induction remaining as [|r IH]; intros pos s Hnd.
  - exists s, []. rewrite app_nil_r. simpl. rewrite Nat.eqb_refl. simpl.
    repeat split. intros a _ [].
  - rewrite check_loop_step, Nat.eqb_refl. simpl negb. cbv iota.
    destruct (_tasks s !! pos) as [[key a0]|] eqn:Hpos.
    2:{ assert (Hdrop : drop pos (dict_values (_tasks s)) = []).
        { apply drop_ge. unfold dict_values. rewrite length_map.
          now apply lookup_ge_None. }
        rewrite Hdrop. exists s, []. rewrite app_nil_r. simpl.
        repeat split. intros a _ []. }
    assert (Hdrop : drop pos (dict_values (_tasks s))
                    = a0 :: drop (S pos) (dict_values (_tasks s))).
    { apply drop_S. unfold dict_values. rewrite lookup_map.
      exact (f_equal (fmap snd) Hpos). }
    rewrite Hdrop in Hnd |- *. apply NoDup_cons in Hnd as [Hfresh Hnd].
    set (rest := drop (S pos) (dict_values (_tasks s))) in *.
    destruct (visit_spec v a0 s) as (s1 & evs1 & Hr1 & Ht1 & Hp1 & Hk1 & Ho1 & Ha1).
    assert (Hcompl : forall a, (fun t => TaskStatus_eqb (status t) COMPLETED) <$> heap s1 !! a
                               = (fun t => TaskStatus_eqb (status t) COMPLETED)
                                   <$> heap s !! a).
    { intros a. destruct (Nat.eq_dec a a0) as [->|Hne]; [|now rewrite Ho1].
      destruct (eligible v s a0); [|now rewrite Ha1].
      destruct Ha1 as (t & task & H0 & Hst & H1). rewrite H0, H1. simpl. now rewrite Hst. }
    assert (Hel : forall a, a <> a0 -> eligible v s1 a = eligible v s a).
    { intros a Hne. apply eligible_ext; auto. }
    assert (Hrest : forall a, In a (take r rest) -> a <> a0).
    { intros a Hin ->. apply Hfresh. apply list_elem_of_In.
      rewrite <- (take_drop r rest). apply in_or_app. now left. }
    assert (Hnd1 : NoDup (drop (S pos) (dict_values (_tasks s1)))) by now rewrite Ht1.
    destruct (IH (S pos) s1 Hnd1) as (s' & evs2 & Hr2 & Ht2 & Hp2 & Hk2 & Hact & Hsame).
    rewrite Ht1 in Hr2, Hk2, Hact, Hsame. fold rest in Hk2, Hact, Hsame.
    exists s', (evs1 ++ evs2). split; [|split; [|split; [|split; [|split]]]].
    + rewrite run_cbind, Hr1. exact Hr2.
    + congruence.
    + rewrite Hp2, Hp1. now rewrite app_assoc.
    + cbn [take List.filter]. rewrite map_app, Hk1, Hk2.
      assert (Hf : List.filter (eligible v s1) (take r rest)
                   = List.filter (eligible v s) (take r rest)).
      { apply filter_ext_in. intros a Hin. apply Hel. now apply Hrest. }
      assert (Hm : map (task_key s1) (List.filter (eligible v s) (take r rest))
                   = map (task_key s) (List.filter (eligible v s) (take r rest))).
      { apply map_ext_in. intros a Hin. apply filter_In in Hin as [Hin _].
        unfold task_key. rewrite Ho1; [reflexivity|]. now apply Hrest. }
      rewrite Hf, Hm. destruct (eligible v s a0); reflexivity.
    + intros a Hyes Hin. cbn [take] in Hin.
      destruct (Nat.eq_dec a a0) as [->|Hne].
      * rewrite Hyes in Ha1. destruct Ha1 as (t & task & H0 & Hst & H1).
        exists t, task. split; [exact H0|]. rewrite <- H1. apply Hsame. left.
        unfold eligible. rewrite H1. reflexivity.
      * destruct Hin as [Hin|Hin]; [congruence|].
        rewrite <- (Hel a Hne) in Hyes.
        destruct (Hact a Hyes Hin) as (t & task & H0 & H1).
        exists t, task. split; [|exact H1]. now rewrite <- Ho1.
    + intros a Hwhy. cbn [take] in Hwhy.
      destruct (Nat.eq_dec a a0) as [->|Hne].
      * assert (Hno : eligible v s a0 = false).
        { destruct Hwhy as [H|H]; [exact H|]. exfalso. apply H. now left. }
        rewrite Hno in Ha1. rewrite <- Ha1. apply Hsame. left.
        rewrite <- Hno. apply eligible_ext; auto.
      * rewrite <- (Ho1 a Hne). apply Hsame.
        destruct Hwhy as [H|H]; [left; now rewrite Hel | right].
        intros Hin. apply H. now right.
Qed.

(** X16. The pass of [_check_dependents], run to its end with nothing
    else happening, on a registry in which no object is registered
    twice.  It does not raise and leaves the registry as it is.  The
    tasks it activates are exactly the registered ones that were PENDING,
    listed the completed id among their dependencies and had all their
    dependencies COMPLETED when the pass began: each of them is RUNNING
    afterwards, with a start time, and one event has been published for
    each, on its topic and with its id, in the order of the registry.
    Every other object is as it was. *)
Theorem cascade_activates_eligible (v : Value) s :
  NoDup (dict_values (_tasks s)) ->
  exists s' evs,
    run (_check_dependents uuid4_hex12 v s) = (s', Ok tt)
    /\ _tasks s' = _tasks s
    /\ bus_published s' = bus_published s ++ evs
    /\ map (fun e => Some (event_key e)) evs
       = map (task_key s) (List.filter (eligible v s) (dict_values (_tasks s)))
    /\ (forall a,
          eligible v s a = true -> In a (dict_values (_tasks s)) ->
          exists t task,
            heap s !! a = Some task
            /\ heap s' !! a = Some (set_started_at (Some t) (set_status RUNNING task)))
    /\ (forall a,
          eligible v s a = false \/ ~ In a (dict_values (_tasks s)) ->
          heap s' !! a = heap s !! a).
Proof.
  intros Hnd. unfold _check_dependents.
  assert (Hall : take (length (_tasks s)) (drop 0 (dict_values (_tasks s)))
                 = dict_values (_tasks s)).
  { rewrite drop_0. apply take_ge. unfold dict_values. now rewrite length_map. }
  pose proof (check_loop_run v (length (_tasks s)) 0 s) as H.
  rewrite Hall in H. apply H. now rewrite drop_0.
Qed.

(** *** What happens during a delay *)

(** [_schedule_task] on a task with a positive delay: the suspension,
    and what the coroutine does when it is resumed, whatever the task
    has become meanwhile. *)
Lemma delayed_schedule_spec a task s :
  heap s !! a = Some task ->
  status task <> CANCELLED ->
  Qle_bool (delay_seconds task) 0 = false ->
  exists k : TaskScheduler -> Co unit,
    _schedule_task uuid4_hex12 a s
    = Sleep (update a (set_status SCHEDULED) s) (delay_seconds task) k
    /\ forall s2 task2,
         heap s2 !! a = Some task2 ->
         exists s3,
           k s2 = Done s3 (Ok tt)
           /\ heap s3
              = <[a := set_started_at (Some (clock s2)) (set_status RUNNING task2)]> (heap s2)
           /\ _tasks s3 = _tasks s2
           /\ bus_published s3
              = bus_published s2
                ++ [task_event uuid4_hex12
                      (set_started_at (Some (clock s2)) (set_status RUNNING task2)) s2].
Proof.
  intros Ha Hnc Hd.
  exists (fun s' => co_then (Done s' (Ok tt)) (fun _ => atomic (launch uuid4_hex12 a))).
  split.
  - unfold _schedule_task. rewrite Ha, Hd.
    destruct (status task); try congruence; reflexivity.
  - intros s2 task2 Ha2.
    destruct (launch_spec a task2 s2 Ha2) as (s3 & Hl & Hh & Ht & _ & _ & Hp).
    exists s3. split; [|auto].
    simpl. unfold atomic. now rewrite Hl.
Qed.

(** X17. A cancellation during the delay of a task has no lasting
    effect.  While [_schedule_task] sleeps the task is SCHEDULED, so
    [cancel] returns true and marks it CANCELLED; but the status is not
    looked at again after the sleep: when the delay is over the task is
    marked RUNNING, stamped, and its event is published all the same. *)
Theorem cancel_during_delay_is_ignored a task s (id : string) :
  heap s !! a = Some task ->
  status task <> CANCELLED ->
  Qle_bool (delay_seconds task) 0 = false ->
  dict_get id (_tasks s) = Some a ->
  exists k : TaskScheduler -> Co unit,
    _schedule_task uuid4_hex12 a s
    = Sleep (update a (set_status SCHEDULED) s) (delay_seconds task) k
    /\ get_status id (update a (set_status SCHEDULED) s) = Some SCHEDULED
    /\ cancel id (update a (set_status SCHEDULED) s)
       = (update a (set_status CANCELLED) (update a (set_status SCHEDULED) s), Ok true)
    /\ get_status id (update a (set_status CANCELLED) (update a (set_status SCHEDULED) s))
       = Some CANCELLED
    /\ exists s3 e,
         k (elapse (delay_seconds task)
              (update a (set_status CANCELLED) (update a (set_status SCHEDULED) s)))
         = Done s3 (Ok tt)
         /\ get_status id s3 = Some RUNNING
         /\ bus_published s3 = bus_published s ++ [e]
         /\ EventBus.topic e = target_topic task
         /\ EventBus.metadata e = [("task_id", VStr (task_id task))].
Proof.
  intros Ha Hnc Hd Hid.
  destruct (delayed_schedule_spec a task s Ha Hnc Hd) as (k & Hsleep & Hresume).
  set (s1 := update a (set_status SCHEDULED) s) in *.
  assert (Ha1 : heap s1 !! a = Some (set_status SCHEDULED task)).
  { subst s1. now rewrite heap_update_same, Ha. }
  exists k. split; [exact Hsleep|]. split; [|split; [|split]].
  - unfold get_status, get_task. change (_tasks s1) with (_tasks s).
    rewrite Hid. change (status <$> heap s1 !! a = Some SCHEDULED). now rewrite Ha1.
  - unfold cancel, bind, gets, modify, ret. cbv beta iota.
    change (_tasks s1) with (_tasks s). rewrite Hid. cbv beta iota.
    rewrite Ha1. reflexivity.
  - unfold get_status, get_task. simpl. rewrite Hid. simpl.
    now rewrite !list_lookup_alter_eq, Ha.
  - set (s2 := elapse (delay_seconds task) (update a (set_status CANCELLED) s1)).
    assert (Ha2 : heap s2 !! a = Some (set_status CANCELLED (set_status SCHEDULED task))).
    { subst s2. simpl. now rewrite !list_lookup_alter_eq, Ha. }
    destruct (Hresume s2 _ Ha2) as (s3 & Hk & Hh & Ht & Hp).
    exists s3. eexists. split; [exact Hk|]. split; [|split; [exact Hp|split; reflexivity]].
    unfold get_status, get_task. rewrite Ht. change (_tasks s2) with (_tasks s).
    rewrite Hid. simpl. rewrite Hh.
    rewrite list_lookup_insert_eq; [reflexivity|]. now apply lookup_lt_Some in Ha2.
Qed.

(** X18. A change of the size of the registry while the pass of
    [_check_dependents] sleeps for a delayed dependent breaks the pass.
    When the pass resumes, the delayed dependent is launched; the next
    step of the iteration then raises a RuntimeError, so that the
    dependents registered after it are not examined. *)
Theorem registry_change_breaks_the_pass (v : Value) (pos remaining : nat) s
    (key : string) a task :
  _tasks s !! pos = Some (key, a) ->
  heap s !! a = Some task ->
  eligible v s a = true ->
  Qle_bool (delay_seconds task) 0 = false ->
  exists k : TaskScheduler -> Co unit,
    check_loop uuid4_hex12 v (length (_tasks s)) pos (S remaining) s
    = Sleep (update a (set_status SCHEDULED) s) (delay_seconds task) k
    /\ forall s2 task2,
         heap s2 !! a = Some task2 ->
         length (_tasks s2) <> length (_tasks s) ->
         exists s3,
           k s2 = Done s3 (Raise (RuntimeError "dictionary changed size during iteration"))
           /\ heap s3
              = <[a := set_started_at (Some (clock s2)) (set_status RUNNING task2)]> (heap s2)
           /\ _tasks s3 = _tasks s2
           /\ bus_published s3
              = bus_published s2
                ++ [task_event uuid4_hex12
                      (set_started_at (Some (clock s2)) (set_status RUNNING task2)) s2].
Proof.
  intros Hpos Ha Hel Hd.
  assert (Hcond : TaskStatus_eqb (status task) PENDING && value_in v (depends_on task)
                  && _can_schedule task s = true).
  { unfold eligible in Hel. now rewrite Ha in Hel. }
  assert (Hnc : status task <> CANCELLED).
  { apply andb_prop in Hcond as [[Hp _]%andb_prop _].
    apply TaskStatus_eqb_eq in Hp. congruence. }
  destruct (delayed_schedule_spec a task s Ha Hnc Hd) as (k & Hsleep & Hresume).
  exists (fun s' => co_then (k s')
                      (fun _ => check_loop uuid4_hex12 v (length (_tasks s)) (S pos) remaining)).
  split.
  - rewrite check_loop_step, Nat.eqb_refl. simpl negb. cbv iota.
    rewrite Hpos, Ha, Hcond. unfold cbind. now rewrite Hsleep.
  - intros s2 task2 Ha2 Hsize.
    destruct (Hresume s2 task2 Ha2) as (s3 & Hk & Hh & Ht & Hp).
    exists s3. split; [|auto]. rewrite Hk. simpl co_then.
    assert (Hne : (length (_tasks s3) =? length (_tasks s))%nat = false).
    { apply Nat.eqb_neq. now rewrite Ht. }
    destruct remaining; simpl; now rewrite Hne.
Qed.

End Facts.

(** *** The properties on the scenarios *)

Import Scenarios.

Lemma submit_only_registers_witness :
  heap sched_abc_new !! 1%nat = Some (task_ "B" ["A"] 5)
  /\ submit uuid4_hex12 1 sched_abc_new
     = Done (set_tasks (dict_set "B" 1%nat (_tasks sched_abc_new)) sched_abc_new) (Ok "B").
Proof.
  assert (Ha : heap sched_abc_new !! 1%nat = Some (task_ "B" ["A"] 5)) by reflexivity.
  split; [exact Ha|].
  apply (submit_only_registers uuid4_hex12 1%nat (task_ "B" ["A"] 5) sched_abc_new Ha).
  left. exists "A". split; [now left|]. vm_compute. discriminate.
Defined.

Lemma submit_launches_witness :
  heap sched_t1_new !! 0%nat = Some (task_ "t1" [] 0)
  /\ status (task_ "t1" [] 0) <> CANCELLED
  /\ Qle_bool (delay_seconds (task_ "t1" [] 0)) 0 = true
  /\ exists s' e,
       submit uuid4_hex12 0 sched_t1_new = Done s' (Ok "t1")
       /\ get_status "t1" s' = Some RUNNING
       /\ bus_published s' = bus_published sched_t1_new ++ [e]
       /\ EventBus.topic e = "task.created".
Proof.
  assert (Ha : heap sched_t1_new !! 0%nat = Some (task_ "t1" [] 0)) by reflexivity.
  assert (Hnc : status (task_ "t1" [] 0) <> CANCELLED) by discriminate.
  assert (Hd : Qle_bool (delay_seconds (task_ "t1" [] 0)) 0 = true) by reflexivity.
  split; [exact Ha|]. split; [exact Hnc|]. split; [exact Hd|].
  destruct (submit_launches uuid4_hex12 0%nat (task_ "t1" [] 0) sched_t1_new Ha Hnc Hd)
    as (s' & e & Hsub & _ & _ & Hst & Hpub & Htopic & _).
  { intros dep []. }
  exists s', e. repeat split; assumption.
Defined.

Lemma task_payload_overrides_fields_witness :
  NoDup (dict_keys (payload task_with_payload))
  /\ dict_get "task_id" (EventBus.payload (task_event uuid4_hex12 task_with_payload init))
     = Some (VStr "other")
  /\ dict_get "name" (EventBus.payload (task_event uuid4_hex12 task_with_payload init))
     = Some (VStr "t1").
Proof.
  assert (Hnd : NoDup (dict_keys (payload task_with_payload))).
  { apply (bool_decide_unpack _). vm_compute. exact I. }
  split; [exact Hnd|]. split.
  - exact (task_payload_overrides_fields uuid4_hex12 task_with_payload init "task_id" Hnd).
  - exact (task_payload_overrides_fields uuid4_hex12 task_with_payload init "name" Hnd).
Defined.

Lemma failure_does_not_cascade_witness :
  dict_get "task_id" (EventBus.payload (report "task.failed" "A" "error" (VStr "boom")))
  = Some (VStr "A")
  /\ dict_get "A" (_tasks sched_abc) = Some 0%nat
  /\ exists s',
       _on_task_failed (report "task.failed" "A" "error" (VStr "boom")) sched_abc
       = Done s' (Ok tt)
       /\ bus_published s' = bus_published sched_abc
       /\ _can_schedule (task_ "B" ["A"] 5) s' = false.
Proof.
  assert (Hkey : dict_get "task_id"
                   (EventBus.payload (report "task.failed" "A" "error" (VStr "boom")))
                 = Some (VStr "A")) by reflexivity.
  assert (Hid : dict_get "A" (_tasks sched_abc) = Some 0%nat) by (vm_compute; reflexivity).
  assert (Ha : heap sched_abc !! 0%nat
               = Some (set_started_at (Some 0%Q) (set_status RUNNING (task_ "A" [] 0))))
    by (vm_compute; reflexivity).
  split; [exact Hkey|]. split; [exact Hid|].
  destruct (failure_does_not_cascade _ sched_abc "A" 0%nat _ Hkey Hid Ha)
    as (s' & Hrun & _ & _ & Hpub & _ & _ & Hdeps & _).
  exists s'. split; [exact Hrun|]. split; [exact Hpub|].
  apply Hdeps. now left.
Defined.

Lemma unknown_task_report_ignored_witness :
  exists r,
    _on_task_completed uuid4_hex12 (report "task.completed" "zzz" "result" VNone) sched_abc
    = Done sched_abc r
    /\ _on_task_failed (report "task.completed" "zzz" "result" VNone) sched_abc
       = Done sched_abc r
    /\ r = Ok tt.
Proof.
  apply (unknown_task_report_ignored uuid4_hex12
           (report "task.completed" "zzz" "result" VNone) sched_abc).
  intros id Hid. vm_compute in Hid. injection Hid as <-. vm_compute. reflexivity.
Defined.

Lemma submit_many_ids_in_order_witness :
  Forall (fun a => is_Some (heap sched_abc_new !! a)) [0; 1; 2]%nat
  /\ snd (run (submit_many uuid4_hex12 [0; 1; 2]%nat sched_abc_new)) = Ok ["A"; "B"; "C"].
Proof.
  assert (Hvalid : Forall (fun a => is_Some (heap sched_abc_new !! a)) [0; 1; 2]%nat).
  { repeat constructor; eexists; reflexivity. }
  split; [exact Hvalid|].
  destruct (submit_many_ids_in_order uuid4_hex12 [0; 1; 2]%nat sched_abc_new Hvalid)
    as (s' & Hrun & _).
  rewrite Hrun. reflexivity.
Defined.

Lemma cascade_activates_eligible_witness :
  NoDup (dict_values (_tasks sched_a_done))
  /\ exists s' evs,
       run (_check_dependents uuid4_hex12 (VStr "A") sched_a_done) = (s', Ok tt)
       /\ bus_published s' = bus_published sched_a_done ++ evs
       /\ map event_key evs
          = [("task.created", Some (VStr "B")); ("task.created", Some (VStr "C"))].
Proof.
  assert (Hnd : NoDup (dict_values (_tasks sched_a_done))).
  { apply (bool_decide_unpack _). vm_compute. exact I. }
  split; [exact Hnd|].
  destruct (cascade_activates_eligible uuid4_hex12 (VStr "A") sched_a_done Hnd)
    as (s' & evs & Hrun & _ & Hpub & Hkeys & _).
  exists s', evs. split; [exact Hrun|]. split; [exact Hpub|].
  assert (Hsome : map (fun e => Some (event_key e)) evs
                  = map Some [("task.created", Some (VStr "B"));
                              ("task.created", Some (VStr "C"))]).
  { rewrite Hkeys. vm_compute. reflexivity. }
  clear -Hsome. revert Hsome.
  generalize [("task.created", Some (VStr "B")); ("task.created", Some (VStr "C"))].
  induction evs as [|e evs IH]; intros [|k ks]; simpl; try discriminate; [reflexivity|].
  intros [= -> H]. f_equal. now apply IH.
Defined.

Lemma cancel_during_delay_is_ignored_witness :
  heap sched_d_registered !! 0%nat = Some (task_ "D" [] 5)
  /\ dict_get "D" (_tasks sched_d_registered) = Some 0%nat
  /\ exists k : TaskScheduler -> Co unit,
       _schedule_task uuid4_hex12 0 sched_d_registered
       = Sleep (update 0 (set_status SCHEDULED) sched_d_registered) 5 k
       /\ snd (cancel "D" (update 0 (set_status SCHEDULED) sched_d_registered)) = Ok true
       /\ exists s3,
            k (elapse 5 (fst (cancel "D" (update 0 (set_status SCHEDULED)
                                            sched_d_registered))))
            = Done s3 (Ok tt)
            /\ get_status "D" s3 = Some RUNNING.
Proof.
  assert (Ha : heap sched_d_registered !! 0%nat = Some (task_ "D" [] 5)) by reflexivity.
  assert (Hid : dict_get "D" (_tasks sched_d_registered) = Some 0%nat) by reflexivity.
  split; [exact Ha|]. split; [exact Hid|].
  destruct (cancel_during_delay_is_ignored uuid4_hex12 0%nat (task_ "D" [] 5)
              sched_d_registered "D" Ha)
    as (k & Hsleep & _ & Hcancel & _ & s3 & e & Hk & Hst & _);
    [discriminate | reflexivity | exact Hid |].
  exists k. split; [exact Hsleep|]. rewrite Hcancel. split; [reflexivity|].
  exists s3. split; [exact Hk | exact Hst].
Defined.

Lemma registry_change_breaks_the_pass_witness :
  _tasks sched_a_done !! 1%nat = Some ("B", 1%nat)
  /\ heap sched_a_done !! 1%nat = Some (task_ "B" ["A"] 5)
  /\ eligible (VStr "A") sched_a_done 1 = true
  /\ exists k : TaskScheduler -> Co unit,
       check_loop uuid4_hex12 (VStr "A") (length (_tasks sched_a_done)) 1 2 sched_a_done
       = Sleep (update 1 (set_status SCHEDULED) sched_a_done) 5 k
       /\ exists s3,
            k (elapse 5 (submit_e (update 1 (set_status SCHEDULED) sched_a_done)))
            = Done s3 (Raise (RuntimeError "dictionary changed size during iteration")).
Proof.
  assert (Hpos : _tasks sched_a_done !! 1%nat = Some ("B", 1%nat))
    by (vm_compute; reflexivity).
  assert (Ha : heap sched_a_done !! 1%nat = Some (task_ "B" ["A"] 5))
    by (vm_compute; reflexivity).
  assert (Hel : eligible (VStr "A") sched_a_done 1 = true) by (vm_compute; reflexivity).
  split; [exact Hpos|]. split; [exact Ha|]. split; [exact Hel|].
  destruct (registry_change_breaks_the_pass uuid4_hex12 (VStr "A") 1%nat 1%nat sched_a_done
              "B" 1%nat (task_ "B" ["A"] 5) Hpos Ha Hel)
    as (k & Hsleep & Hresume); [reflexivity|].
  exists k. split; [exact Hsleep|].
  destruct (Hresume (elapse 5 (submit_e (update 1 (set_status SCHEDULED) sched_a_done)))
              (set_status SCHEDULED (task_ "B" ["A"] 5)))
    as (s3 & Hk & _).
  - vm_compute. reflexivity.
  - vm_compute. discriminate.
  - exists s3. exact Hk.
Defined.

(** The pass on the scenario: B and C, registered second and third, are
    the eligible ones, and both are RUNNING afterwards. *)
Example cascade_on_sched_a_done :
  List.filter (eligible (VStr "A") sched_a_done) (dict_values (_tasks sched_a_done))
  = [1; 2]%nat
  /\ map status (heap (fst (run (_check_dependents uuid4_hex12 (VStr "A") sched_a_done))))
     = [COMPLETED; RUNNING; RUNNING].
Proof. vm_compute. split; reflexivity. Qed.

End SchedulerMore.

(** ** The engine: task submission *)

Module EngineMore.
Import Py PyFacts Scheduler SchedulerFacts SchedulerMore Engine.
Import EventBus (Event).

Section Facts.

Context (uuid4_hex12 : nat -> string).
Implicit Types (s : TaskScheduler).

Lemma NoDup_dict_update {V} (a b : dict V) :
  NoDup (dict_keys a) -> NoDup (dict_keys (dict_update a b)).
Proof.
  unfold dict_update. revert a. induction b as [|[k v] b IH]; intros a Hnd; simpl.
  - exact Hnd.
  - apply IH. now apply NoDup_dict_set.
Qed.

(** X19. [submit_task] of the engine, with keyword arguments that are
    distinct and, as the signature implies, do not name content: the call
    does not suspend and returns the id of the new task; the task is
    registered and RUNNING; exactly one event has been published, on the
    target topic, whose payload holds the content under "content" and
    each keyword argument under its key, and whose metadata hold the task
    id.  A task keeps the name it is given; a task given none is named
    by the first fifty characters of the content, which are the content
    when it has no more, whatever the number of bytes they take. *)
Theorem submit_task_publishes (fresh_id content name target_topic : string)
    (kwargs : dict Value) s :
  NoDup (dict_keys kwargs) ->
  dict_get "content" kwargs = None ->
  exists s' e,
    submit_task uuid4_hex12 fresh_id content name target_topic kwargs s
    = Done s' (Ok fresh_id)
    /\ get_status fresh_id s' = Some RUNNING
    /\ (exists given,
          Scheduler.name <$> get_task fresh_id s' = Some given
          /\ (name <> "" -> given = name)
          /\ (name = "" ->
              chars given = take 50 (chars content)
              /\ (exists rest, content = given +:+ rest)
              /\ ((length (chars content) <= 50)%nat -> given = content)))
    /\ bus_published s' = bus_published s ++ [e]
    /\ EventBus.topic e = target_topic
    /\ EventBus.metadata e = [("task_id", VStr fresh_id)]
    /\ dict_get "content" (EventBus.payload e) = Some (VStr content)
    /\ (forall k v, dict_get k kwargs = Some v ->
                    dict_get k (EventBus.payload e) = Some v).
Proof.
  intros Hnd Hcontent. unfold submit_task, new_task.
  set (task := {| task_id := fresh_id;
                  Scheduler.name := if String.eqb name "" then str_prefix 50 content
                                    else name;
                  description := content;
                  target_topic := target_topic;
                  payload := dict_update [("content", VStr content)] kwargs;
                  priority := EventBus.NORMAL;
                  status := PENDING;
                  depends_on := [];
                  created_at := clock s;
                  started_at := None;
                  completed_at := None;
                  result := VNone;
                  error := VNone;
                  delay_seconds := 0 |}).
  set (a := length (heap s)).
  set (s1 := set_heap (heap s ++ [task]) s).
  assert (Ha : heap s1 !! a = Some task).
  { subst s1 a. simpl. rewrite lookup_app_r by lia. now rewrite Nat.sub_diag. }
  set (s2 := set_tasks (dict_set (task_id task) a (_tasks s1)) s1).
  assert (Ha2 : heap s2 !! a = Some task) by exact Ha.
  destruct (launch_spec uuid4_hex12 a task s2 Ha2) as (s' & Hl & Hh & Ht & _ & _ & Hp).
  assert (Ha' : heap s' !! a
                = Some (set_started_at (Some (clock s)) (set_status RUNNING task))).
  { rewrite Hh. apply list_lookup_insert_eq. now apply lookup_lt_Some in Ha2. }
  assert (Hget : forall k v,
            dict_get k (dict_update [("content", VStr content)] kwargs) = Some v ->
            dict_get k (EventBus.payload
                          (task_event uuid4_hex12
                             (set_started_at (Some (clock s2)) (set_status RUNNING task)) s2))
            = Some v).
  { intros k v Hk. unfold task_event. cbn [EventBus.payload].
    change (payload (set_started_at (Some (clock s2)) (set_status RUNNING task)))
      with (dict_update [("content", VStr content)] kwargs).
    rewrite dict_get_update, Hk; [reflexivity|].
    apply NoDup_dict_update. apply (bool_decide_unpack _). vm_compute. exact I. }
  exists s'. eexists.
  split; [|split; [|split; [|split; [exact Hp|split; [reflexivity|split; [reflexivity|]]]]]].
  - rewrite (submit_at_once uuid4_hex12 a task s1 s' Ha);
      [now rewrite Ha' | discriminate | reflexivity | reflexivity | exact Hl].
  - unfold get_status, get_task. rewrite Ht. subst s2. simpl.
    rewrite dict_get_set_same. simpl. now rewrite Ha'.
  - exists (if String.eqb name "" then str_prefix 50 content else name). split; [|split].
    + unfold get_task. rewrite Ht. subst s2. simpl.
      rewrite dict_get_set_same. simpl. now rewrite Ha'.
    + intros Hname. now destruct (String.eqb_spec name "").
    + intros ->. simpl. split; [|split].
      * now apply (chars_str_prefix 50).
      * apply str_prefix_prefix.
      * intros Hlen. unfold str_prefix. rewrite slice_to_take by lia.
        rewrite take_ge by exact Hlen. apply concat_chars.
  - split.
    + apply Hget. rewrite dict_get_update by assumption. now rewrite Hcontent.
    + intros k v Hk. apply Hget. rewrite dict_get_update by assumption. now rewrite Hk.
Qed.

End Facts.

Import Scenarios.

Lemma submit_task_publishes_witness :
  NoDup (dict_keys [("user", VStr "u1")])
  /\ dict_get "content" [("user", VStr "u1")] = None
  /\ exists s' e,
       submit_task uuid4_hex12 "id1" german_content "" "task.created"
         [("user", VStr "u1")] Scheduler.init
       = Done s' (Ok "id1")
       /\ get_status "id1" s' = Some RUNNING
       /\ Scheduler.name <$> get_task "id1" s'
          = Some "Übersetze den Geschäftsbericht für die Zürcher Str"
       /\ bus_published s' = [e]
       /\ dict_get "content" (EventBus.payload e) = Some (VStr german_content)
       /\ dict_get "user" (EventBus.payload e) = Some (VStr "u1").
Proof.
  assert (Hnd : NoDup (dict_keys [("user", VStr "u1")])).
  { apply (bool_decide_unpack _). vm_compute. exact I. }
  assert (Hc : dict_get "content" [("user", VStr "u1")] = None) by reflexivity.
  split; [exact Hnd|]. split; [exact Hc|].
  destruct (submit_task_publishes uuid4_hex12 "id1" german_content "" "task.created"
              [("user", VStr "u1")] Scheduler.init Hnd Hc)
    as (s' & e & Hsub & Hst & (given & Hgiven & _ & Hname) & Hpub & _ & _ & Hcontent & Hkw).
  exists s', e. split; [exact Hsub|]. split; [exact Hst|]. split; [|split; [exact Hpub|]].
  - rewrite Hgiven. f_equal. rewrite <- (concat_chars given).
    now rewrite (proj1 (Hname eq_refl)).
  - split; [exact Hcontent|]. now apply Hkw.
Defined.

End EngineMore.

(** ** The agent: initialization, history and the default handling *)

Module AgentMore.
Import Py PyFacts Agent AgentFacts.
Import EventBus (Event, NORMAL).

Section Facts.

Context {P Class : Type} (uuid4_hex12 : nat -> string) (time_time : nat -> Q).
Context (repr : list string -> string) (list_set : list string -> list string).
Implicit Types (w : World P Class) (e : Event) (h : list Message).

(** *** Initialization *)

Lemma for_each_subscribe (topics : list string) w :
  exists w',
    for_each topics bus_subscribe w = (w', Ok tt)
    /\ self w' = self w
    /\ provider_registry w' = provider_registry w
    /\ backend w' = backend w
    /\ bus_subscribed w'
       = bus_subscribed w ++ map (fun t => (t, agent_id (self w))) topics
    /\ bus_unsubscribed w' = bus_unsubscribed w
    /\ bus_published w' = bus_published w
    /\ ticks w' = ticks w.
Proof.
  revert w. induction topics as [|t topics IH]; intros w.
  - exists w. simpl. rewrite app_nil_r. repeat split.
  - cbn [for_each]. unfold bind at 1. unfold bus_subscribe at 1, modify.
    match goal with |- context [for_each topics bus_subscribe ?w1] =>
      destruct (IH w1) as (w' & Hr & Hs & Hreg & Hb & Hsub & Hun & Hpub & Ht) end.
    exists w'. rewrite Hr. simpl in *. rewrite <- app_assoc in Hsub.
    repeat split; assumption.
Qed.

(** [self.provider_registry.get] on a name that is registered with an
    instance, and on one that is not. *)
Lemma registry_get_registered name w (p : ProviderBase P) :
  dict_get name (Provider._providers (provider_registry w)) = Some p ->
  registry_get repr list_set name w = (w, Ok p).
Proof.
  intros Hp. unfold registry_get, Provider.get, bind, gets, ret, dict_mem.
  rewrite Hp. now destruct w.
Qed.

Lemma registry_get_unregistered name w :
  dict_get name (Provider._providers (provider_registry w)) = None ->
  exists msg, registry_get repr list_set name w = (w, Raise (KeyError msg)).
Proof.
  intros Hp. unfold registry_get, Provider.get, bind, gets, raise, dict_mem.
  rewrite Hp. eexists. now destruct w.
Qed.

(** X20. [initialize], the provider named by the config being
    registered.  It returns with the agent IDLE and bound to that
    provider; it has made one subscription per configured topic, in
    order, each under the id of the agent; it has appended the system
    prompt to the history if the prompt is not empty, and published
    nothing.  This holds in whatever state the agent is, so a second call
    subscribes the agent again and appends the prompt again. *)
Theorem initialize_binds_and_subscribes w (p : ProviderBase P) :
  dict_get (cfg_provider (config (self w))) (Provider._providers (provider_registry w)) = Some p ->
  exists w',
    initialize repr list_set w = (w', Ok tt)
    /\ state (self w') = IDLE
    /\ _provider (self w') = Some p
    /\ _message_history (self w')
       = _message_history (self w)
         ++ (if String.eqb (system_prompt (config (self w))) "" then []
             else [Message_ SYSTEM (VStr (system_prompt (config (self w))))])
    /\ bus_subscribed w'
       = bus_subscribed w
         ++ map (fun t => (t, agent_id (self w))) (subscriptions (config (self w)))
    /\ bus_published w' = bus_published w
    /\ bus_unsubscribed w' = bus_unsubscribed w
    /\ agent_id (self w') = agent_id (self w)
    /\ config (self w') = config (self w).
Proof.
  intros Hp.
  set (w1 := (if String.eqb (system_prompt (config (self w))) "" then fun w0 => w0
              else set_history
                     (_message_history (self w)
                      ++ [Message_ SYSTEM (VStr (system_prompt (config (self w))))]))
               (set_provider (Some p) (set_state INITIALIZING w))).
  assert (Hinit : initialize repr list_set w
                  = match for_each (subscriptions (config (self w))) bus_subscribe w1 with
                    | (w2, Ok _) => (set_state IDLE w2, Ok tt)
                    | (w2, Raise exn) => (w2, Raise exn)
                    end).
  { unfold initialize, bind, modify, gets, ret.
    cbn [set_state set_self self config].
    rewrite (registry_get_registered (cfg_provider (config (self w)))
               (set_state INITIALIZING w) p Hp).
    simpl. subst w1.
    destruct (String.eqb (system_prompt (config (self w))) ""); reflexivity. }
  rewrite Hinit.
  destruct (for_each_subscribe (subscriptions (config (self w))) w1)
    as (w2 & Hr & Hs & Hreg & Hb & Hsub & Hun & Hpub & Ht).
  rewrite Hr. eexists. split; [reflexivity|]. simpl. rewrite Hs, Hsub, Hpub, Hun.
  subst w1. destruct (String.eqb (system_prompt (config (self w))) ""); simpl;
    rewrite ?app_nil_r; repeat split.
Qed.

(** X21. [initialize], the provider named by the config not being
    registered: the lookup raises a KeyError, and the agent is left in
    the state INITIALIZING, unbound, unsubscribed and with its history
    untouched. *)
Theorem initialize_unknown_provider w :
  dict_get (cfg_provider (config (self w))) (Provider._providers (provider_registry w)) = None ->
  exists msg, initialize repr list_set w = (set_state INITIALIZING w, Raise (KeyError msg)).
Proof.
  intros Hp.
  destruct (registry_get_unregistered (cfg_provider (config (self w)))
              (set_state INITIALIZING w) Hp) as [msg Hget].
  exists msg. unfold initialize, bind, modify, gets.
  cbn [set_state set_self self config]. now rewrite Hget.
Qed.

(** *** The history before the provider is called *)

Lemma filter_system_input h (input : Value) :
  List.filter (fun m => Role_eqb (role m) SYSTEM) (h ++ [Message_ USER input])
  = List.filter (fun m => Role_eqb (role m) SYSTEM) h.
Proof. rewrite List.filter_app. simpl. apply app_nil_r. Qed.

Lemma length_filter_le {A} (f : A -> bool) (l : list A) :
  (length (List.filter f l) <= length l)%nat.
Proof. induction l as [|y l IH]; simpl; [lia|]. destruct (f y); simpl; lia. Qed.

(** X22. Whatever the history and the cap, provided the cap is not
    negative, the history [think] hands to the provider ends with the
    input of the user: the trimming never drops the message just
    appended. *)
Theorem remember_ends_with_input (max_history : Z) (input : Value) h :
  0 <= max_history ->
  exists front, remember max_history input h = front ++ [Message_ USER input].
Proof.
  intros Hmax. unfold remember.
  destruct (max_history <? Z.of_nat (length (h ++ [Message_ USER input]))).
  2:{ now exists h. }
  unfold trim. rewrite filter_system_input.
  set (sys := List.filter (fun m => Role_eqb (role m) SYSTEM) h).
  pose proof (length_filter_le (fun m => Role_eqb (role m) SYSTEM) h) as Hsys. fold sys in Hsys.
  unfold slice_from. rewrite length_app. simpl length.
  set (n := slice_index (length h + 1) (- (max_history - Z.of_nat (length sys)))).
  assert (Hn : (n <= length h)%nat).
  { subst n. unfold slice_index.
    destruct (Z.ltb_spec (- (max_history - Z.of_nat (length sys))) 0); lia. }
  exists (sys ++ drop n h). rewrite drop_app_le by exact Hn. now rewrite app_assoc.
Qed.

(** X23. With fewer system messages in the history than the cap, the
    history [think] hands to the provider has the length of the old
    history plus one, or the cap if that is less: the cap holds for
    every history of that kind, also one in which system messages are
    not at the front. *)
Theorem remember_length (max_history : Z) (input : Value) h :
  Z.of_nat (length (List.filter (fun m => Role_eqb (role m) SYSTEM) h)) < max_history ->
  Z.of_nat (length (remember max_history input h))
  = Z.min (Z.of_nat (length h) + 1) max_history.
Proof.
  intros Hsys. unfold remember.
  assert (Hlen : Z.of_nat (length (h ++ [Message_ USER input])) = Z.of_nat (length h) + 1).
  { rewrite length_app. simpl. lia. }
  destruct (Z.ltb_spec max_history (Z.of_nat (length (h ++ [Message_ USER input])))).
  - unfold trim. rewrite filter_system_input, length_app, Nat2Z.inj_add.
    rewrite length_slice_from_neg by lia. lia.
  - lia.
Qed.

(** *** One call of the provider *)

Lemma think_with_provider (input : Value) w (p : ProviderBase P) :
  _provider (self w) = Some p ->
  think input w
  = match p (remember (max_history (config (self w))) input (_message_history (self w)))
            (tools_or_none (config (self w))) (think_kwargs (config (self w)))
            (backend w) with
    | (b, Ok response) =>
        (set_history
           (remember (max_history (config (self w))) input (_message_history (self w))
            ++ [message response])
           {| self := self w; provider_registry := provider_registry w; backend := b;
              bus_subscribed := bus_subscribed w; bus_unsubscribed := bus_unsubscribed w;
              bus_published := bus_published w; ticks := ticks w |},
         Ok (Some response))
    | (b, Raise exn) =>
        (set_history
           (remember (max_history (config (self w))) input (_message_history (self w)))
           {| self := self w; provider_registry := provider_registry w; backend := b;
              bus_subscribed := bus_subscribed w; bus_unsubscribed := bus_unsubscribed w;
              bus_published := bus_published w; ticks := ticks w |},
         Raise exn)
    end.
Proof.
  intros Hp. unfold think, complete. unfold bind, gets, modify, ret. rewrite Hp.
  cbn [set_history set_self self config _message_history backend]. unfold tools_or_none.
  destruct (p _ _ _ _) as [b [response|exn]]; reflexivity.
Qed.

(** X24. [think] on a bound agent.  The provider is called once, with
    the history that [remember] yields for the input.  If it answers,
    the answer is appended to that history and returned; if it raises,
    [think] raises the same exception and the history keeps the input,
    with no answer after it.  In both cases the state of the agent, its
    subscriptions and the bus are untouched. *)
Theorem think_outcome (input : Value) w (p : ProviderBase P) :
  _provider (self w) = Some p ->
  match p (remember (max_history (config (self w))) input (_message_history (self w)))
          (tools_or_none (config (self w))) (think_kwargs (config (self w)))
          (backend w) with
  | (b, Ok response) =>
      snd (think input w) = Ok (Some response)
      /\ _message_history (self (fst (think input w)))
         = remember (max_history (config (self w))) input (_message_history (self w))
           ++ [message response]
      /\ backend (fst (think input w)) = b
  | (b, Raise exn) =>
      snd (think input w) = Raise exn
      /\ _message_history (self (fst (think input w)))
         = remember (max_history (config (self w))) input (_message_history (self w))
      /\ backend (fst (think input w)) = b
  end
  /\ state (self (fst (think input w))) = state (self w)
  /\ bus_published (fst (think input w)) = bus_published w
  /\ bus_subscribed (fst (think input w)) = bus_subscribed w.
Proof.
  intros Hp. rewrite (think_with_provider input w p Hp).
  destruct (p _ _ _ _) as [b [response|exn]]; simpl; repeat split.
Qed.

(** *** The default handling of an event *)

Lemma on_event_unfold e :
  on_event uuid4_hex12 time_time e
  = if negb (truthy (event_text e)) then ret tt
    else
      response <- think (event_text e) ;;
      match response with
      | None => ret tt
      | Some response =>
          w <- gets (fun w => w) ;;
          emit uuid4_hex12 time_time ("agent.response." +:+ cfg_name (config (self w)))
               [("agent_id", VStr (agent_id (self w)));
                ("content", content (message response));
                ("model", VStr (model response));
                ("usage", VDict (usage response));
                ("source_event", VStr (EventBus.event_id e))]
               NORMAL
      end.
Proof. reflexivity. Qed.

(** X25. The default [on_event] does nothing at all, and so the agent
    is silent, when the event carries no text (neither a truthy content
    nor a truthy message) or when the agent has no provider bound: the
    provider is not called, the history is untouched and nothing is
    published; [_handle_event] then only leaves the agent IDLE. *)
Theorem on_event_silent e w :
  truthy (event_text e) = false \/ _provider (self w) = None ->
  on_event uuid4_hex12 time_time e w = (w, Ok tt)
  /\ _handle_event uuid4_hex12 time_time (on_event uuid4_hex12 time_time) e w
     = (set_state IDLE w, Ok tt).
Proof.
  intros Hwhy.
  assert (Hsilent : forall w0, _provider (self w0) = _provider (self w) ->
                               on_event uuid4_hex12 time_time e w0 = (w0, Ok tt)).
  { intros w0 Hp0. rewrite on_event_unfold.
    destruct (truthy (event_text e)) eqn:Htext; [|reflexivity].
    destruct Hwhy as [?|Hnone]; [discriminate|].
    change (negb true) with false. cbv iota. unfold think, bind, gets. cbv beta iota.
    rewrite Hp0, Hnone. reflexivity. }
  split; [now apply Hsilent|].
  unfold _handle_event, try_finally, try_except, bind, modify, gets.
  rewrite Hsilent by reflexivity. reflexivity.
Qed.

(** X26. An event with a text, handled by a bound agent whose provider
    answers: [_handle_event] returns with the agent IDLE, whatever state
    it was in; the history is the one handed to the provider followed by
    the answer; and exactly one event has been published, on
    "agent.response." followed by the configured name, from the agent,
    with the content, the model and the usage of the answer and the id
    of the event answered. *)
Theorem handled_event_yields_one_response e w (p : ProviderBase P) (b : P)
    (response : CompletionResponse) :
  truthy (event_text e) = true ->
  _provider (self w) = Some p ->
  p (remember (max_history (config (self w))) (event_text e) (_message_history (self w)))
    (tools_or_none (config (self w))) (think_kwargs (config (self w))) (backend w)
  = (b, Ok response) ->
  exists w',
    _handle_event uuid4_hex12 time_time (on_event uuid4_hex12 time_time) e w = (w', Ok tt)
    /\ state (self w') = IDLE
    /\ _message_history (self w')
       = remember (max_history (config (self w))) (event_text e) (_message_history (self w))
         ++ [message response]
    /\ backend w' = b
    /\ bus_published w'
       = bus_published w
         ++ [{| EventBus.topic := "agent.response." +:+ cfg_name (config (self w));
                EventBus.payload :=
                  [("agent_id", VStr (agent_id (self w)));
                   ("content", content (message response));
                   ("model", VStr (model response));
                   ("usage", VDict (usage response));
                   ("source_event", VStr (EventBus.event_id e))];
                EventBus.source := agent_id (self w);
                EventBus.event_id := uuid4_hex12 (ticks w);
                EventBus.timestamp := time_time (ticks w);
                EventBus.priority := NORMAL;
                EventBus.metadata := [] |}].
Proof.
  intros Htext Hp Hanswer.
  assert (Hp1 : _provider (self (set_state PROCESSING w)) = Some p) by exact Hp.
  pose proof (think_with_provider (event_text e) (set_state PROCESSING w) p Hp1) as Hthink.
  cbn [set_state set_self self config _message_history backend] in Hthink.
  rewrite Hanswer in Hthink.
  eexists. split.
  - unfold _handle_event, try_finally, try_except. unfold bind at 1. unfold modify at 1.
    rewrite on_event_unfold, Htext. change (negb true) with false. cbv iota.
    unfold bind at 1. rewrite Hthink.
    unfold bind, gets, emit, bus_publish, modify. simpl. reflexivity.
  - simpl. repeat split.
Qed.

End Facts.

(** *** The properties on the scenarios *)

Import Scenarios.

Lemma initialize_binds_and_subscribes_witness :
  dict_get "mock" (Provider._providers (provider_registry (agent_world_new "mock" 5)))
  = Some mock_provider
  /\ exists w',
       initialize repr list_set (agent_world_new "mock" 5) = (w', Ok tt)
       /\ state (self w') = IDLE
       /\ map role (_message_history (self w')) = [SYSTEM]
       /\ bus_subscribed w' = [("task.created", "history-test-a1b2c3")].
Proof.
  assert (Hp : dict_get "mock" (Provider._providers (provider_registry (agent_world_new "mock" 5)))
               = Some mock_provider) by reflexivity.
  split; [exact Hp|].
  destruct (initialize_binds_and_subscribes repr list_set (agent_world_new "mock" 5)
              mock_provider Hp)
    as (w' & Hinit & Hst & _ & Hh & Hsub & _).
  exists w'. split; [exact Hinit|]. split; [exact Hst|]. split.
  - rewrite Hh. reflexivity.
  - rewrite Hsub. reflexivity.
Defined.

Lemma initialize_unknown_provider_witness :
  dict_get "nowhere" (Provider._providers (provider_registry (agent_world_new "nowhere" 5))) = None
  /\ exists msg,
       initialize repr list_set (agent_world_new "nowhere" 5)
       = (set_state INITIALIZING (agent_world_new "nowhere" 5), Raise (KeyError msg)).
Proof.
  assert (Hp : dict_get "nowhere"
                 (Provider._providers (provider_registry (agent_world_new "nowhere" 5)))
               = None)
    by reflexivity.
  split; [exact Hp|].
  exact (initialize_unknown_provider repr list_set (agent_world_new "nowhere" 5) Hp).
Defined.

Lemma remember_ends_with_input_witness :
  0 <= 0
  /\ exists front,
       remember 0 (VStr "hi") (_message_history (self capped_world))
       = front ++ [Message_ USER (VStr "hi")].
Proof.
  assert (H : 0 <= 0) by lia.
  split; [exact H|].
  exact (remember_ends_with_input 0 (VStr "hi") (_message_history (self capped_world)) H).
Defined.

Lemma remember_length_witness :
  Z.of_nat (length (List.filter (fun m => Role_eqb (role m) SYSTEM)
                      (_message_history (self (think_cycles 3 capped_world))))) < 5
  /\ Z.of_nat (length (remember 5 (VStr "hi")
                         (_message_history (self (think_cycles 3 capped_world)))))
     = Z.min (Z.of_nat (length (_message_history (self (think_cycles 3 capped_world)))) + 1) 5.
Proof.
  assert (H : Z.of_nat (length (List.filter (fun m => Role_eqb (role m) SYSTEM)
                                  (_message_history (self (think_cycles 3 capped_world)))))
              < 5) by (vm_compute; reflexivity).
  split; [exact H|].
  exact (remember_length 5 (VStr "hi") _ H).
Defined.

Lemma think_outcome_witness :
  _provider (self capped_world) = Some mock_provider
  /\ snd (think (VStr "hi") capped_world)
     = Ok (Some {| message := Message_ ASSISTANT (VStr "Mock response #1");
                   finish_reason := "stop";
                   usage := [("prompt_tokens", VInt 10); ("completion_tokens", VInt 5);
                             ("total_tokens", VInt 15)];
                   model := "mock-model" |})
  /\ bus_published (fst (think (VStr "hi") capped_world)) = bus_published capped_world.
Proof.
  assert (Hp : _provider (self capped_world) = Some mock_provider) by reflexivity.
  split; [exact Hp|].
  destruct (think_outcome (VStr "hi") capped_world mock_provider Hp)
    as (Hcall & _ & Hpub & _).
  split; [|exact Hpub].
  exact (proj1 Hcall).
Defined.

Lemma on_event_silent_witness :
  truthy (event_text (event_on "task.created" "e1")) = false
  /\ on_event uuid4_hex12 time_time (event_on "task.created" "e1") capped_world
     = (capped_world, Ok tt)
  /\ _handle_event uuid4_hex12 time_time (on_event uuid4_hex12 time_time)
       (event_on "task.created" "e1") capped_world
     = (set_state IDLE capped_world, Ok tt).
Proof.
  assert (H : truthy (event_text (event_on "task.created" "e1")) = false) by reflexivity.
  split; [exact H|].
  exact (on_event_silent uuid4_hex12 time_time (event_on "task.created" "e1") capped_world
           (or_introl H)).
Defined.

Lemma handled_event_yields_one_response_witness :
  truthy (event_text task_created) = true
  /\ _provider (self capped_world) = Some mock_provider
  /\ exists w',
       _handle_event uuid4_hex12 time_time (on_event uuid4_hex12 time_time)
         task_created capped_world
       = (w', Ok tt)
       /\ state (self w') = IDLE
       /\ map EventBus.topic (bus_published w') = ["agent.response.history-test"].
Proof.
  assert (Htext : truthy (event_text task_created) = true) by reflexivity.
  assert (Hp : _provider (self capped_world) = Some mock_provider) by reflexivity.
  split; [exact Htext|]. split; [exact Hp|].
  destruct (handled_event_yields_one_response uuid4_hex12 time_time task_created
              capped_world mock_provider _ _ Htext Hp eq_refl)
    as (w' & Hrun & Hst & _ & _ & Hpub).
  exists w'. split; [exact Hrun|]. split; [exact Hst|].
  rewrite Hpub. reflexivity.
Defined.

End AgentMore.

(** ** The provider registry and the provider loop of the loader *)

Module ProviderFacts.
Import Py PyFacts Provider SchedulerMore Loader Config ConfigFacts.

Section Facts.

Context {Instance Class ProviderConfig : Type}.
Context (construct : Class -> ProviderConfig -> Res Instance).
Context (repr : list string -> string) (list_set : list string -> list string).
Implicit Types (r : ProviderRegistry Instance Class).

Lemma get_registered (name : string) (p : Instance) r :
  dict_get name (_providers r) = Some p ->
  get repr list_set name r = (r, Ok p).
Proof.
  intros Hp. unfold get, bind, gets, ret, dict_mem. now rewrite Hp.
Qed.

Lemma get_unregistered (name : string) r :
  dict_get name (_providers r) = None ->
  exists msg, get repr list_set name r = (r, Raise (KeyError msg)).
Proof.
  intros Hp. unfold get, bind, gets, raise, dict_mem. rewrite Hp. eexists. reflexivity.
Qed.

(** X27. The registry hands out instances only.  [get] after
    [register_instance] returns the instance registered last under the
    name.  [create] on a registered class whose constructor returns
    registers the new instance, so that [get] returns it afterwards;
    [create] that raises, because the class is unknown or because the
    constructor raises, leaves the registry as it was.  [get] never
    changes the registry, and a name registered as a class only is in
    the registry for [in] although [get] raises a KeyError for it. *)
Theorem registry_round_trip (name : string) r :
  (forall p : Instance,
     get repr list_set name (fst (register_instance name p r))
     = (fst (register_instance name p r), Ok p))
  /\ (forall (config : ProviderConfig) r' (p : Instance),
        create construct repr name config r = (r', Ok p) ->
        get repr list_set name r' = (r', Ok p) /\ _factory r' = _factory r)
  /\ (forall (config : ProviderConfig) r' (exn : Exn),
        create construct repr name config r = (r', Raise exn) -> r' = r)
  /\ fst (get repr list_set name r) = r
  /\ (forall cls : Class,
        dict_get name (_providers r) = None ->
        __contains__ name (fst (register_class name cls r)) = true
        /\ exists msg, get repr list_set name (fst (register_class name cls r))
                       = (fst (register_class name cls r), Raise (KeyError msg))).
Proof.
  split; [|split; [|split; [|split]]].
  - intros p. apply get_registered. simpl. apply dict_get_set_same.
  - intros config r' p. unfold create, bind, gets, raise, modify, ret.
    destruct (dict_get name (_factory r)) as [cls|]; [|discriminate].
    destruct (construct cls config) as [q|exn]; [|discriminate].
    intros [= <- <-]. split; [|reflexivity].
    apply get_registered. simpl. apply dict_get_set_same.
  - intros config r' exn. unfold create, bind, gets, raise, modify, ret.
    destruct (dict_get name (_factory r)) as [cls|]; [|congruence].
    destruct (construct cls config) as [q|exn']; congruence.
  - unfold get, bind, gets, ret, raise.
    destruct (dict_mem name (_providers r)); [|reflexivity].
    now destruct (dict_get name (_providers r)).
  - intros cls Hnone. split.
    + unfold __contains__. simpl. rewrite dict_mem_set, String.eqb_refl. apply orb_true_r.
    + apply get_unregistered. exact Hnone.
Qed.

(** X28. [name in registry] holds exactly for the names [available]
    lists, whatever order the set behind [available] yields them in. *)
Theorem contains_iff_available (name : string) r :
  (forall l x, In x (list_set l) <-> In x l) ->
  __contains__ name r = true <-> In name (available list_set r).
Proof.
  intros Hset. unfold __contains__, available. rewrite Hset, in_app_iff, orb_true_iff.
  unfold dict_mem.
  assert (Hmem : forall V (d : dict V),
            (match dict_get name d with Some _ => true | None => false end) = true
            <-> In name (dict_keys d)).
  { intros V d. destruct (dict_get name d) eqn:Hd.
    - split; [intros _|reflexivity].
      destruct (in_dec string_dec name (dict_keys d)) as [Hin|Hnot]; [exact Hin|].
      apply dict_get_not_key in Hnot. congruence.
    - split; [discriminate|]. intros Hin. apply dict_get_not_key in Hd. contradiction. }
  now rewrite !Hmem.
Qed.

End Facts.

Section Loading.

Context {Instance Class : Type}.
Context (construct : Class -> Config.ProviderConfig -> Res Instance).
Context (repr : list string -> string) (list_set : list string -> list string).
Implicit Types (r : ProviderRegistry Instance Class).

Lemma dict_get_default_set_other {V} (k k' : string) (v default : V) (d : dict V) :
  k' <> k -> dict_get_default k default (dict_set k' v d) = dict_get_default k default d.
Proof.
  intros Hne. unfold dict_get_default. rewrite dict_get_set.
  destruct (String.eqb_spec k' k); [contradiction | reflexivity].
Qed.

(** X29. A provider of a config file is created from the class
    registered under its own name: the type its definition declares has
    no effect on what is loaded.  If no class is registered under the
    name, the load raises and the registry stays as it was, whatever the
    type says: it raises a KeyError, unless the resolution of the api_key
    has raised before, and then what that raised. *)
Theorem provider_loaded_by_name (env : environ) (provider_name : string)
    (provider_def : dict Value) r :
  (forall t : Value,
     load_provider construct repr env provider_name (dict_set "type" t provider_def) r
     = load_provider construct repr env provider_name provider_def r)
  /\ (dict_get provider_name (_factory r) = None ->
      match provider_config env provider_def with
      | Ok _ =>
          exists msg,
            load_provider construct repr env provider_name provider_def r
            = (r, Raise (KeyError msg))
      | Raise exn =>
          load_provider construct repr env provider_name provider_def r = (r, Raise exn)
      end).
Proof.
  split.
  - intros t. unfold load_provider, provider_config.
    rewrite !dict_get_default_set_other by discriminate. reflexivity.
  - intros Hnone. unfold load_provider.
    destruct (provider_config env provider_def) as [[pc log]|exn]; [|reflexivity].
    unfold create, bind, gets, raise. rewrite Hnone. eexists. reflexivity.
Qed.

(** X30. A placeholder whose name the environment cannot encode fails
    the load.  The exception that the encoding of the name raises, any
    but a KeyError, is raised by [resolve_env_vars], and the provider
    loop raises it in turn, before any class is looked up and with the
    registry untouched.  On POSIX such a name is one that holds a lone
    surrogate standing for no byte, and the exception is a
    UnicodeEncodeError. *)
Theorem unencodable_placeholder_fails_load (env : environ) (provider_name : string)
    (provider_def : dict Value) r (name : string) (exn : Exn) :
  dict_get "api_key" provider_def = Some (VStr ("${" +:+ name +:+ "}")) ->
  encodekey env name = Raise exn ->
  (forall msg, exn <> KeyError msg) ->
  resolve_env_vars env (VStr ("${" +:+ name +:+ "}")) = Raise exn
  /\ load_provider construct repr env provider_name provider_def r = (r, Raise exn).
Proof.
  intros Hkey Hname Hexn.
  assert (Hresolve : resolve_env_vars env (VStr ("${" +:+ name +:+ "}")) = Raise exn).
  { unfold resolve_env_vars.
    assert (Hform : startswith ("${" +:+ name +:+ "}") "${"
                    && endswith ("${" +:+ name +:+ "}") "}" = true)
      by (apply placeholder_form; now exists name).
    rewrite Hform, strip_placeholder. unfold environ_get. rewrite Hname.
    destruct exn; try reflexivity. now destruct (Hexn msg). }
  split; [exact Hresolve|].
  unfold load_provider, provider_config, dict_get_default.
  now rewrite Hkey, Hresolve.
Qed.

End Loading.

(** *** The properties on the scenarios *)

Import Scenarios.

Lemma registry_round_trip_witness :
  dict_get "openai" (_providers registry0) = None
  /\ __contains__ "openai" registry0 = true
  /\ (exists msg, get repr list_set "openai" registry0 = (registry0, Raise (KeyError msg)))
  /\ exists r',
       create construct repr "openai" provider_config0 registry0
       = (r', Ok mock_provider)
       /\ get repr list_set "openai" r' = (r', Ok mock_provider).
Proof.
  assert (Hnone : dict_get "openai" (_providers registry0) = None) by reflexivity.
  split; [exact Hnone|].
  destruct (registry_round_trip construct repr list_set "openai" Provider.init)
    as (_ & _ & _ & _ & Hclass).
  destruct (Hclass mock_class eq_refl) as [Hin Hget].
  split; [exact Hin|]. split; [exact Hget|].
  destruct (registry_round_trip construct repr list_set "openai" registry0)
    as (_ & Hcreate & _).
  eexists. split; [reflexivity|].
  exact (proj1 (Hcreate provider_config0 _ _ eq_refl)).
Defined.

Lemma contains_iff_available_witness :
  (forall l x, In x (list_set l) <-> In x l)
  /\ (__contains__ "openai" registry0 = true <-> In "openai" (available list_set registry0)).
Proof.
  assert (Hset : forall l x, In x (list_set l) <-> In x l).
  { intros l x. apply nodup_In. }
  split; [exact Hset|].
  exact (contains_iff_available list_set "openai" registry0 Hset).
Defined.

Lemma provider_loaded_by_name_witness :
  dict_get "primary" (_factory registry0) = None
  /\ dict_get "type" (dict_set "type" (VStr "openai") provider_def0) = Some (VStr "openai")
  /\ exists msg,
       load_provider construct repr environ0 "primary"
         (dict_set "type" (VStr "openai") provider_def0) registry0
       = (registry0, Raise (KeyError msg)).
Proof.
  assert (Hnone : dict_get "primary" (_factory registry0) = None) by reflexivity.
  split; [exact Hnone|]. split; [reflexivity|].
  exact (proj2 (provider_loaded_by_name construct repr environ0 "primary"
                  (dict_set "type" (VStr "openai") provider_def0) registry0) Hnone).
Defined.

Lemma unencodable_placeholder_fails_load_witness :
  dict_get "api_key" [("api_key", VStr ("${" +:+ lone_surrogate +:+ "}"))]
  = Some (VStr ("${" +:+ lone_surrogate +:+ "}"))
  /\ encodekey environ0 lone_surrogate = Raise (UnicodeEncodeError "surrogates not allowed")
  /\ resolve_env_vars environ0 (VStr ("${" +:+ lone_surrogate +:+ "}"))
     = Raise (UnicodeEncodeError "surrogates not allowed")
  /\ load_provider construct repr environ0 "openai"
       [("api_key", VStr ("${" +:+ lone_surrogate +:+ "}"))] registry0
     = (registry0, Raise (UnicodeEncodeError "surrogates not allowed")).
Proof.
  assert (Hkey : dict_get "api_key" [("api_key", VStr ("${" +:+ lone_surrogate +:+ "}"))]
                 = Some (VStr ("${" +:+ lone_surrogate +:+ "}"))) by reflexivity.
  assert (Hname : encodekey environ0 lone_surrogate
                  = Raise (UnicodeEncodeError "surrogates not allowed")) by reflexivity.
  split; [exact Hkey|]. split; [exact Hname|].
  apply (unencodable_placeholder_fails_load construct repr environ0 "openai" _ registry0
           lone_surrogate _ Hkey Hname).
  discriminate.
Defined.

End ProviderFacts.
